(** * Word-Deck: the dictionary lookup page, embedded and verified

    The repository holds two versions of one browser page.  [src/index.tsx]
    asks the language service for a JSON entry (structured mode);
    [src/unnamed/part_000] asks for free text with search grounding
    (grounded-text mode).  Both share the recency history kept in
    [localStorage], the loader, the error banner and the submit handler's
    shape.

    The definitions come in layers:
    - [JS]: the parts of the JavaScript runtime the page relies on (strings
      as sequences of UTF-16 code units, [trim], [toLowerCase] with the case
      tables of the Unicode Character Database, [JSON.parse],
      [JSON.stringify], property access and coercions on parsed values);
    - [Page]: the state of the page (DOM surfaces, the storage slot, the
      service client, the requests sent) and the functions the two versions
      have in common;
    - [Structured] and [Grounded]: the submit handler of each version, cut at
      its single [await] into the part that runs on submit and the part that
      runs when the service call settles;
    - [Shell] and [Details]: the start-up code, the word of the day, the
      click handlers and the details toggle.
    [Notions] and [Vocabulary] hold the words of the statements.  The facts
    follow: about lower-casing, about the runtime (a history written by the
    page is read back as it was written; the parser never runs out of
    fuel), about the history, about the handlers, about the sources list;
    then the properties of the specification, each under its number, and
    further properties of the code.

    Console output and text-to-speech are left out: nothing below depends
    on them. *)

From Stdlib Require Import List NArith ZArith Bool Lia String Ascii.
Import ListNotations.

Set Warnings "-register-all".

(* ===================================================================== *)
(** ** The JavaScript runtime *)
(* ===================================================================== *)

Module JS.

Local Open Scope N_scope.

(** A JavaScript string is a sequence of UTF-16 code units. *)
Definition jsstring := list N.

(** String literals of the sources are written with [js]. *)
Definition js (s : string) : jsstring :=
  map N_of_ascii (list_ascii_of_string s).

(** JSON texts used as examples are written with [jsq], which reads an
    apostrophe as the quotation mark (code unit 34). *)
Definition jsq (s : string) : jsstring :=
  map (fun c => if c =? 39 then 34 else c) (js s).

Fixpoint str_eqb (a b : jsstring) : bool :=
  match a, b with
  | [], [] => true
  | x :: a', y :: b' => (x =? y) && str_eqb a' b'
  | _, _ => false
  end.

Definition in_range (lo hi c : N) : bool := (lo <=? c) && (c <=? hi).

(** [WhiteSpace] and [LineTerminator] of ECMAScript: what [trim] strips and
    what [StringToNumber] skips. *)
Definition is_space (c : N) : bool :=
  in_range 9 13 c || (c =? 32) || (c =? 160) || (c =? 5760)
  || in_range 8192 8202 c || (c =? 8232) || (c =? 8233) || (c =? 8239)
  || (c =? 8287) || (c =? 12288) || (c =? 65279).

Fixpoint trimStart (s : jsstring) : jsstring :=
  match s with
  | c :: r => if is_space c then trimStart r else s
  | [] => []
  end.

Definition trimEnd (s : jsstring) : jsstring := rev (trimStart (rev s)).

Definition trim (s : jsstring) : jsstring := trimEnd (trimStart s).

(** *** String.prototype.toLowerCase *)

(** [toLowerCase] works on code points, not on code units.
    [StringToCodePoints] reads a high surrogate followed by a low
    surrogate as one code point and any other code unit, a surrogate on
    its own included, as itself; [CodePointsToString] writes a code point
    above U+FFFF as its surrogate pair.  A number from U+110000 on is no
    code point; it is written back as it is. *)
Definition is_high_surrogate (c : N) : bool := in_range 0xD800 0xDBFF c.
Definition is_low_surrogate (c : N) : bool := in_range 0xDC00 0xDFFF c.

Fixpoint StringToCodePoints (s : jsstring) : list N :=
  match s with
  | [] => []
  | c :: r =>
      match r with
      | d :: r' =>
          if is_high_surrogate c && is_low_surrogate d
          then (0x10000 + (c - 0xD800) * 0x400 + (d - 0xDC00))
               :: StringToCodePoints r'
          else c :: StringToCodePoints r
      | [] => [c]
      end
  end.

Definition UTF16EncodeCodePoint (cp : N) : jsstring :=
  if cp <? 0x10000 then [cp]
  else if cp <? 0x110000
  then [0xD800 + (cp - 0x10000) / 0x400; 0xDC00 + (cp - 0x10000) mod 0x400]
  else [cp].

Definition CodePointsToString (cps : list N) : jsstring :=
  flat_map UTF16EncodeCodePoint cps.

(** The simple lower-case mappings of the Unicode Character Database
    (version 14.0), as runs [(first, last, step, target)]: every code point
    [first + k * step] up to [last] maps to [target + k * step].  A step of
    two is a block where capital and small letters alternate. *)
Definition lower_runs : list (N * N * N * N) :=
  [
   (0x41, 0x5A, 1, 0x61); (0xC0, 0xD6, 1, 0xE0); (0xD8, 0xDE, 1, 0xF8);
   (0x100, 0x12E, 2, 0x101); (0x132, 0x136, 2, 0x133);
   (0x139, 0x147, 2, 0x13A); (0x14A, 0x176, 2, 0x14B);
   (0x178, 0x178, 1, 0xFF); (0x179, 0x17D, 2, 0x17A);
   (0x181, 0x181, 1, 0x253); (0x182, 0x184, 2, 0x183);
   (0x186, 0x186, 1, 0x254); (0x187, 0x187, 1, 0x188);
   (0x189, 0x18A, 1, 0x256); (0x18B, 0x18B, 1, 0x18C);
   (0x18E, 0x18E, 1, 0x1DD); (0x18F, 0x18F, 1, 0x259);
   (0x190, 0x190, 1, 0x25B); (0x191, 0x191, 1, 0x192);
   (0x193, 0x193, 1, 0x260); (0x194, 0x194, 1, 0x263);
   (0x196, 0x196, 1, 0x269); (0x197, 0x197, 1, 0x268);
   (0x198, 0x198, 1, 0x199); (0x19C, 0x19C, 1, 0x26F);
   (0x19D, 0x19D, 1, 0x272); (0x19F, 0x19F, 1, 0x275);
   (0x1A0, 0x1A4, 2, 0x1A1); (0x1A6, 0x1A6, 1, 0x280);
   (0x1A7, 0x1A7, 1, 0x1A8); (0x1A9, 0x1A9, 1, 0x283);
   (0x1AC, 0x1AC, 1, 0x1AD); (0x1AE, 0x1AE, 1, 0x288);
   (0x1AF, 0x1AF, 1, 0x1B0); (0x1B1, 0x1B2, 1, 0x28A);
   (0x1B3, 0x1B5, 2, 0x1B4); (0x1B7, 0x1B7, 1, 0x292);
   (0x1B8, 0x1B8, 1, 0x1B9); (0x1BC, 0x1BC, 1, 0x1BD);
   (0x1C4, 0x1C4, 1, 0x1C6); (0x1C5, 0x1C5, 1, 0x1C6);
   (0x1C7, 0x1C7, 1, 0x1C9); (0x1C8, 0x1C8, 1, 0x1C9);
   (0x1CA, 0x1CA, 1, 0x1CC); (0x1CB, 0x1DB, 2, 0x1CC);
   (0x1DE, 0x1EE, 2, 0x1DF); (0x1F1, 0x1F1, 1, 0x1F3);
   (0x1F2, 0x1F4, 2, 0x1F3); (0x1F6, 0x1F6, 1, 0x195);
   (0x1F7, 0x1F7, 1, 0x1BF); (0x1F8, 0x21E, 2, 0x1F9);
   (0x220, 0x220, 1, 0x19E); (0x222, 0x232, 2, 0x223);
   (0x23A, 0x23A, 1, 0x2C65); (0x23B, 0x23B, 1, 0x23C);
   (0x23D, 0x23D, 1, 0x19A); (0x23E, 0x23E, 1, 0x2C66);
   (0x241, 0x241, 1, 0x242); (0x243, 0x243, 1, 0x180);
   (0x244, 0x244, 1, 0x289); (0x245, 0x245, 1, 0x28C);
   (0x246, 0x24E, 2, 0x247); (0x370, 0x372, 2, 0x371);
   (0x376, 0x376, 1, 0x377); (0x37F, 0x37F, 1, 0x3F3);
   (0x386, 0x386, 1, 0x3AC); (0x388, 0x38A, 1, 0x3AD);
   (0x38C, 0x38C, 1, 0x3CC); (0x38E, 0x38F, 1, 0x3CD);
   (0x391, 0x3A1, 1, 0x3B1); (0x3A3, 0x3AB, 1, 0x3C3);
   (0x3CF, 0x3CF, 1, 0x3D7); (0x3D8, 0x3EE, 2, 0x3D9);
   (0x3F4, 0x3F4, 1, 0x3B8); (0x3F7, 0x3F7, 1, 0x3F8);
   (0x3F9, 0x3F9, 1, 0x3F2); (0x3FA, 0x3FA, 1, 0x3FB);
   (0x3FD, 0x3FF, 1, 0x37B); (0x400, 0x40F, 1, 0x450);
   (0x410, 0x42F, 1, 0x430); (0x460, 0x480, 2, 0x461);
   (0x48A, 0x4BE, 2, 0x48B); (0x4C0, 0x4C0, 1, 0x4CF);
   (0x4C1, 0x4CD, 2, 0x4C2); (0x4D0, 0x52E, 2, 0x4D1);
   (0x531, 0x556, 1, 0x561); (0x10A0, 0x10C5, 1, 0x2D00);
   (0x10C7, 0x10C7, 1, 0x2D27); (0x10CD, 0x10CD, 1, 0x2D2D);
   (0x13A0, 0x13EF, 1, 0xAB70); (0x13F0, 0x13F5, 1, 0x13F8);
   (0x1C90, 0x1CBA, 1, 0x10D0); (0x1CBD, 0x1CBF, 1, 0x10FD);
   (0x1E00, 0x1E94, 2, 0x1E01); (0x1E9E, 0x1E9E, 1, 0xDF);
   (0x1EA0, 0x1EFE, 2, 0x1EA1); (0x1F08, 0x1F0F, 1, 0x1F00);
   (0x1F18, 0x1F1D, 1, 0x1F10); (0x1F28, 0x1F2F, 1, 0x1F20);
   (0x1F38, 0x1F3F, 1, 0x1F30); (0x1F48, 0x1F4D, 1, 0x1F40);
   (0x1F59, 0x1F5F, 2, 0x1F51); (0x1F68, 0x1F6F, 1, 0x1F60);
   (0x1F88, 0x1F8F, 1, 0x1F80); (0x1F98, 0x1F9F, 1, 0x1F90);
   (0x1FA8, 0x1FAF, 1, 0x1FA0); (0x1FB8, 0x1FB9, 1, 0x1FB0);
   (0x1FBA, 0x1FBB, 1, 0x1F70); (0x1FBC, 0x1FBC, 1, 0x1FB3);
   (0x1FC8, 0x1FCB, 1, 0x1F72); (0x1FCC, 0x1FCC, 1, 0x1FC3);
   (0x1FD8, 0x1FD9, 1, 0x1FD0); (0x1FDA, 0x1FDB, 1, 0x1F76);
   (0x1FE8, 0x1FE9, 1, 0x1FE0); (0x1FEA, 0x1FEB, 1, 0x1F7A);
   (0x1FEC, 0x1FEC, 1, 0x1FE5); (0x1FF8, 0x1FF9, 1, 0x1F78);
   (0x1FFA, 0x1FFB, 1, 0x1F7C); (0x1FFC, 0x1FFC, 1, 0x1FF3);
   (0x2126, 0x2126, 1, 0x3C9); (0x212A, 0x212A, 1, 0x6B);
   (0x212B, 0x212B, 1, 0xE5); (0x2132, 0x2132, 1, 0x214E);
   (0x2160, 0x216F, 1, 0x2170); (0x2183, 0x2183, 1, 0x2184);
   (0x24B6, 0x24CF, 1, 0x24D0); (0x2C00, 0x2C2F, 1, 0x2C30);
   (0x2C60, 0x2C60, 1, 0x2C61); (0x2C62, 0x2C62, 1, 0x26B);
   (0x2C63, 0x2C63, 1, 0x1D7D); (0x2C64, 0x2C64, 1, 0x27D);
   (0x2C67, 0x2C6B, 2, 0x2C68); (0x2C6D, 0x2C6D, 1, 0x251);
   (0x2C6E, 0x2C6E, 1, 0x271); (0x2C6F, 0x2C6F, 1, 0x250);
   (0x2C70, 0x2C70, 1, 0x252); (0x2C72, 0x2C72, 1, 0x2C73);
   (0x2C75, 0x2C75, 1, 0x2C76); (0x2C7E, 0x2C7F, 1, 0x23F);
   (0x2C80, 0x2CE2, 2, 0x2C81); (0x2CEB, 0x2CED, 2, 0x2CEC);
   (0x2CF2, 0x2CF2, 1, 0x2CF3); (0xA640, 0xA66C, 2, 0xA641);
   (0xA680, 0xA69A, 2, 0xA681); (0xA722, 0xA72E, 2, 0xA723);
   (0xA732, 0xA76E, 2, 0xA733); (0xA779, 0xA77B, 2, 0xA77A);
   (0xA77D, 0xA77D, 1, 0x1D79); (0xA77E, 0xA786, 2, 0xA77F);
   (0xA78B, 0xA78B, 1, 0xA78C); (0xA78D, 0xA78D, 1, 0x265);
   (0xA790, 0xA792, 2, 0xA791); (0xA796, 0xA7A8, 2, 0xA797);
   (0xA7AA, 0xA7AA, 1, 0x266); (0xA7AB, 0xA7AB, 1, 0x25C);
   (0xA7AC, 0xA7AC, 1, 0x261); (0xA7AD, 0xA7AD, 1, 0x26C);
   (0xA7AE, 0xA7AE, 1, 0x26A); (0xA7B0, 0xA7B0, 1, 0x29E);
   (0xA7B1, 0xA7B1, 1, 0x287); (0xA7B2, 0xA7B2, 1, 0x29D);
   (0xA7B3, 0xA7B3, 1, 0xAB53); (0xA7B4, 0xA7C2, 2, 0xA7B5);
   (0xA7C4, 0xA7C4, 1, 0xA794); (0xA7C5, 0xA7C5, 1, 0x282);
   (0xA7C6, 0xA7C6, 1, 0x1D8E); (0xA7C7, 0xA7C9, 2, 0xA7C8);
   (0xA7D0, 0xA7D0, 1, 0xA7D1); (0xA7D6, 0xA7D8, 2, 0xA7D7);
   (0xA7F5, 0xA7F5, 1, 0xA7F6); (0xFF21, 0xFF3A, 1, 0xFF41);
   (0x10400, 0x10427, 1, 0x10428); (0x104B0, 0x104D3, 1, 0x104D8);
   (0x10570, 0x1057A, 1, 0x10597); (0x1057C, 0x1058A, 1, 0x105A3);
   (0x1058C, 0x10592, 1, 0x105B3); (0x10594, 0x10595, 1, 0x105BB);
   (0x10C80, 0x10CB2, 1, 0x10CC0); (0x118A0, 0x118BF, 1, 0x118C0);
   (0x16E40, 0x16E5F, 1, 0x16E60); (0x1E900, 0x1E921, 1, 0x1E922)
  ].

Definition in_run (c : N) (run : N * N * N * N) : bool :=
  let '(first, last, step, _) := run in
  in_range first last c && ((c - first) mod step =? 0).

Definition simple_lower (c : N) : N :=
  match find (in_run c) lower_runs with
  | Some (first, _, _, target) => target + (c - first)
  | None => c
  end.

(** The code points with the property [Case_Ignorable], and those with the
    property [Cased], as ranges. *)
Definition case_ignorable_ranges : list (N * N) :=
  [
   (0x27, 0x27); (0x2E, 0x2E); (0x3A, 0x3A); (0x5E, 0x5E); (0x60, 0x60);
   (0xA8, 0xA8); (0xAD, 0xAD); (0xAF, 0xAF); (0xB4, 0xB4); (0xB7, 0xB8);
   (0x2B0, 0x36F); (0x374, 0x375); (0x37A, 0x37A); (0x384, 0x385);
   (0x387, 0x387); (0x483, 0x489); (0x559, 0x559); (0x55F, 0x55F);
   (0x591, 0x5BD); (0x5BF, 0x5BF); (0x5C1, 0x5C2); (0x5C4, 0x5C5);
   (0x5C7, 0x5C7); (0x5F4, 0x5F4); (0x600, 0x605); (0x610, 0x61A);
   (0x61C, 0x61C); (0x640, 0x640); (0x64B, 0x65F); (0x670, 0x670);
   (0x6D6, 0x6DD); (0x6DF, 0x6E8); (0x6EA, 0x6ED); (0x70F, 0x70F);
   (0x711, 0x711); (0x730, 0x74A); (0x7A6, 0x7B0); (0x7EB, 0x7F5);
   (0x7FA, 0x7FA); (0x7FD, 0x7FD); (0x816, 0x82D); (0x859, 0x85B);
   (0x888, 0x888); (0x890, 0x891); (0x898, 0x89F); (0x8C9, 0x902);
   (0x93A, 0x93A); (0x93C, 0x93C); (0x941, 0x948); (0x94D, 0x94D);
   (0x951, 0x957); (0x962, 0x963); (0x971, 0x971); (0x981, 0x981);
   (0x9BC, 0x9BC); (0x9C1, 0x9C4); (0x9CD, 0x9CD); (0x9E2, 0x9E3);
   (0x9FE, 0x9FE); (0xA01, 0xA02); (0xA3C, 0xA3C); (0xA41, 0xA42);
   (0xA47, 0xA48); (0xA4B, 0xA4D); (0xA51, 0xA51); (0xA70, 0xA71);
   (0xA75, 0xA75); (0xA81, 0xA82); (0xABC, 0xABC); (0xAC1, 0xAC5);
   (0xAC7, 0xAC8); (0xACD, 0xACD); (0xAE2, 0xAE3); (0xAFA, 0xAFF);
   (0xB01, 0xB01); (0xB3C, 0xB3C); (0xB3F, 0xB3F); (0xB41, 0xB44);
   (0xB4D, 0xB4D); (0xB55, 0xB56); (0xB62, 0xB63); (0xB82, 0xB82);
   (0xBC0, 0xBC0); (0xBCD, 0xBCD); (0xC00, 0xC00); (0xC04, 0xC04);
   (0xC3C, 0xC3C); (0xC3E, 0xC40); (0xC46, 0xC48); (0xC4A, 0xC4D);
   (0xC55, 0xC56); (0xC62, 0xC63); (0xC81, 0xC81); (0xCBC, 0xCBC);
   (0xCBF, 0xCBF); (0xCC6, 0xCC6); (0xCCC, 0xCCD); (0xCE2, 0xCE3);
   (0xD00, 0xD01); (0xD3B, 0xD3C); (0xD41, 0xD44); (0xD4D, 0xD4D);
   (0xD62, 0xD63); (0xD81, 0xD81); (0xDCA, 0xDCA); (0xDD2, 0xDD4);
   (0xDD6, 0xDD6); (0xE31, 0xE31); (0xE34, 0xE3A); (0xE46, 0xE4E);
   (0xEB1, 0xEB1); (0xEB4, 0xEBC); (0xEC6, 0xEC6); (0xEC8, 0xECD);
   (0xF18, 0xF19); (0xF35, 0xF35); (0xF37, 0xF37); (0xF39, 0xF39);
   (0xF71, 0xF7E); (0xF80, 0xF84); (0xF86, 0xF87); (0xF8D, 0xF97);
   (0xF99, 0xFBC); (0xFC6, 0xFC6); (0x102D, 0x1030); (0x1032, 0x1037);
   (0x1039, 0x103A); (0x103D, 0x103E); (0x1058, 0x1059); (0x105E, 0x1060);
   (0x1071, 0x1074); (0x1082, 0x1082); (0x1085, 0x1086); (0x108D, 0x108D);
   (0x109D, 0x109D); (0x10FC, 0x10FC); (0x135D, 0x135F); (0x1712, 0x1714);
   (0x1732, 0x1733); (0x1752, 0x1753); (0x1772, 0x1773); (0x17B4, 0x17B5);
   (0x17B7, 0x17BD); (0x17C6, 0x17C6); (0x17C9, 0x17D3); (0x17D7, 0x17D7);
   (0x17DD, 0x17DD); (0x180B, 0x180F); (0x1843, 0x1843); (0x1885, 0x1886);
   (0x18A9, 0x18A9); (0x1920, 0x1922); (0x1927, 0x1928); (0x1932, 0x1932);
   (0x1939, 0x193B); (0x1A17, 0x1A18); (0x1A1B, 0x1A1B); (0x1A56, 0x1A56);
   (0x1A58, 0x1A5E); (0x1A60, 0x1A60); (0x1A62, 0x1A62); (0x1A65, 0x1A6C);
   (0x1A73, 0x1A7C); (0x1A7F, 0x1A7F); (0x1AA7, 0x1AA7); (0x1AB0, 0x1ACE);
   (0x1B00, 0x1B03); (0x1B34, 0x1B34); (0x1B36, 0x1B3A); (0x1B3C, 0x1B3C);
   (0x1B42, 0x1B42); (0x1B6B, 0x1B73); (0x1B80, 0x1B81); (0x1BA2, 0x1BA5);
   (0x1BA8, 0x1BA9); (0x1BAB, 0x1BAD); (0x1BE6, 0x1BE6); (0x1BE8, 0x1BE9);
   (0x1BED, 0x1BED); (0x1BEF, 0x1BF1); (0x1C2C, 0x1C33); (0x1C36, 0x1C37);
   (0x1C78, 0x1C7D); (0x1CD0, 0x1CD2); (0x1CD4, 0x1CE0); (0x1CE2, 0x1CE8);
   (0x1CED, 0x1CED); (0x1CF4, 0x1CF4); (0x1CF8, 0x1CF9); (0x1D2C, 0x1D6A);
   (0x1D78, 0x1D78); (0x1D9B, 0x1DFF); (0x1FBD, 0x1FBD); (0x1FBF, 0x1FC1);
   (0x1FCD, 0x1FCF); (0x1FDD, 0x1FDF); (0x1FED, 0x1FEF); (0x1FFD, 0x1FFE);
   (0x200B, 0x200F); (0x2018, 0x2019); (0x2024, 0x2024); (0x2027, 0x2027);
   (0x202A, 0x202E); (0x2060, 0x2064); (0x2066, 0x206F); (0x2071, 0x2071);
   (0x207F, 0x207F); (0x2090, 0x209C); (0x20D0, 0x20F0); (0x2C7C, 0x2C7D);
   (0x2CEF, 0x2CF1); (0x2D6F, 0x2D6F); (0x2D7F, 0x2D7F); (0x2DE0, 0x2DFF);
   (0x2E2F, 0x2E2F); (0x3005, 0x3005); (0x302A, 0x302D); (0x3031, 0x3035);
   (0x303B, 0x303B); (0x3099, 0x309E); (0x30FC, 0x30FE); (0xA015, 0xA015);
   (0xA4F8, 0xA4FD); (0xA60C, 0xA60C); (0xA66F, 0xA672); (0xA674, 0xA67D);
   (0xA67F, 0xA67F); (0xA69C, 0xA69F); (0xA6F0, 0xA6F1); (0xA700, 0xA721);
   (0xA770, 0xA770); (0xA788, 0xA78A); (0xA7F2, 0xA7F4); (0xA7F8, 0xA7F9);
   (0xA802, 0xA802); (0xA806, 0xA806); (0xA80B, 0xA80B); (0xA825, 0xA826);
   (0xA82C, 0xA82C); (0xA8C4, 0xA8C5); (0xA8E0, 0xA8F1); (0xA8FF, 0xA8FF);
   (0xA926, 0xA92D); (0xA947, 0xA951); (0xA980, 0xA982); (0xA9B3, 0xA9B3);
   (0xA9B6, 0xA9B9); (0xA9BC, 0xA9BD); (0xA9CF, 0xA9CF); (0xA9E5, 0xA9E6);
   (0xAA29, 0xAA2E); (0xAA31, 0xAA32); (0xAA35, 0xAA36); (0xAA43, 0xAA43);
   (0xAA4C, 0xAA4C); (0xAA70, 0xAA70); (0xAA7C, 0xAA7C); (0xAAB0, 0xAAB0);
   (0xAAB2, 0xAAB4); (0xAAB7, 0xAAB8); (0xAABE, 0xAABF); (0xAAC1, 0xAAC1);
   (0xAADD, 0xAADD); (0xAAEC, 0xAAED); (0xAAF3, 0xAAF4); (0xAAF6, 0xAAF6);
   (0xAB5B, 0xAB5F); (0xAB69, 0xAB6B); (0xABE5, 0xABE5); (0xABE8, 0xABE8);
   (0xABED, 0xABED); (0xFB1E, 0xFB1E); (0xFBB2, 0xFBC2); (0xFE00, 0xFE0F);
   (0xFE13, 0xFE13); (0xFE20, 0xFE2F); (0xFE52, 0xFE52); (0xFE55, 0xFE55);
   (0xFEFF, 0xFEFF); (0xFF07, 0xFF07); (0xFF0E, 0xFF0E); (0xFF1A, 0xFF1A);
   (0xFF3E, 0xFF3E); (0xFF40, 0xFF40); (0xFF70, 0xFF70); (0xFF9E, 0xFF9F);
   (0xFFE3, 0xFFE3); (0xFFF9, 0xFFFB); (0x101FD, 0x101FD); (0x102E0, 0x102E0);
   (0x10376, 0x1037A); (0x10780, 0x10785); (0x10787, 0x107B0);
   (0x107B2, 0x107BA); (0x10A01, 0x10A03); (0x10A05, 0x10A06);
   (0x10A0C, 0x10A0F); (0x10A38, 0x10A3A); (0x10A3F, 0x10A3F);
   (0x10AE5, 0x10AE6); (0x10D24, 0x10D27); (0x10EAB, 0x10EAC);
   (0x10F46, 0x10F50); (0x10F82, 0x10F85); (0x11001, 0x11001);
   (0x11038, 0x11046); (0x11070, 0x11070); (0x11073, 0x11074);
   (0x1107F, 0x11081); (0x110B3, 0x110B6); (0x110B9, 0x110BA);
   (0x110BD, 0x110BD); (0x110C2, 0x110C2); (0x110CD, 0x110CD);
   (0x11100, 0x11102); (0x11127, 0x1112B); (0x1112D, 0x11134);
   (0x11173, 0x11173); (0x11180, 0x11181); (0x111B6, 0x111BE);
   (0x111C9, 0x111CC); (0x111CF, 0x111CF); (0x1122F, 0x11231);
   (0x11234, 0x11234); (0x11236, 0x11237); (0x1123E, 0x1123E);
   (0x112DF, 0x112DF); (0x112E3, 0x112EA); (0x11300, 0x11301);
   (0x1133B, 0x1133C); (0x11340, 0x11340); (0x11366, 0x1136C);
   (0x11370, 0x11374); (0x11438, 0x1143F); (0x11442, 0x11444);
   (0x11446, 0x11446); (0x1145E, 0x1145E); (0x114B3, 0x114B8);
   (0x114BA, 0x114BA); (0x114BF, 0x114C0); (0x114C2, 0x114C3);
   (0x115B2, 0x115B5); (0x115BC, 0x115BD); (0x115BF, 0x115C0);
   (0x115DC, 0x115DD); (0x11633, 0x1163A); (0x1163D, 0x1163D);
   (0x1163F, 0x11640); (0x116AB, 0x116AB); (0x116AD, 0x116AD);
   (0x116B0, 0x116B5); (0x116B7, 0x116B7); (0x1171D, 0x1171F);
   (0x11722, 0x11725); (0x11727, 0x1172B); (0x1182F, 0x11837);
   (0x11839, 0x1183A); (0x1193B, 0x1193C); (0x1193E, 0x1193E);
   (0x11943, 0x11943); (0x119D4, 0x119D7); (0x119DA, 0x119DB);
   (0x119E0, 0x119E0); (0x11A01, 0x11A0A); (0x11A33, 0x11A38);
   (0x11A3B, 0x11A3E); (0x11A47, 0x11A47); (0x11A51, 0x11A56);
   (0x11A59, 0x11A5B); (0x11A8A, 0x11A96); (0x11A98, 0x11A99);
   (0x11C30, 0x11C36); (0x11C38, 0x11C3D); (0x11C3F, 0x11C3F);
   (0x11C92, 0x11CA7); (0x11CAA, 0x11CB0); (0x11CB2, 0x11CB3);
   (0x11CB5, 0x11CB6); (0x11D31, 0x11D36); (0x11D3A, 0x11D3A);
   (0x11D3C, 0x11D3D); (0x11D3F, 0x11D45); (0x11D47, 0x11D47);
   (0x11D90, 0x11D91); (0x11D95, 0x11D95); (0x11D97, 0x11D97);
   (0x11EF3, 0x11EF4); (0x13430, 0x13438); (0x16AF0, 0x16AF4);
   (0x16B30, 0x16B36); (0x16B40, 0x16B43); (0x16F4F, 0x16F4F);
   (0x16F8F, 0x16F9F); (0x16FE0, 0x16FE1); (0x16FE3, 0x16FE4);
   (0x1AFF0, 0x1AFF3); (0x1AFF5, 0x1AFFB); (0x1AFFD, 0x1AFFE);
   (0x1BC9D, 0x1BC9E); (0x1BCA0, 0x1BCA3); (0x1CF00, 0x1CF2D);
   (0x1CF30, 0x1CF46); (0x1D167, 0x1D169); (0x1D173, 0x1D182);
   (0x1D185, 0x1D18B); (0x1D1AA, 0x1D1AD); (0x1D242, 0x1D244);
   (0x1DA00, 0x1DA36); (0x1DA3B, 0x1DA6C); (0x1DA75, 0x1DA75);
   (0x1DA84, 0x1DA84); (0x1DA9B, 0x1DA9F); (0x1DAA1, 0x1DAAF);
   (0x1E000, 0x1E006); (0x1E008, 0x1E018); (0x1E01B, 0x1E021);
   (0x1E023, 0x1E024); (0x1E026, 0x1E02A); (0x1E130, 0x1E13D);
   (0x1E2AE, 0x1E2AE); (0x1E2EC, 0x1E2EF); (0x1E8D0, 0x1E8D6);
   (0x1E944, 0x1E94B); (0x1F3FB, 0x1F3FF); (0xE0001, 0xE0001);
   (0xE0020, 0xE007F); (0xE0100, 0xE01EF)
  ].

Definition cased_ranges : list (N * N) :=
  [
   (0x41, 0x5A); (0x61, 0x7A); (0xAA, 0xAA); (0xB5, 0xB5); (0xBA, 0xBA);
   (0xC0, 0xD6); (0xD8, 0xF6); (0xF8, 0x1BA); (0x1BC, 0x1BF); (0x1C4, 0x293);
   (0x295, 0x2B8); (0x2C0, 0x2C1); (0x2E0, 0x2E4); (0x345, 0x345);
   (0x370, 0x373); (0x376, 0x377); (0x37A, 0x37D); (0x37F, 0x37F);
   (0x386, 0x386); (0x388, 0x38A); (0x38C, 0x38C); (0x38E, 0x3A1);
   (0x3A3, 0x3F5); (0x3F7, 0x481); (0x48A, 0x52F); (0x531, 0x556);
   (0x560, 0x588); (0x10A0, 0x10C5); (0x10C7, 0x10C7); (0x10CD, 0x10CD);
   (0x10D0, 0x10FA); (0x10FD, 0x10FF); (0x13A0, 0x13F5); (0x13F8, 0x13FD);
   (0x1C80, 0x1C88); (0x1C90, 0x1CBA); (0x1CBD, 0x1CBF); (0x1D00, 0x1DBF);
   (0x1E00, 0x1F15); (0x1F18, 0x1F1D); (0x1F20, 0x1F45); (0x1F48, 0x1F4D);
   (0x1F50, 0x1F57); (0x1F59, 0x1F59); (0x1F5B, 0x1F5B); (0x1F5D, 0x1F5D);
   (0x1F5F, 0x1F7D); (0x1F80, 0x1FB4); (0x1FB6, 0x1FBC); (0x1FBE, 0x1FBE);
   (0x1FC2, 0x1FC4); (0x1FC6, 0x1FCC); (0x1FD0, 0x1FD3); (0x1FD6, 0x1FDB);
   (0x1FE0, 0x1FEC); (0x1FF2, 0x1FF4); (0x1FF6, 0x1FFC); (0x2071, 0x2071);
   (0x207F, 0x207F); (0x2090, 0x209C); (0x2102, 0x2102); (0x2107, 0x2107);
   (0x210A, 0x2113); (0x2115, 0x2115); (0x2119, 0x211D); (0x2124, 0x2124);
   (0x2126, 0x2126); (0x2128, 0x2128); (0x212A, 0x212D); (0x212F, 0x2134);
   (0x2139, 0x2139); (0x213C, 0x213F); (0x2145, 0x2149); (0x214E, 0x214E);
   (0x2160, 0x217F); (0x2183, 0x2184); (0x24B6, 0x24E9); (0x2C00, 0x2CE4);
   (0x2CEB, 0x2CEE); (0x2CF2, 0x2CF3); (0x2D00, 0x2D25); (0x2D27, 0x2D27);
   (0x2D2D, 0x2D2D); (0xA640, 0xA66D); (0xA680, 0xA69D); (0xA722, 0xA787);
   (0xA78B, 0xA78E); (0xA790, 0xA7CA); (0xA7D0, 0xA7D1); (0xA7D3, 0xA7D3);
   (0xA7D5, 0xA7D9); (0xA7F5, 0xA7F6); (0xA7F8, 0xA7FA); (0xAB30, 0xAB5A);
   (0xAB5C, 0xAB68); (0xAB70, 0xABBF); (0xFB00, 0xFB06); (0xFB13, 0xFB17);
   (0xFF21, 0xFF3A); (0xFF41, 0xFF5A); (0x10400, 0x1044F); (0x104B0, 0x104D3);
   (0x104D8, 0x104FB); (0x10570, 0x1057A); (0x1057C, 0x1058A);
   (0x1058C, 0x10592); (0x10594, 0x10595); (0x10597, 0x105A1);
   (0x105A3, 0x105B1); (0x105B3, 0x105B9); (0x105BB, 0x105BC);
   (0x10780, 0x10780); (0x10783, 0x10785); (0x10787, 0x107B0);
   (0x107B2, 0x107BA); (0x10C80, 0x10CB2); (0x10CC0, 0x10CF2);
   (0x118A0, 0x118DF); (0x16E40, 0x16E7F); (0x1D400, 0x1D454);
   (0x1D456, 0x1D49C); (0x1D49E, 0x1D49F); (0x1D4A2, 0x1D4A2);
   (0x1D4A5, 0x1D4A6); (0x1D4A9, 0x1D4AC); (0x1D4AE, 0x1D4B9);
   (0x1D4BB, 0x1D4BB); (0x1D4BD, 0x1D4C3); (0x1D4C5, 0x1D505);
   (0x1D507, 0x1D50A); (0x1D50D, 0x1D514); (0x1D516, 0x1D51C);
   (0x1D51E, 0x1D539); (0x1D53B, 0x1D53E); (0x1D540, 0x1D544);
   (0x1D546, 0x1D546); (0x1D54A, 0x1D550); (0x1D552, 0x1D6A5);
   (0x1D6A8, 0x1D6C0); (0x1D6C2, 0x1D6DA); (0x1D6DC, 0x1D6FA);
   (0x1D6FC, 0x1D714); (0x1D716, 0x1D734); (0x1D736, 0x1D74E);
   (0x1D750, 0x1D76E); (0x1D770, 0x1D788); (0x1D78A, 0x1D7A8);
   (0x1D7AA, 0x1D7C2); (0x1D7C4, 0x1D7CB); (0x1DF00, 0x1DF09);
   (0x1DF0B, 0x1DF1E); (0x1E900, 0x1E943); (0x1F130, 0x1F149);
   (0x1F150, 0x1F169); (0x1F170, 0x1F189)
  ].

Definition in_ranges (ranges : list (N * N)) (c : N) : bool :=
  existsb (fun range => in_range (fst range) (snd range) c) ranges.

Definition Case_Ignorable (c : N) : bool := in_ranges case_ignorable_ranges c.
Definition Cased (c : N) : bool := in_ranges cased_ranges c.

(** The condition [Final_Sigma] of the special casing rules: the capital
    sigma closes a word when, case-ignorable code points skipped, a cased
    letter comes before it and none comes after it. *)
Fixpoint skip_ignorable (cps : list N) : list N :=
  match cps with
  | c :: r => if Case_Ignorable c then skip_ignorable r else cps
  | [] => []
  end.

Definition cased_next (cps : list N) : bool :=
  match skip_ignorable cps with
  | c :: _ => Cased c
  | [] => false
  end.

Definition Final_Sigma (before after : list N) : bool :=
  cased_next before && negb (cased_next after).

(** The lower-case mapping of one code point in its context: [before] holds
    the code points that precede it, the nearest first.  The two rules of
    the special casing table that do not depend on the language come first:
    the capital sigma, and the capital I with dot above, which becomes two
    code points. *)
Definition lower_code_point (before : list N) (c : N) (after : list N) : list N :=
  if c =? 0x3A3 then (if Final_Sigma before after then [0x3C2] else [0x3C3])
  else if c =? 0x130 then [0x69; 0x307]
  else [simple_lower c].

Fixpoint lower_code_points (before cps : list N) : list N :=
  match cps with
  | [] => []
  | c :: after =>
      lower_code_point before c after ++ lower_code_points (c :: before) after
  end.

Definition toLowerCase (s : jsstring) : jsstring :=
  CodePointsToString (lower_code_points [] (StringToCodePoints s)).

(** [ToString] of a value that is a string or [undefined], as [JSON.parse]
    applies it to its argument. *)
Definition ToString (x : option jsstring) : jsstring :=
  match x with
  | Some s => s
  | None => js "undefined"
  end.

(** [s.replace(/\n/g, '<br>')]. *)
Definition replace_newlines (s : jsstring) : jsstring :=
  flat_map (fun c => if c =? 10 then js "<br>" else [c]) s.

(** *** JSON values *)

(** What [JSON.parse] returns.  A number keeps the text it was read from;
    its numeric value is computed where a comparison needs it.  An object
    keeps its members in source order, duplicates included: a property read
    takes the last one. *)
Inductive JSON :=
| JNull
| JBool (b : bool)
| JNumber (lexeme : jsstring)
| JString (s : jsstring)
| JArray (items : list JSON)
| JObject (members : list (jsstring * JSON)).

(** A JavaScript value read from parsed data: [None] is [undefined]. *)
Definition JSValue := option JSON.

(** *** JSON.parse *)

Definition is_json_ws (c : N) : bool :=
  (c =? 9) || (c =? 10) || (c =? 13) || (c =? 32).

Fixpoint skip_ws (s : jsstring) : jsstring :=
  match s with
  | c :: r => if is_json_ws c then skip_ws r else s
  | [] => []
  end.

Definition is_digit (c : N) : bool := in_range 48 57 c.

Definition hex_value (c : N) : option N :=
  if is_digit c then Some (c - 48)
  else if in_range 65 70 c then Some (c - 55)
  else if in_range 97 102 c then Some (c - 87)
  else None.

Definition hex4 (a b c d : N) : option N :=
  match hex_value a, hex_value b, hex_value c, hex_value d with
  | Some x, Some y, Some z, Some w => Some (((x * 16 + y) * 16 + z) * 16 + w)
  | _, _, _, _ => None
  end.

(** The single-character escapes of a JSON string. *)
Definition unescape (e : N) : option N :=
  if e =? 34 then Some 34          (* quotation mark *)
  else if e =? 92 then Some 92     (* reverse solidus *)
  else if e =? 47 then Some 47     (* solidus *)
  else if e =? 98 then Some 8      (* b: backspace *)
  else if e =? 102 then Some 12    (* f: form feed *)
  else if e =? 110 then Some 10    (* n: line feed *)
  else if e =? 114 then Some 13    (* r: carriage return *)
  else if e =? 116 then Some 9     (* t: tab *)
  else None.

Definition cons_fst {A B} (a : A) (r : option (list A * B)) : option (list A * B) :=
  match r with
  | Some (l, b) => Some (a :: l, b)
  | None => None
  end.

(** The characters of a string after its opening quote, up to and including
    the closing quote. *)
Fixpoint parse_chars (s : jsstring) : option (jsstring * jsstring) :=
  match s with
  | [] => None
  | c :: r =>
      if c =? 34 then Some ([], r)
      else if c =? 92 then
        match r with
        | [] => None
        | e :: r1 =>
            if e =? 117 then
              match r1 with
              | h1 :: h2 :: h3 :: h4 :: r2 =>
                  match hex4 h1 h2 h3 h4 with
                  | Some u => cons_fst u (parse_chars r2)
                  | None => None
                  end
              | _ => None
              end
            else
              match unescape e with
              | Some u => cons_fst u (parse_chars r1)
              | None => None
              end
        end
      else if c <? 32 then None
      else cons_fst c (parse_chars r)
  end.

Fixpoint span_digits (s : jsstring) : jsstring * jsstring :=
  match s with
  | c :: r =>
      if is_digit c then let (ds, r') := span_digits r in (c :: ds, r')
      else ([], s)
  | [] => ([], [])
  end.

(** A number token: an optional minus, an integer part without leading
    zero, an optional fraction, an optional exponent.  Each lexer returns the
    text it consumed and what follows it. *)
Definition lex_int (s : jsstring) : option (jsstring * jsstring) :=
  match s with
  | d :: r =>
      if d =? 48 then Some ([48], r)
      else if is_digit d then let (ds, r') := span_digits r in Some (d :: ds, r')
      else None
  | [] => None
  end.

Definition lex_frac (s : jsstring) : option (jsstring * jsstring) :=
  match s with
  | c :: r =>
      if c =? 46 then
        match span_digits r with
        | ([], _) => None
        | (ds, r') => Some (c :: ds, r')
        end
      else Some ([], s)
  | [] => Some ([], s)
  end.

Definition lex_exp (s : jsstring) : option (jsstring * jsstring) :=
  match s with
  | e :: r =>
      if (e =? 101) || (e =? 69) then
        let (sg, r1) :=
          match r with
          | g :: r0 => if (g =? 43) || (g =? 45) then ([g], r0) else ([], r)
          | [] => ([], r)
          end in
        match span_digits r1 with
        | ([], _) => None
        | (ds, r') => Some (e :: sg ++ ds, r')
        end
      else Some ([], s)
  | [] => Some ([], s)
  end.

Definition lex_number (s : jsstring) : option (jsstring * jsstring) :=
  let (sg, s0) :=
    match s with
    | c :: r => if c =? 45 then ([c], r) else ([], s)
    | [] => ([], s)
    end in
  match lex_int s0 with
  | None => None
  | Some (i, s1) =>
      match lex_frac s1 with
      | None => None
      | Some (f, s2) =>
          match lex_exp s2 with
          | None => None
          | Some (e, s3) => Some (sg ++ i ++ f ++ e, s3)
          end
      end
  end.

Definition starts_with (c : N) (s : jsstring) : bool :=
  match s with
  | d :: _ => d =? c
  | [] => false
  end.

Fixpoint strip_prefix (p s : jsstring) : option jsstring :=
  match p, s with
  | [], _ => Some s
  | x :: p', y :: s' => if x =? y then strip_prefix p' s' else None
  | _ :: _, [] => None
  end.

(** The recursive-descent parser.  [fuel] bounds the number of nested calls;
    [parse_elements] and [parse_members] read what follows an opening
    bracket or brace once the empty cases are excluded. *)
Fixpoint parse_value (fuel : nat) (s : jsstring) : option (JSON * jsstring) :=
  match fuel with
  | O => None
  | S fuel' =>
      match skip_ws s with
      | [] => None
      | c :: r =>
          if c =? 34 then
            match parse_chars r with
            | Some (str, r') => Some (JString str, r')
            | None => None
            end
          else if c =? 91 then
            if starts_with 93 (skip_ws r) then Some (JArray [], tl (skip_ws r))
            else
              match parse_elements fuel' r with
              | Some (l, r') => Some (JArray l, r')
              | None => None
              end
          else if c =? 123 then
            if starts_with 125 (skip_ws r) then Some (JObject [], tl (skip_ws r))
            else
              match parse_members fuel' r with
              | Some (l, r') => Some (JObject l, r')
              | None => None
              end
          else if (c =? 45) || is_digit c then
            match lex_number (c :: r) with
            | Some (lx, r') => Some (JNumber lx, r')
            | None => None
            end
          else
            match strip_prefix (js "true") (c :: r) with
            | Some r' => Some (JBool true, r')
            | None =>
                match strip_prefix (js "false") (c :: r) with
                | Some r' => Some (JBool false, r')
                | None =>
                    match strip_prefix (js "null") (c :: r) with
                    | Some r' => Some (JNull, r')
                    | None => None
                    end
                end
            end
      end
  end
with parse_elements (fuel : nat) (s : jsstring) : option (list JSON * jsstring) :=
  match fuel with
  | O => None
  | S fuel' =>
      match parse_value fuel' s with
      | None => None
      | Some (v, r) =>
          match skip_ws r with
          | c :: r' =>
              if c =? 93 then Some ([v], r')
              else if c =? 44 then
                match parse_elements fuel' r' with
                | Some (l, r'') => Some (v :: l, r'')
                | None => None
                end
              else None
          | [] => None
          end
      end
  end
with parse_members (fuel : nat) (s : jsstring)
  : option (list (jsstring * JSON) * jsstring) :=
  match fuel with
  | O => None
  | S fuel' =>
      if starts_with 34 (skip_ws s) then
        match parse_chars (tl (skip_ws s)) with
        | None => None
        | Some (k, r1) =>
            if starts_with 58 (skip_ws r1) then
              match parse_value fuel' (tl (skip_ws r1)) with
              | None => None
              | Some (v, r3) =>
                  match skip_ws r3 with
                  | c :: r4 =>
                      if c =? 125 then Some ([(k, v)], r4)
                      else if c =? 44 then
                        match parse_members fuel' r4 with
                        | Some (l, r5) => Some ((k, v) :: l, r5)
                        | None => None
                        end
                      else None
                  | [] => None
                  end
              end
            else None
        end
      else None
  end.

(** [JSON.parse(text)]: [None] stands for the [SyntaxError] it throws.  Every
    nested call of the parser follows at least one consumed character, except
    the first element of an array, so twice the length bounds the depth: more
    fuel gives the same answer (lemma [JSON_parse_any_fuel] below). *)
Definition JSON_parse (text : jsstring) : option JSON :=
  match parse_value (2 * List.length text + 2) text with
  | Some (v, r) =>
      match skip_ws r with
      | [] => Some v
      | _ :: _ => None
      end
  | None => None
  end.

(** *** JSON.stringify *)

Definition hex_digit (n : N) : N := if n <? 10 then 48 + n else 87 + n.

(** The six-character escape of a code unit below 65536, in lower-case
    hexadecimal as [JSON.stringify] writes it. *)
Definition unicode_escape (c : N) : jsstring :=
  [92; 117; hex_digit (c / 4096); hex_digit ((c / 256) mod 16);
   hex_digit ((c / 16) mod 16); hex_digit (c mod 16)].

Definition escape_unit (c : N) : jsstring :=
  if c =? 8 then [92; 98]
  else if c =? 9 then [92; 116]
  else if c =? 10 then [92; 110]
  else if c =? 12 then [92; 102]
  else if c =? 13 then [92; 114]
  else if c =? 34 then [92; 34]
  else if c =? 92 then [92; 92]
  else if c <? 32 then unicode_escape c
  else [c].

(** [QuoteJSONString] without the surrounding quotes: a surrogate pair is
    copied, a lone surrogate is escaped. *)
Fixpoint quote_units (s : jsstring) : jsstring :=
  match s with
  | [] => []
  | c :: r =>
      if is_high_surrogate c then
        match r with
        | d :: r' =>
            if is_low_surrogate d then c :: d :: quote_units r'
            else unicode_escape c ++ quote_units r
        | [] => unicode_escape c
        end
      else if is_low_surrogate c then unicode_escape c ++ quote_units r
      else escape_unit c ++ quote_units r
  end.

Definition quote (s : jsstring) : jsstring := 34 :: quote_units s ++ [34].

Fixpoint join_comma (l : list jsstring) : jsstring :=
  match l with
  | [] => []
  | [x] => x
  | x :: r => x ++ 44 :: join_comma r
  end.

(** [JSON.stringify(v)] for a value built from parsed data and strings.  It
    is the text JavaScript writes whenever [v] is made of strings, booleans,
    [null] and arrays of these, which covers every value the page stores.  A
    number is written as it was read and the members of an object in the
    order they were read (JavaScript reformats the first and reorders the
    second). *)
Fixpoint JSON_stringify (v : JSON) : jsstring :=
  match v with
  | JNull => js "null"
  | JBool true => js "true"
  | JBool false => js "false"
  | JNumber lx => lx
  | JString s => quote s
  | JArray l => 91 :: join_comma (map JSON_stringify l) ++ [93]
  | JObject m =>
      123 :: join_comma
               (map (fun kv => quote (fst kv) ++ 58 :: JSON_stringify (snd kv)) m)
          ++ [125]
  end.

(** *** Numbers *)

(** The mathematical value of a numeric text before it is rounded to a
    double: not a number, an infinity, or sign, mantissa and decimal
    exponent. *)
Inductive Num :=
| NaN
| Inf (neg : bool)
| Dec (neg : bool) (mant : N) (exp10 : Z).

Definition digits_value (base : N) (ds : jsstring) : N :=
  fold_left (fun acc c => acc * base + match hex_value c with Some d => d | None => 0 end)
            ds 0.

Definition all_digits (base : N) (ds : jsstring) : bool :=
  match ds with
  | [] => false
  | _ => forallb (fun c => match hex_value c with
                           | Some d => d <? base
                           | None => false
                           end) ds
  end.

(** The exponent part of [StrDecimalLiteral]: [None] when what remains is
    not a well-formed exponent (or end of text). *)
Definition str_exponent (r : jsstring) : option Z :=
  match r with
  | [] => Some 0%Z
  | e :: r1 =>
      if (e =? 101) || (e =? 69) then
        let (neg, r2) :=
          match r1 with
          | g :: r0 =>
              if g =? 45 then (true, r0)
              else if g =? 43 then (false, r0)
              else (false, r1)
          | [] => (false, r1)
          end in
        match span_digits r2 with
        | ((_ :: _) as ds, []) =>
            let x := Z.of_N (digits_value 10 ds) in
            Some (if neg then (- x)%Z else x)
        | _ => None
        end
      else None
  end.

Definition str_decimal (neg : bool) (t : jsstring) : Num :=
  if str_eqb t (js "Infinity") then Inf neg
  else
    let (ds1, r1) := span_digits t in
    let '(dot, ds2, r2) :=
      if starts_with 46 r1
      then let (ds, r) := span_digits (tl r1) in (true, ds, r)
      else (false, [], r1) in
    match ds1 ++ ds2 with
    | [] => NaN
    | ds =>
        match str_exponent r2 with
        | Some x => Dec neg (digits_value 10 ds) (x - Z.of_nat (List.length ds2))
        | None => NaN
        end
    end.

(** [StringToNumber]: white space stripped at both ends, the empty text is
    zero, then a hexadecimal, octal or binary integer, or a signed decimal
    literal or [Infinity]. *)
Definition StringToNumber (s : jsstring) : Num :=
  match trim s with
  | [] => Dec false 0 0
  | c :: r =>
      let radix (b : N) (ds : jsstring) :=
        if all_digits b ds then Dec false (digits_value b ds) 0 else NaN in
      if (c =? 48) && (starts_with 120 r || starts_with 88 r) then radix 16 (tl r)
      else if (c =? 48) && (starts_with 111 r || starts_with 79 r) then radix 8 (tl r)
      else if (c =? 48) && (starts_with 98 r || starts_with 66 r) then radix 2 (tl r)
      else if c =? 45 then str_decimal true r
      else if c =? 43 then str_decimal false r
      else str_decimal false (c :: r)
  end.

(** Rounding to the nearest double, ties to even: a positive decimal
    [m * 10^e] rounds to a double above 0 exactly when it exceeds half the
    least subnormal, [2^-1075], and to a double above 1 exactly when it
    exceeds [1 + 2^-53]. *)
Definition rounds_above_zero (m : N) (e : Z) : bool :=
  if (0 <=? e)%Z then 0 <? m
  else (10 ^ (- e) <? Z.of_N m * 2 ^ 1075)%Z.

Definition rounds_above_one (m : N) (e : Z) : bool :=
  if (0 <=? e)%Z then (1 <? Z.of_N m * 10 ^ e)%Z
  else ((2 ^ 53 + 1) * 10 ^ (- e) <? Z.of_N m * 2 ^ 53)%Z.

(** [x > n] for [n] equal to 0 or 1, the two bounds the page compares a
    length with. *)
Definition num_gt (x : Num) (n : N) : bool :=
  match x with
  | NaN => false
  | Inf neg => negb neg
  | Dec true _ _ => false
  | Dec false m e => if n =? 0 then rounds_above_zero m e else rounds_above_one m e
  end.

Definition num_is_zero (x : Num) : bool :=
  match x with
  | Dec _ m e => negb (rounds_above_zero m e)
  | _ => false
  end.

(** *** Reading parsed data *)

Fixpoint lookup_last (key : jsstring) (m : list (jsstring * JSON)) : JSValue :=
  match m with
  | [] => None
  | (k, v) :: r =>
      match lookup_last key r with
      | Some w => Some w
      | None => if str_eqb k key then Some v else None
      end
  end.

(** [v.key] for a key that is not a built-in property of strings, arrays,
    numbers or booleans (the eight field names of the entry are such keys).
    [None] is the [TypeError] of reading a property of [null]. *)
Definition get_field (v : JSON) (key : jsstring) : option JSValue :=
  match v with
  | JNull => None
  | JObject m => Some (lookup_last key m)
  | _ => Some None
  end.

(** [ToBoolean]. *)
Definition truthy (x : JSValue) : bool :=
  match x with
  | None => false
  | Some JNull => false
  | Some (JBool b) => b
  | Some (JNumber lx) => negb (num_is_zero (StringToNumber lx))
  | Some (JString s) => negb (str_eqb s [])
  | Some (JArray _) | Some (JObject _) => true
  end.

(** [ToString(v)] completes normally.  On an object it runs [toString], which
    a member of that name hides behind a value that cannot be called; on an
    array it joins the elements, converting each. *)
Fixpoint to_string_ok (v : JSON) : bool :=
  match v with
  | JObject m =>
      match lookup_last (js "toString") m with
      | Some _ => false
      | None => true
      end
  | JArray l => forallb to_string_ok l
  | _ => true
  end.

(** [ToNumber(ToString(v)) > n]: the text of a one-element array is the text
    of its element, a longer array has a comma in its text, and the texts of
    [null], booleans and objects are no numbers. *)
Fixpoint text_gt (n : N) (v : JSON) : bool :=
  match v with
  | JNumber lx => num_gt (StringToNumber lx) n
  | JString s => num_gt (StringToNumber s) n
  | JArray [x] => text_gt n x
  | _ => false
  end.

(** [v > n] on a parsed value, for [n] equal to 0 or 1; [None] when the
    conversion to a primitive throws. *)
Definition value_gt (v : JSON) (n : N) : option bool :=
  if to_string_ok v then
    Some match v with
         | JNull => false
         | JBool b => b && (n =? 0)
         | JObject _ => false
         | _ => text_gt n v
         end
  else None.

(** [v.length > n] for a value [v] other than [null] and [undefined]. *)
Definition length_gt (v : JSON) (n : N) : option bool :=
  match v with
  | JArray l => Some (n <? N.of_nat (List.length l))
  | JString s => Some (n <? N.of_nat (List.length s))
  | JObject m =>
      match lookup_last (js "length") m with
      | Some lv => value_gt lv n
      | None => Some false
      end
  | _ => Some false
  end.

(** [v.length === 0] for a value [v] other than [null] and [undefined]. *)
Definition length_is_zero (v : JSON) : bool :=
  match v with
  | JArray l => match l with [] => true | _ => false end
  | JString s => match s with [] => true | _ => false end
  | JObject m =>
      match lookup_last (js "length") m with
      | Some (JNumber lx) => num_is_zero (StringToNumber lx)
      | _ => false
      end
  | _ => false
  end.

(** [a !== b] for a parsed value and a string. *)
Definition strict_neq_string (a : JSON) (b : jsstring) : bool :=
  match a with
  | JString s => negb (str_eqb s b)
  | _ => true
  end.

End JS.

(* ===================================================================== *)
(** ** The page: state and shared functions *)
(* ===================================================================== *)

Module Page.

Import JS.
Local Open Scope N_scope.

(** *** What the results container shows *)

(** The entry of structured mode: the values the template of
    [src/index.tsx] interpolates, slot by slot.  A block the template leaves
    out is [None]. *)
Record EntryView := {
  ev_heading : jsstring;
  ev_compliment : JSValue;
  ev_definition : JSValue;
  ev_firstExample : option JSValue;
  ev_detailsHidden : bool;
  ev_pronunciation : JSValue;
  ev_partOfSpeech : JSValue;
  ev_synonyms : option (list JSON);
  ev_antonyms : option (list JSON);
  ev_etymology : JSValue;
  ev_moreExamples : option (list JSON)
}.

(** One item of the Sources list of grounded-text mode: the link target and
    the link text ([None] is [undefined], printed as such). *)
Record SourceLink := {
  sl_href : option jsstring;
  sl_text : option jsstring
}.

Record GroundedView := {
  gv_heading : jsstring;
  gv_definition : jsstring;
  gv_sources : option (list SourceLink)
}.

(** [resultsContainer.innerHTML]: empty, or one of the two templates. *)
Inductive Results :=
| NoResults
| Entry (v : EntryView)
| Grounded (v : GroundedView).

(** *** The language service *)

Inductive RequestConfig :=
| JsonSchema (required : list jsstring)
| GoogleSearch.

(** An argument of [ai.models.generateContent]. *)
Record Request := {
  rq_model : jsstring;
  rq_contents : jsstring;
  rq_config : RequestConfig
}.

Record WebSource := {
  uri : option jsstring;
  title : option jsstring
}.

Record Chunk := { web : option WebSource }.

(** What the page reads of a reply: [response.text], which is [undefined]
    when the reply has no text part, and, in grounded-text mode, the
    grounding chunks of the first candidate when there are any. *)
Record Response := {
  text : option jsstring;
  groundingChunks : option (list Chunk)
}.

(** How the awaited call settles. *)
Inductive Settlement :=
| Fulfilled (response : Response)
| Rejected.

(** *** The state *)

Record DOM := {
  resultsContainer : Results;
  loader_hidden : bool;
  errorContainer_text : jsstring;
  errorContainer_hidden : bool;
  wordOfTheDaySection_hidden : bool;
  historySection_hidden : bool;
  historyList : list JSON;
  searchInput_value : jsstring
}.

(** [localStorage] is the value stored under [HISTORY_KEY] ([None] when
    [getItem] returns [null]); [ai] tells whether the client was constructed
    at start-up; [requests] lists the service calls made, latest first. *)
Record World := {
  dom : DOM;
  localStorage : option jsstring;
  ai : bool;
  requests : list Request
}.

Definition with_dom (f : DOM -> DOM) (w : World) : World :=
  {| dom := f (dom w); localStorage := localStorage w; ai := ai w;
     requests := requests w |}.

Definition set_resultsContainer (r : Results) (d : DOM) : DOM :=
  {| resultsContainer := r; loader_hidden := loader_hidden d;
     errorContainer_text := errorContainer_text d;
     errorContainer_hidden := errorContainer_hidden d;
     wordOfTheDaySection_hidden := wordOfTheDaySection_hidden d;
     historySection_hidden := historySection_hidden d;
     historyList := historyList d; searchInput_value := searchInput_value d |}.

Definition set_loader_hidden (b : bool) (d : DOM) : DOM :=
  {| resultsContainer := resultsContainer d; loader_hidden := b;
     errorContainer_text := errorContainer_text d;
     errorContainer_hidden := errorContainer_hidden d;
     wordOfTheDaySection_hidden := wordOfTheDaySection_hidden d;
     historySection_hidden := historySection_hidden d;
     historyList := historyList d; searchInput_value := searchInput_value d |}.

Definition set_errorContainer_text (s : jsstring) (d : DOM) : DOM :=
  {| resultsContainer := resultsContainer d; loader_hidden := loader_hidden d;
     errorContainer_text := s;
     errorContainer_hidden := errorContainer_hidden d;
     wordOfTheDaySection_hidden := wordOfTheDaySection_hidden d;
     historySection_hidden := historySection_hidden d;
     historyList := historyList d; searchInput_value := searchInput_value d |}.

Definition set_errorContainer_hidden (b : bool) (d : DOM) : DOM :=
  {| resultsContainer := resultsContainer d; loader_hidden := loader_hidden d;
     errorContainer_text := errorContainer_text d;
     errorContainer_hidden := b;
     wordOfTheDaySection_hidden := wordOfTheDaySection_hidden d;
     historySection_hidden := historySection_hidden d;
     historyList := historyList d; searchInput_value := searchInput_value d |}.

Definition set_wordOfTheDaySection_hidden (b : bool) (d : DOM) : DOM :=
  {| resultsContainer := resultsContainer d; loader_hidden := loader_hidden d;
     errorContainer_text := errorContainer_text d;
     errorContainer_hidden := errorContainer_hidden d;
     wordOfTheDaySection_hidden := b;
     historySection_hidden := historySection_hidden d;
     historyList := historyList d; searchInput_value := searchInput_value d |}.

Definition set_historySection_hidden (b : bool) (d : DOM) : DOM :=
  {| resultsContainer := resultsContainer d; loader_hidden := loader_hidden d;
     errorContainer_text := errorContainer_text d;
     errorContainer_hidden := errorContainer_hidden d;
     wordOfTheDaySection_hidden := wordOfTheDaySection_hidden d;
     historySection_hidden := b;
     historyList := historyList d; searchInput_value := searchInput_value d |}.

Definition set_historyList (l : list JSON) (d : DOM) : DOM :=
  {| resultsContainer := resultsContainer d; loader_hidden := loader_hidden d;
     errorContainer_text := errorContainer_text d;
     errorContainer_hidden := errorContainer_hidden d;
     wordOfTheDaySection_hidden := wordOfTheDaySection_hidden d;
     historySection_hidden := historySection_hidden d;
     historyList := l; searchInput_value := searchInput_value d |}.

Definition set_searchInput_value (s : jsstring) (d : DOM) : DOM :=
  {| resultsContainer := resultsContainer d; loader_hidden := loader_hidden d;
     errorContainer_text := errorContainer_text d;
     errorContainer_hidden := errorContainer_hidden d;
     wordOfTheDaySection_hidden := wordOfTheDaySection_hidden d;
     historySection_hidden := historySection_hidden d;
     historyList := historyList d; searchInput_value := s |}.

(** A page on which no lookup was made yet: nothing shown, loader and
    banner hidden, nothing stored. *)
Definition fresh_dom : DOM :=
  {| resultsContainer := NoResults; loader_hidden := true;
     errorContainer_text := []; errorContainer_hidden := true;
     wordOfTheDaySection_hidden := false; historySection_hidden := true;
     historyList := []; searchInput_value := [] |}.

Definition fresh (client : bool) (stored : option jsstring) : World :=
  {| dom := fresh_dom; localStorage := stored; ai := client; requests := [] |}.

(** *** Statements: state and exceptions *)

(** A statement either completes with a value or throws; what it did to the
    page before throwing stays done. *)
Inductive Completion (A : Type) :=
| Normal (a : A)
| Throw.

Arguments Normal {A} a.
Arguments Throw {A}.

Definition M (A : Type) : Type := World -> Completion A * World.

Definition ret {A} (a : A) : M A := fun w => (Normal a, w).

Definition throw {A} : M A := fun w => (Throw, w).

Definition bind {A B} (c : M A) (k : A -> M B) : M B :=
  fun w =>
    match c w with
    | (Normal a, w') => k a w'
    | (Throw, w') => (Throw, w')
    end.

Definition update (f : World -> World) : M unit := fun w => (Normal tt, f w).

Definition read {A} (f : World -> A) : M A := fun w => (Normal (f w), w).

(** [try { body } catch { handler } finally { cleanup }], for a handler and
    a cleanup that do not throw. *)
Definition try_catch_finally (body handler cleanup : M unit) : M unit :=
  fun w =>
    match body w with
    | (Normal _, w') => cleanup w'
    | (Throw, w') => bind handler (fun _ => cleanup) w'
    end.

(** A value computed without touching the page, or the exception thrown
    while computing it. *)
Definition lift {A} (o : option A) : M A :=
  match o with
  | Some a => ret a
  | None => throw
  end.

Declare Scope page_scope.
Delimit Scope page_scope with page.
Notation "x <- c ;; k" := (bind c (fun x => k))
  (at level 61, c at next level, right associativity) : page_scope.
Notation "c ;; k" := (bind c (fun _ => k))
  (at level 61, right associativity) : page_scope.
Local Open Scope page_scope.

Definition exec {A} (c : M A) (w : World) : World := snd (c w).

(** *** Functions the two versions share *)

Definition showLoading (isLoading : bool) : M unit :=
  update (with_dom (set_loader_hidden (negb isLoading))).

Definition clearResults : M unit :=
  update (with_dom (set_resultsContainer NoResults)) ;;
  update (with_dom (set_errorContainer_hidden true)).

Definition getItem : M (option jsstring) := read localStorage.

(** Writing to the storage slot; the write itself is taken to succeed. *)
Definition setItem (value : jsstring) : M unit :=
  update (fun w => {| dom := dom w; localStorage := Some value; ai := ai w;
                      requests := requests w |}).

(** [localStorage.getItem(HISTORY_KEY) || '[]']: the default replaces
    [null] and the empty string. *)
Definition stored_or_default (raw : option jsstring) : jsstring :=
  match raw with
  | Some ((_ :: _) as s) => s
  | _ => js "[]"
  end.

(** [JSON.parse(localStorage.getItem(HISTORY_KEY) || '[]')], the first
    statement of [renderHistory] and the second of [updateHistory]. *)
Definition load : M JSON :=
  raw <- getItem ;;
  lift (JSON_parse (stored_or_default raw)).

(** The body of [history.forEach]: a button per item, labelled with the
    item.  A button is kept as the item it shows; labelling converts the
    item to a string, which can throw. *)
Fixpoint appendItems (items : list JSON) : M unit :=
  match items with
  | [] => ret tt
  | word :: rest =>
      if to_string_ok word then
        update (with_dom (fun d => set_historyList (historyList d ++ [word]) d)) ;;
        appendItems rest
      else throw
  end.

Definition renderHistory : M unit :=
  history <- load ;;
  match history with
  | JNull => throw
  | _ =>
      if length_is_zero history then
        update (with_dom (set_historySection_hidden true))
      else
        update (with_dom (set_historySection_hidden false)) ;;
        update (with_dom (set_historyList [])) ;;
        match history with
        | JArray items => appendItems items
        | _ => throw
        end
  end.

Definition updateHistory (word : jsstring) : M unit :=
  let normalizedWord := toLowerCase word in
  history <- load ;;
  match history with
  | JArray items =>
      let history1 :=
        filter (fun item => strict_neq_string item normalizedWord) items in
      let history2 := JString normalizedWord :: history1 in
      let history3 :=
        if (5 <? List.length history2)%nat then firstn 5 history2 else history2 in
      setItem (JSON_stringify (JArray history3)) ;;
      renderHistory
  | _ => throw
  end.

(** *** The event loop *)

(** The submit handler is an [async] function with one [await].  [submit]
    is what runs when the form is submitted, up to the service call; it
    returns the word the suspended handler holds, or [None] when the handler
    returned early.  [resume] is what runs when that call settles. *)
Section EventLoop.

Variable submit : M (option jsstring).
Variable resume : jsstring -> Settlement -> M unit.

(** The handlers suspended at their [await], each under the number of its
    service call and holding its [word]. *)
Record System := {
  world : World;
  suspended : list (nat * jsstring);
  calls : nat
}.

Inductive Event :=
| Submit (typed : jsstring)
| Settle (call : nat) (s : Settlement).

Fixpoint take_call (call : nat) (l : list (nat * jsstring))
  : option (jsstring * list (nat * jsstring)) :=
  match l with
  | [] => None
  | (c, word) :: r =>
      if Nat.eqb c call then Some (word, r)
      else
        match take_call call r with
        | Some (x, r') => Some (x, (c, word) :: r')
        | None => None
        end
  end.

Definition step (sys : System) (e : Event) : System :=
  match e with
  | Submit typed =>
      let w0 := with_dom (set_searchInput_value typed) (world sys) in
      match submit w0 with
      | (Normal (Some word), w1) =>
          {| world := w1; suspended := suspended sys ++ [(calls sys, word)];
             calls := S (calls sys) |}
      | (_, w1) =>
          {| world := w1; suspended := suspended sys; calls := calls sys |}
      end
  | Settle call s =>
      match take_call call (suspended sys) with
      | Some (word, rest) =>
          {| world := exec (resume word s) (world sys); suspended := rest;
             calls := calls sys |}
      | None => sys
      end
  end.

Definition run (sys : System) (events : list Event) : System :=
  fold_left step events sys.

End EventLoop.

End Page.

(* ===================================================================== *)
(** ** Structured mode: [src/index.tsx] *)
(* ===================================================================== *)

Module Structured.

Import JS Page.
Local Open Scope N_scope.
Local Open Scope page_scope.

Definition showError (message : jsstring) : M unit :=
  update (with_dom (set_resultsContainer NoResults)) ;;
  update (with_dom (set_errorContainer_text message)) ;;
  update (with_dom (set_errorContainer_hidden false)) ;;
  update (with_dom (set_wordOfTheDaySection_hidden false)).

Definition msg_empty : jsstring := js "Please enter a word.".
Definition msg_uninitialized : jsstring := js "Gemini API is not initialized.".
Definition msg_failed : jsstring :=
  js "An error occurred while fetching the definition. The word might be too obscure or there was a network issue. Please try again.".

Definition prompt (word : jsstring) : jsstring :=
  js "You are a helpful and creative dictionary. For the word '" ++ word
  ++ js "', provide a comprehensive entry in a JSON format. The JSON object should include: a creative compliment using the word, pronunciation (IPA), part of speech, a clear definition, an array of synonyms, an array of antonyms, the etymology, and an array of at least two example sentences.".

Definition required_fields : list jsstring :=
  [js "compliment"; js "pronunciation"; js "partOfSpeech"; js "definition";
   js "synonyms"; js "antonyms"; js "etymology"; js "exampleSentences"].

Definition request (word : jsstring) : Request :=
  {| rq_model := js "gemini-2.5-flash"; rq_contents := prompt word;
     rq_config := JsonSchema required_fields |}.

(** [ai.models.generateContent(...)]: the call is sent and the handler
    suspends on its promise. *)
Definition generateContent (rq : Request) : M unit :=
  update (fun w => {| dom := dom w; localStorage := localStorage w; ai := ai w;
                      requests := rq :: requests w |}).

(** The handler up to its [await]. *)
Definition submit : M (option jsstring) :=
  value <- read (fun w => searchInput_value (dom w)) ;;
  let word := trim value in
  match word with
  | [] => showError msg_empty ;; ret None
  | _ :: _ =>
      initialized <- read ai ;;
      if negb initialized then showError msg_uninitialized ;; ret None
      else
        update (with_dom (set_wordOfTheDaySection_hidden true)) ;;
        showLoading true ;;
        clearResults ;;
        generateContent (request word) ;;
        ret (Some word)
  end.

(** *** The template *)

Notation "'have' x ':=' c 'in' k" :=
  (match c with Some x => k | None => None end)
  (at level 10, x name, c at level 100, k at level 200, only parsing).

(** A value interpolated into the template is converted to a string. *)
Definition interpolate (x : JSValue) : option JSValue :=
  match x with
  | Some v => if to_string_ok v then Some x else None
  | None => Some None
  end.

Definition slot (data : JSON) (key : string) : option JSValue :=
  have x := get_field data (js key) in interpolate x.

(** [x && x.length > n]. *)
Definition longer_than (x : JSValue) (n : N) : option bool :=
  match x with
  | Some v => if truthy x then length_gt v n else Some false
  | None => Some false
  end.

(** [x[0]] where [x.length > 0] held. *)
Definition first_item (v : JSON) : JSValue :=
  match v with
  | JArray l => hd_error l
  | JString s => match s with c :: _ => Some (JString [c]) | [] => None end
  | JObject m => lookup_last (js "0") m
  | _ => None
  end.

(** [x.map(item => `...${item}...`).join('')]: only an array has [map], and
    each item is converted to a string. *)
Definition map_items (v : JSON) : option (list JSON) :=
  match v with
  | JArray l => if forallb to_string_ok l then Some l else None
  | _ => None
  end.

(** [x.slice(1).map(...)]: a string has [slice] but its result has no
    [map]. *)
Definition slice1_map_items (v : JSON) : option (list JSON) :=
  match v with
  | JArray l => map_items (JArray (tl l))
  | _ => None
  end.

(** A block guarded by [x && x.length > n ? ... : '']. *)
Definition guarded {A} (x : JSValue) (n : N) (block : JSON -> option A)
  : option (option A) :=
  have shown := longer_than x n in
  match x, shown with
  | Some v, true => have b := block v in Some (Some b)
  | _, _ => Some None
  end.

(** The template literal assigned to [resultsContainer.innerHTML], its
    substitutions evaluated in source order; [None] when one of them
    throws. *)
Definition render (word : jsstring) (data : JSON) : option EntryView :=
  have compliment := slot data "compliment" in
  have definition := slot data "definition" in
  have examples := get_field data (js "exampleSentences") in
  have firstExample := guarded examples 0 (fun v => interpolate (first_item v)) in
  have pronunciation := slot data "pronunciation" in
  have partOfSpeech := slot data "partOfSpeech" in
  have synonyms := get_field data (js "synonyms") in
  have synonymSpans := guarded synonyms 0 map_items in
  have antonyms := get_field data (js "antonyms") in
  have antonymSpans := guarded antonyms 0 map_items in
  have etymology := slot data "etymology" in
  have moreExamples := guarded examples 1 slice1_map_items in
  Some {| ev_heading := word;
          ev_compliment := compliment;
          ev_definition := definition;
          ev_firstExample := firstExample;
          ev_detailsHidden := true;
          ev_pronunciation := pronunciation;
          ev_partOfSpeech := partOfSpeech;
          ev_synonyms := synonymSpans;
          ev_antonyms := antonymSpans;
          ev_etymology := etymology;
          ev_moreExamples := moreExamples |}.

(** The [try] block after the [await]. *)
Definition on_response (word : jsstring) (response : Response) : M unit :=
  updateHistory word ;;
  data <- lift (JSON_parse (ToString (text response))) ;;
  view <- lift (render word data) ;;
  update (with_dom (set_resultsContainer (Entry view))).

(** The handler from its [await] on: the rejection of the call and every
    exception of the [try] block end in the [catch] block. *)
Definition resume (word : jsstring) (s : Settlement) : M unit :=
  try_catch_finally
    match s with
    | Fulfilled response => on_response word response
    | Rejected => throw
    end
    (showError msg_failed)
    (showLoading false).

Definition step := Page.step submit resume.
Definition run := Page.run submit resume.

End Structured.

(* ===================================================================== *)
(** ** Grounded-text mode: [src/unnamed/part_000] *)
(* ===================================================================== *)

Module Grounded.

Import JS Page.
Local Open Scope N_scope.
Local Open Scope page_scope.

(** This version has no handle on the word-of-the-day section. *)
Definition showError (message : jsstring) : M unit :=
  update (with_dom (set_resultsContainer NoResults)) ;;
  update (with_dom (set_errorContainer_text message)) ;;
  update (with_dom (set_errorContainer_hidden false)).

Definition msg_empty : jsstring := js "Please enter a word.".
Definition msg_uninitialized : jsstring := js "Gemini API is not initialized.".
Definition msg_failed : jsstring :=
  js "An error occurred while fetching the definition. Please try again.".

Definition prompt (word : jsstring) : jsstring :=
  js "You are a helpful dictionary. Provide a comprehensive entry for the word '" ++ word
  ++ js "'. Include the following sections, clearly labeled with bold headings: 'Pronunciation' (using IPA phonetic transcription), 'Definition', 'Etymology', and 'Example Sentences'. Provide at least two example sentences.".

Definition request (word : jsstring) : Request :=
  {| rq_model := js "gemini-2.5-flash"; rq_contents := prompt word;
     rq_config := GoogleSearch |}.

Definition generateContent (rq : Request) : M unit :=
  update (fun w => {| dom := dom w; localStorage := localStorage w; ai := ai w;
                      requests := rq :: requests w |}).

Definition submit : M (option jsstring) :=
  value <- read (fun w => searchInput_value (dom w)) ;;
  let word := trim value in
  match word with
  | [] => showError msg_empty ;; ret None
  | _ :: _ =>
      initialized <- read ai ;;
      if negb initialized then showError msg_uninitialized ;; ret None
      else
        showLoading true ;;
        clearResults ;;
        generateContent (request word) ;;
        ret (Some word)
  end.

(** *** The sources list *)

Definition uri_eqb (a b : option jsstring) : bool :=
  match a, b with
  | Some x, Some y => str_eqb x y
  | None, None => true
  | _, _ => false
  end.

(** [seenUris.has(u)]. *)
Definition has (seenUris : list (option jsstring)) (u : option jsstring) : bool :=
  existsb (uri_eqb u) seenUris.

(** [web.title || web.uri]. *)
Definition link_text (w : WebSource) : option jsstring :=
  match title w with
  | Some (_ :: _) => title w
  | _ => uri w
  end.

Definition link (w : WebSource) : SourceLink :=
  {| sl_href := uri w; sl_text := link_text w |}.

(** The [for] loop over the grounding chunks, with its set of URIs seen. *)
Fixpoint collect (chunks : list Chunk) (seenUris : list (option jsstring))
  : list SourceLink :=
  match chunks with
  | [] => []
  | chunk :: rest =>
      match web chunk with
      | Some w =>
          if negb (has seenUris (uri w))
          then link w :: collect rest (uri w :: seenUris)
          else collect rest seenUris
      | None => collect rest seenUris
      end
  end.

(** [sourcesHtml]: empty unless there is at least one chunk. *)
Definition sources (groundingChunks : option (list Chunk)) : option (list SourceLink) :=
  match groundingChunks with
  | Some ((_ :: _) as chunks) => Some (collect chunks [])
  | _ => None
  end.

(** What is assigned to [resultsContainer.innerHTML]; [None] when
    [response.text.replace] throws because the reply has no text. *)
Definition render (word : jsstring) (response : Response) : option GroundedView :=
  match text response with
  | Some t =>
      Some {| gv_heading := word;
              gv_definition := replace_newlines t;
              gv_sources := sources (groundingChunks response) |}
  | None => None
  end.

(** The [try] block after the [await]. *)
Definition on_response (word : jsstring) (response : Response) : M unit :=
  updateHistory word ;;
  view <- lift (render word response) ;;
  update (with_dom (set_resultsContainer (Grounded view))).

Definition resume (word : jsstring) (s : Settlement) : M unit :=
  try_catch_finally
    match s with
    | Fulfilled response => on_response word response
    | Rejected => throw
    end
    (showError msg_failed)
    (showLoading false).

Definition step := Page.step submit resume.
Definition run := Page.run submit resume.

End Grounded.

(* ===================================================================== *)
(** ** Notions the properties are stated with *)
(* ===================================================================== *)

Module Notions.

Import JS Page.

(** The JSON array of a sequence of strings. *)
Definition strings (l : list jsstring) : JSON := JArray (map JString l).

(** The stores the page reaches: nothing stored at first, then whatever
    [updateHistory] leaves behind. *)
Inductive reachable : option jsstring -> Prop :=
| reach_empty : reachable None
| reach_record (w : World) (word : jsstring) :
    reachable (localStorage w) ->
    reachable (localStorage (exec (updateHistory word) w)).

(** No two entries are equal up to case. *)
Definition distinct_up_to_case (l : list jsstring) : Prop :=
  NoDup (map toLowerCase l).

(** What [updateHistory] does to a history of strings: lower-case the word,
    drop its earlier occurrence, put it in front, keep five. *)
Definition record (word : jsstring) (l : list jsstring) : list jsstring :=
  let normalizedWord := toLowerCase word in
  firstn 5 (normalizedWord :: filter (fun item => negb (str_eqb item normalizedWord)) l).

(** What a store holds, read as a sequence of strings. *)
Definition holds (stored : option jsstring) (l : list jsstring) : Prop :=
  (stored = None /\ l = []) \/ stored = Some (JSON_stringify (strings l)).

Definition lower_case (s : jsstring) : Prop := toLowerCase s = s.

(** The web sources among the grounding chunks, in order. *)
Definition web_sources (chunks : list Chunk) : list WebSource :=
  flat_map (fun c => match web c with Some w => [w] | None => [] end) chunks.

(** Deduplication by URI that keeps the first occurrence, as the
    specification words it: an element stays and every later element with
    its URI goes. *)
Fixpoint dedup_by_uri_spec (l : list WebSource) : list WebSource :=
  match l with
  | [] => []
  | x :: r =>
      x :: filter (fun y => negb (Grounded.uri_eqb (uri y) (uri x)))
                  (dedup_by_uri_spec r)
  end.

(** The lines of a text, cut at its line feeds, and the lines put together
    again with a line break element between them. *)
Fixpoint lines (t : jsstring) : list jsstring :=
  match t with
  | [] => [[]]
  | c :: r =>
      if N.eqb c 10 then [] :: lines r
      else
        match lines r with
        | first :: others => (c :: first) :: others
        | [] => [[c]]
        end
  end.

Fixpoint join_br (ls : list jsstring) : jsstring :=
  match ls with
  | [] => []
  | [l] => l
  | l :: others => l ++ js "<br>" ++ join_br others
  end.

(** *** Case conversion *)

Definition is_surrogate (c : N) : bool := is_high_surrogate c || is_low_surrogate c.

(** The pairs of a run of the lower-case table, written out. *)
Definition expand_run (run : N * N * N * N) : list (N * N) :=
  let '(first, last, step, target) := run in
  map (fun k => (first + N.of_nat k * step, target + N.of_nat k * step)%N)
      (seq 0 (S (N.to_nat ((last - first) / step)%N))).

Definition lower_pairs : list (N * N) := flat_map expand_run lower_runs.

(** A code point that lower-casing leaves alone, whatever surrounds it. *)
Definition is_fixed (c : N) : bool :=
  negb (c =? 0x3A3)%N && negb (c =? 0x130)%N
  && match find (in_run c) lower_runs with Some _ => false | None => true end.

(** Neither white space nor half of a surrogate pair. *)
Definition is_plain (c : N) : bool := negb (is_space c) && negb (is_surrogate c).

(** What the lower-case table is checked for: it maps letters to letters
    that it maps no further. *)
Definition sound_pair (p : N * N) : bool :=
  is_plain (fst p) && is_plain (snd p) && is_fixed (snd p).

Definition sound_run (run : N * N * N * N) : bool :=
  let '(first, last, step, _) := run in (0 <? step)%N && (first <=? last)%N.

(** No high surrogate stands before a low surrogate. *)
Fixpoint pair_free (cps : list N) : bool :=
  match cps with
  | c :: r =>
      negb (is_high_surrogate c && match r with d :: _ => is_low_surrogate d | [] => false end)
      && pair_free r
  | [] => true
  end.

Definition head_is_low (cps : list N) : bool :=
  match cps with d :: _ => is_low_surrogate d | [] => false end.

Definition head_is_space (s : jsstring) : bool :=
  match s with c :: _ => is_space c | [] => false end.

(** The heading of what the results container shows, if it shows an entry. *)
Definition heading (w : World) : option jsstring :=
  match resultsContainer (dom w) with
  | NoResults => None
  | Entry v => Some (ev_heading v)
  | Grounded v => Some (gv_heading v)
  end.

(** The error banner is up with the given message and no result is shown. *)
Definition in_error (message : jsstring) (w : World) : Prop :=
  resultsContainer (dom w) = NoResults
  /\ errorContainer_text (dom w) = message
  /\ errorContainer_hidden (dom w) = false.

(** The parts of the page [updateHistory] and [renderHistory] leave alone. *)
Definition same_outside_history (w w' : World) : Prop :=
  resultsContainer (dom w') = resultsContainer (dom w)
  /\ loader_hidden (dom w') = loader_hidden (dom w)
  /\ errorContainer_text (dom w') = errorContainer_text (dom w)
  /\ errorContainer_hidden (dom w') = errorContainer_hidden (dom w)
  /\ wordOfTheDaySection_hidden (dom w') = wordOfTheDaySection_hidden (dom w)
  /\ searchInput_value (dom w') = searchInput_value (dom w)
  /\ ai w' = ai w
  /\ requests w' = requests w.

(** Where a lookup that failed after its service call leaves the page: the
    banner of [showError], then the loader hidden by the [finally] block. *)
Definition structured_failed (w : World) : World :=
  with_dom (set_loader_hidden true) (exec (Structured.showError Structured.msg_failed) w).

Definition grounded_failed (w : World) : World :=
  with_dom (set_loader_hidden true) (exec (Grounded.showError Grounded.msg_failed) w).

(** Where a lookup that succeeded leaves the page. *)
Definition shown (r : Results) (w : World) : World :=
  with_dom (set_loader_hidden true) (with_dom (set_resultsContainer r) w).

(** *** Sample inputs *)

(** A reply of the service with the given text and no grounding chunks. *)
Definition reply (t : jsstring) : Settlement :=
  Fulfilled {| text := Some t; groundingChunks := None |}.

(** The page right after loading: no lookup suspended. *)
Definition idle (w : World) : System :=
  {| world := w; suspended := []; calls := 0 |}.

(** A reply with every required field but [definition]. *)
Definition reply_without_definition : jsstring :=
  jsq "{'compliment':'c','pronunciation':'p','partOfSpeech':'noun','synonyms':['s'],'antonyms':[],'etymology':'e','exampleSentences':['one','two']}".

(** A reply of two lines with four grounding chunks: two with one URI, one
    without web source, one with an empty title. *)
Definition cited (u t : string) : Chunk :=
  {| web := Some {| uri := Some (js u); title := Some (js t) |} |}.

Definition sample_reply : Response :=
  {| text := Some (js "**Definition**: lasting a short time." ++ [10%N]
                   ++ js "Second line.");
     groundingChunks :=
       Some [cited "https://a.example" "A"; {| web := None |};
             cited "https://b.example" ""; cited "https://a.example" "A again"] |}.

End Notions.

(* ===================================================================== *)
(** ** The rest of the page: word of the day, clicks, start-up *)
(* ===================================================================== *)

Module Shell.

Import JS Page.
Local Open Scope page_scope.

Definition dailyWords : list jsstring :=
  [js "Ephemeral"; js "Ubiquitous"; js "Mellifluous"; js "Serendipity";
   js "Petrichor"; js "Ineffable"; js "Sonder"; js "Defenestration";
   js "Limerence"; js "Pulchritudinous"].

Definition msg_not_constructed : jsstring :=
  js "Could not initialize the Gemini API. Please check your API key.".

(** What the click handler of the history list reads of the element that
    was clicked: its tag name and its [data-word] attribute. *)
Record Target := {
  tagName : jsstring;
  dataset_word : option jsstring
}.

(** The button [renderHistory] makes for an entry that is a string. *)
Definition button_for (word : jsstring) : Target :=
  {| tagName := js "BUTTON"; dataset_word := Some word |}.

(** The page with the text of the word-of-the-day paragraph. *)
Record Shell := {
  sys : System;
  dailyWordEl_textContent : jsstring
}.

Inductive Action :=
| Loaded (floor : nat)
| NewWordClick (floor : nat)
| DailyWordClick
| HistoryClick (target : Target)
| PageEvent (e : Event).

Section Handlers.

Variable showError : jsstring -> M unit.
Variable submit : M (option jsstring).
Variable resume : jsstring -> Settlement -> M unit.

(** The [try]/[catch] around [new GoogleGenAI(...)] at the top of the
    file: [constructed] tells whether the constructor returned.  The
    variable [ai] is unset before. *)
Definition startup (constructed : bool) : M unit :=
  update (fun w => {| dom := dom w; localStorage := localStorage w;
                      ai := constructed; requests := requests w |}) ;;
  if constructed then ret tt else showError msg_not_constructed.

(** [setWordOfTheDay], given [Math.floor(Math.random() * dailyWords.length)].
    An index outside the array reads [undefined], which empties the text. *)
Definition setWordOfTheDay (floor : nat) (sh : Shell) : Shell :=
  {| sys := sys sh; dailyWordEl_textContent := nth floor dailyWords [] |}.

(** Setting the value of the search field and dispatching [submit] on the
    form, which runs the submit handler up to its [await]. *)
Definition submit_value (value : jsstring) (sh : Shell) : Shell :=
  {| sys := step submit resume (sys sh) (Submit value);
     dailyWordEl_textContent := dailyWordEl_textContent sh |}.

(** The click handler of the word-of-the-day paragraph;
    [textContent || ''] is the text itself. *)
Definition dailyWordEl_click (sh : Shell) : Shell :=
  submit_value (dailyWordEl_textContent sh) sh.

(** The click handler of the history list. *)
Definition historyList_click (target : Target) (sh : Shell) : Shell :=
  if str_eqb (tagName target) (js "BUTTON") then
    match dataset_word target with
    | Some ((_ :: _) as word) => submit_value word sh
    | _ => sh
    end
  else sh.

(** The [DOMContentLoaded] handler; an exception of [renderHistory] ends
    it. *)
Definition DOMContentLoaded (floor : nat) (sh : Shell) : Shell :=
  let sh1 := setWordOfTheDay floor sh in
  {| sys := {| world := exec renderHistory (world (sys sh1));
               suspended := suspended (sys sh1); calls := calls (sys sh1) |};
     dailyWordEl_textContent := dailyWordEl_textContent sh1 |}.

Definition act (sh : Shell) (a : Action) : Shell :=
  match a with
  | Loaded floor => DOMContentLoaded floor sh
  | NewWordClick floor => setWordOfTheDay floor sh
  | DailyWordClick => dailyWordEl_click sh
  | HistoryClick target => historyList_click target sh
  | PageEvent e =>
      {| sys := step submit resume (sys sh) e;
         dailyWordEl_textContent := dailyWordEl_textContent sh |}
  end.

Definition perform (sh : Shell) (actions : list Action) : Shell :=
  fold_left act actions sh.

End Handlers.

Definition structured_act := act Structured.submit Structured.resume.
Definition structured_perform := perform Structured.submit Structured.resume.
Definition grounded_act := act Grounded.submit Grounded.resume.
Definition grounded_perform := perform Grounded.submit Grounded.resume.

End Shell.

(* ===================================================================== *)
(** ** The details toggle of [src/index.tsx] *)
(* ===================================================================== *)

Module Details.

Import JS.

(** A [classList]: the ordered set of the class names of an element. *)
Definition contains (token : jsstring) (classList : list jsstring) : bool :=
  existsb (str_eqb token) classList.

Definition add (token : jsstring) (classList : list jsstring) : list jsstring :=
  if contains token classList then classList else classList ++ [token].

Definition remove (token : jsstring) (classList : list jsstring) : list jsstring :=
  filter (fun t => negb (str_eqb t token)) classList.

(** [classList.toggle(token)]: the new list, and whether the token is now
    in it. *)
Definition toggle (token : jsstring) (classList : list jsstring)
  : list jsstring * bool :=
  if contains token classList then (remove token classList, false)
  else (classList ++ [token], true).

(** The three elements the click listener of the toggle button touches. *)
Record Widget := {
  detailedView_classList : list jsstring;
  text_textContent : jsstring;
  icon_classList : list jsstring
}.

(** As the template writes them. *)
Definition template : Widget :=
  {| detailedView_classList :=
       [js "hidden"; js "space-y-4"; js "text-slate-700"; js "mt-4"; js "pt-4";
        js "border-t"; js "border-slate-200"];
     text_textContent := js "Show More";
     icon_classList :=
       [js "fas"; js "fa-chevron-down"; js "ml-1"; js "text-sm";
        js "transition-transform"; js "duration-300"] |}.

(** The click listener of the toggle button. *)
Definition click (w : Widget) : Widget :=
  let (classes, isHidden) := toggle (js "hidden") (detailedView_classList w) in
  if isHidden then
    {| detailedView_classList := classes;
       text_textContent := js "Show More";
       icon_classList :=
         add (js "fa-chevron-down") (remove (js "fa-chevron-up") (icon_classList w)) |}
  else
    {| detailedView_classList := classes;
       text_textContent := js "Show Less";
       icon_classList :=
         add (js "fa-chevron-up") (remove (js "fa-chevron-down") (icon_classList w)) |}.

End Details.

(* ===================================================================== *)
(** ** Further notions *)
(* ===================================================================== *)

Module Vocabulary.

Import JS Page Notions Shell.
Local Open Scope N_scope.

(** A text without white space at either end. *)
Definition trimmed (s : jsstring) : Prop :=
  trimStart s = s /\ trimStart (rev s) = rev s.

(** An entry as the page records it: not empty, trimmed, lower-case. *)
Definition tidy (s : jsstring) : Prop :=
  s <> [] /\ trimmed s /\ lower_case s.

(** The history buttons show the stored entries, unless there is none. *)
Definition mirrored (w : World) (l : list jsstring) : Prop :=
  l <> [] ->
  historyList (dom w) = map JString l /\ historySection_hidden (dom w) = false.

(** A page in good order: the store holds at most five distinct tidy
    entries, the buttons show them, and every suspended handler holds a
    trimmed word that is not empty. *)
Definition in_order (sh : Shell) : Prop :=
  exists l,
    holds (localStorage (world (sys sh))) l
    /\ Forall tidy l /\ NoDup l /\ (List.length l <= 5)%nat
    /\ mirrored (world (sys sh)) l
    /\ Forall (fun p => snd p <> [] /\ trimmed (snd p)) (suspended (sys sh)).

(** A page without client and with nothing suspended, which has sent and
    stored what [sh] has. *)
Definition idle_without_client (sh sh' : Shell) : Prop :=
  ai (world (sys sh')) = false
  /\ suspended (sys sh') = []
  /\ requests (world (sys sh')) = requests (world (sys sh))
  /\ localStorage (world (sys sh')) = localStorage (world (sys sh)).

(** The store holds something [updateHistory] cannot use: a text that is
    no JSON, or a JSON value that is no array. *)
Definition broken_store (w : World) : Prop :=
  match JSON_parse (stored_or_default (localStorage w)) with
  | Some (JArray _) => False
  | _ => True
  end.

(** The fields of an entry as the schema types them, each present or not. *)
Record Fields := {
  f_compliment : option jsstring;
  f_pronunciation : option jsstring;
  f_partOfSpeech : option jsstring;
  f_definition : option jsstring;
  f_synonyms : option (list jsstring);
  f_antonyms : option (list jsstring);
  f_etymology : option jsstring;
  f_exampleSentences : option (list jsstring)
}.

Definition text_value (x : option jsstring) : JSValue := option_map JString x.

Definition list_value (x : option (list jsstring)) : JSValue :=
  option_map strings x.

(** [data] is an object whose eight fields are as [fields] says. *)
Definition has_fields (data : JSON) (fields : Fields) : Prop :=
  exists m,
    data = JObject m
    /\ lookup_last (js "compliment") m = text_value (f_compliment fields)
    /\ lookup_last (js "pronunciation") m = text_value (f_pronunciation fields)
    /\ lookup_last (js "partOfSpeech") m = text_value (f_partOfSpeech fields)
    /\ lookup_last (js "definition") m = text_value (f_definition fields)
    /\ lookup_last (js "synonyms") m = list_value (f_synonyms fields)
    /\ lookup_last (js "antonyms") m = list_value (f_antonyms fields)
    /\ lookup_last (js "etymology") m = text_value (f_etymology fields)
    /\ lookup_last (js "exampleSentences") m = list_value (f_exampleSentences fields).

(** The block of a list field: left out when the list is missing or
    empty. *)
Definition list_block (x : option (list jsstring)) : option (list JSON) :=
  match x with
  | Some ((_ :: _) as l) => Some (map JString l)
  | _ => None
  end.

(** The entry the template makes of such fields. *)
Definition entry_of (word : jsstring) (fields : Fields) : EntryView :=
  {| ev_heading := word;
     ev_compliment := text_value (f_compliment fields);
     ev_definition := text_value (f_definition fields);
     ev_firstExample :=
       match f_exampleSentences fields with
       | Some (first :: _) => Some (Some (JString first))
       | _ => None
       end;
     ev_detailsHidden := true;
     ev_pronunciation := text_value (f_pronunciation fields);
     ev_partOfSpeech := text_value (f_partOfSpeech fields);
     ev_synonyms := list_block (f_synonyms fields);
     ev_antonyms := list_block (f_antonyms fields);
     ev_etymology := text_value (f_etymology fields);
     ev_moreExamples :=
       match f_exampleSentences fields with
       | Some (_ :: ((_ :: _) as others)) => Some (map JString others)
       | _ => None
       end |}.

(** No field at all. *)
Definition no_fields : Fields :=
  {| f_compliment := None; f_pronunciation := None; f_partOfSpeech := None;
     f_definition := None; f_synonyms := None; f_antonyms := None;
     f_etymology := None; f_exampleSentences := None |}.

(** The messages the page writes into the banner. *)
Definition structured_messages : list jsstring :=
  [Structured.msg_empty; Structured.msg_uninitialized; Structured.msg_failed].

Definition grounded_messages : list jsstring :=
  [Grounded.msg_empty; Grounded.msg_uninitialized; Grounded.msg_failed].

(** The two states the details alternate between once clicked: open, and
    closed again. *)
Definition odd_state : Details.Widget :=
  {| Details.detailedView_classList :=
       [js "space-y-4"; js "text-slate-700"; js "mt-4"; js "pt-4";
        js "border-t"; js "border-slate-200"];
     Details.text_textContent := js "Show Less";
     Details.icon_classList :=
       [js "fas"; js "ml-1"; js "text-sm"; js "transition-transform";
        js "duration-300"; js "fa-chevron-up"] |}.

Definition even_state : Details.Widget :=
  {| Details.detailedView_classList :=
       [js "space-y-4"; js "text-slate-700"; js "mt-4"; js "pt-4";
        js "border-t"; js "border-slate-200"; js "hidden"];
     Details.text_textContent := js "Show More";
     Details.icon_classList :=
       [js "fas"; js "ml-1"; js "text-sm"; js "transition-transform";
        js "duration-300"; js "fa-chevron-down"] |}.

(** The state of the details after a number of clicks on the toggle. *)
Definition clicked (n : nat) : Details.Widget :=
  Nat.iter n Details.click Details.template.

End Vocabulary.

(* ===================================================================== *)
(** ** Facts about lower-casing *)
(* ===================================================================== *)

Module CaseFacts.

Import JS Notions.
Local Open Scope N_scope.

Ltac range_cases :=
  unfold in_range in *;
  repeat match goal with
         | H : _ || _ = true |- _ => apply orb_true_iff in H; destruct H
         | H : _ || _ = false |- _ => apply orb_false_iff in H; destruct H
         | H : _ && _ = true |- _ => apply andb_true_iff in H; destruct H
         | H : _ && _ = false |- _ => apply andb_false_iff in H; destruct H
         | H : negb _ = true |- _ => apply negb_true_iff in H
         | H : negb _ = false |- _ => apply negb_false_iff in H
         | H : (_ <=? _) = true |- _ => apply N.leb_le in H
         | H : (_ <=? _) = false |- _ => apply N.leb_gt in H
         | H : (_ <? _) = true |- _ => apply N.ltb_lt in H
         | H : (_ <? _) = false |- _ => apply N.ltb_ge in H
         | H : (_ =? _) = true |- _ => apply N.eqb_eq in H
         | H : (_ =? _) = false |- _ => apply N.eqb_neq in H
         end.

(** *** The table *)

Lemma lower_runs_sound : forallb sound_run lower_runs = true.
Proof. vm_compute. reflexivity. Qed.

Lemma lower_pairs_sound : forallb sound_pair lower_pairs = true.
Proof. vm_compute. reflexivity. Qed.

Lemma in_run_expand (c : N) (run : N * N * N * N) :
  sound_run run = true -> in_run c run = true ->
  In (c, snd run + (c - fst (fst (fst run)))) (expand_run run).
Proof.
  destruct run as [[[first last] step] target]. cbn [fst snd].
  unfold sound_run, in_run, expand_run. intros Hs Hc. range_cases.
  apply in_map_iff. exists (N.to_nat ((c - first) / step)).
  assert (Hd : c - first = step * ((c - first) / step)).
  { rewrite (N.div_mod (c - first) step) at 1 by lia. lia. }
  split.
  - rewrite N2Nat.id. f_equal; lia.
  - apply in_seq. split; [lia|].
    assert ((c - first) / step <= (last - first) / step)
      by (apply N.Div0.div_le_mono; lia).
    lia.
Qed.

(** A code point is mapped by the table, to a letter that stays, or left
    alone. *)
Lemma simple_lower_cases (c : N) :
  (find (in_run c) lower_runs = None /\ simple_lower c = c)
  \/ (is_plain c = true /\ is_plain (simple_lower c) = true
      /\ is_fixed (simple_lower c) = true).
Proof.
  unfold simple_lower.
  destruct (find (in_run c) lower_runs) as [[[[first last] step] target]|] eqn:E;
    [right | left; split; reflexivity].
  apply find_some in E. destruct E as [Hin Hc].
  pose proof lower_runs_sound as Hs. rewrite forallb_forall in Hs.
  pose proof (in_run_expand c _ (Hs _ Hin) Hc) as Hp. cbn [fst snd] in Hp.
  pose proof lower_pairs_sound as Hq. rewrite forallb_forall in Hq.
  specialize (Hq (c, target + (c - first))).
  unfold sound_pair in Hq. cbn [fst snd] in Hq.
  assert (Hall : In (c, target + (c - first)) lower_pairs).
  { unfold lower_pairs. apply in_flat_map. eexists. split; [exact Hin | exact Hp]. }
  specialize (Hq Hall). apply andb_true_iff in Hq. destruct Hq as [Hq H3].
  apply andb_true_iff in Hq. destruct Hq as [H1 H2]. auto.
Qed.

Lemma is_fixed_spec (c : N) (before after : list N) :
  is_fixed c = true -> lower_code_point before c after = [c].
Proof.
  unfold is_fixed, lower_code_point, simple_lower. intros H.
  apply andb_true_iff in H. destruct H as [H H3].
  apply andb_true_iff in H. destruct H as [H1 H2].
  apply negb_true_iff in H1, H2. rewrite H1, H2.
  destruct (find (in_run c) lower_runs); [discriminate | reflexivity].
Qed.

(** Whatever a code point becomes is left alone from then on. *)
Lemma lower_code_point_fixed (before : list N) (c : N) (after : list N) :
  Forall (fun d => is_fixed d = true) (lower_code_point before c after).
Proof.
  unfold lower_code_point.
  destruct (c =? 0x3A3) eqn:E1.
  { destruct (Final_Sigma before after); repeat constructor. }
  destruct (c =? 0x130) eqn:E2; [repeat constructor|].
  constructor; [|constructor].
  destruct (simple_lower_cases c) as [[Hf ->] | (_ & _ & H)]; [|exact H].
  unfold is_fixed. rewrite E1, E2, Hf. reflexivity.
Qed.

Lemma lower_code_points_fixed (cps : list N) :
  forall before, Forall (fun d => is_fixed d = true) (lower_code_points before cps).
Proof.
  induction cps as [|c r IH]; intros before; cbn [lower_code_points]; [constructor|].
  apply Forall_app. split; [apply lower_code_point_fixed | apply IH].
Qed.

Lemma lower_code_points_of_fixed (cps : list N) :
  Forall (fun d => is_fixed d = true) cps ->
  forall before, lower_code_points before cps = cps.
Proof.
  induction 1 as [|c r Hc Hr IH]; intros before; [reflexivity|].
  cbn [lower_code_points]. rewrite (is_fixed_spec c _ _ Hc), IH. reflexivity.
Qed.

(** *** Surrogates *)

Lemma is_space_below (c : N) : is_space c = true -> c < 0xD800 \/ c = 0xFEFF.
Proof. unfold is_space. intros H. range_cases; lia. Qed.

(** A surrogate on its own is left as it is, and nothing else becomes a
    surrogate. *)
Lemma lower_code_point_surrogate (before : list N) (c : N) (after : list N) :
  is_surrogate c = true -> lower_code_point before c after = [c].
Proof.
  intros H. apply is_fixed_spec. unfold is_fixed.
  destruct (simple_lower_cases c) as [[Hf _] | (Hp & _)].
  - rewrite Hf.
    replace (c =? 0x3A3) with false; [replace (c =? 0x130) with false; [reflexivity|]|];
      symmetry; apply N.eqb_neq; unfold is_surrogate, is_high_surrogate, is_low_surrogate in H;
      range_cases; lia.
  - unfold is_plain in Hp. rewrite H in Hp. rewrite andb_false_r in Hp. discriminate.
Qed.

Lemma lower_code_point_plain (before : list N) (c : N) (after : list N) :
  is_surrogate c = false ->
  Forall (fun d => is_surrogate d = false) (lower_code_point before c after).
Proof.
  intros H. unfold lower_code_point.
  destruct (c =? 0x3A3); [destruct (Final_Sigma before after); repeat constructor|].
  destruct (c =? 0x130); [repeat constructor|].
  constructor; [|constructor].
  destruct (simple_lower_cases c) as [[_ ->] | (_ & Hp & _)]; [exact H|].
  unfold is_plain in Hp. apply andb_true_iff in Hp. destruct Hp as [_ Hp].
  apply negb_true_iff in Hp. exact Hp.
Qed.

Lemma lower_code_point_nonempty (before : list N) (c : N) (after : list N) :
  lower_code_point before c after <> [].
Proof.
  unfold lower_code_point.
  destruct (c =? 0x3A3); [destruct (Final_Sigma before after); discriminate|].
  destruct (c =? 0x130); discriminate.
Qed.

Lemma pair_free_cons (c : N) (r : list N) :
  pair_free (c :: r) = negb (is_high_surrogate c && head_is_low r) && pair_free r.
Proof. reflexivity. Qed.

Lemma low_is_surrogate (c : N) : is_low_surrogate c = true -> is_surrogate c = true.
Proof. unfold is_surrogate. intros ->. apply orb_true_r. Qed.

Lemma high_is_surrogate (c : N) : is_high_surrogate c = true -> is_surrogate c = true.
Proof. unfold is_surrogate. intros ->. reflexivity. Qed.

Lemma head_is_low_plain (x y : list N) :
  x <> [] -> Forall (fun d => is_surrogate d = false) x ->
  head_is_low (x ++ y) = false.
Proof.
  intros Hne Hx. destruct x as [|d x]; [congruence|]. cbn [app head_is_low].
  inversion Hx as [|? ? Hd _]; subst.
  destruct (is_low_surrogate d) eqn:E; [|reflexivity].
  apply low_is_surrogate in E. congruence.
Qed.

Lemma lower_code_points_head (cps : list N) (before : list N) :
  head_is_low (lower_code_points before cps) = head_is_low cps.
Proof.
  destruct cps as [|c r]; [reflexivity|]. cbn [lower_code_points].
  destruct (is_surrogate c) eqn:E.
  - rewrite (lower_code_point_surrogate _ _ _ E). reflexivity.
  - rewrite head_is_low_plain;
      [| apply lower_code_point_nonempty | apply lower_code_point_plain, E].
    cbn [head_is_low]. destruct (is_low_surrogate c) eqn:Et; [|reflexivity].
    apply low_is_surrogate in Et. congruence.
Qed.

Lemma pair_free_plain_app (x y : list N) :
  Forall (fun d => is_surrogate d = false) x ->
  pair_free y = true -> pair_free (x ++ y) = true.
Proof.
  induction 1 as [|d x Hd Hx IH]; intros Hy; [exact Hy|].
  cbn [app]. rewrite pair_free_cons, (IH Hy).
  replace (is_high_surrogate d) with false; [reflexivity|].
  destruct (is_high_surrogate d) eqn:E; [|reflexivity].
  apply high_is_surrogate in E. congruence.
Qed.

Lemma lower_code_points_pair_free (cps : list N) :
  pair_free cps = true ->
  forall before, pair_free (lower_code_points before cps) = true.
Proof.
  induction cps as [|c r IH]; intros H before; [reflexivity|].
  rewrite pair_free_cons in H. apply andb_true_iff in H. destruct H as [H1 H2].
  cbn [lower_code_points]. destruct (is_surrogate c) eqn:E.
  - rewrite (lower_code_point_surrogate _ _ _ E). cbn [app].
    rewrite pair_free_cons, lower_code_points_head, H1, (IH H2). reflexivity.
  - apply pair_free_plain_app; [apply lower_code_point_plain, E | apply IH, H2].
Qed.

(** *** Code points and code units *)

Lemma large_not_low (c : N) : 0x10000 <= c -> is_low_surrogate c = false.
Proof.
  intros H. unfold is_low_surrogate, in_range. apply andb_false_iff. right.
  apply N.leb_gt. lia.
Qed.

Lemma large_not_high (c : N) : 0x10000 <= c -> is_high_surrogate c = false.
Proof.
  intros H. unfold is_high_surrogate, in_range. apply andb_false_iff. right.
  apply N.leb_gt. lia.
Qed.

Lemma StringToCodePoints_step (c d : N) (r : jsstring) :
  StringToCodePoints (c :: d :: r)
  = if is_high_surrogate c && is_low_surrogate d
    then (0x10000 + (c - 0xD800) * 0x400 + (d - 0xDC00)) :: StringToCodePoints r
    else c :: StringToCodePoints (d :: r).
Proof. reflexivity. Qed.

(** Induction over a string two code units at a time. *)
Lemma string_ind2 (P : jsstring -> Prop) :
  P [] -> (forall c, P [c]) ->
  (forall c d r, P r -> P (d :: r) -> P (c :: d :: r)) ->
  forall s, P s.
Proof.
  intros H0 H1 H2 s. enough (P s /\ forall c, P (c :: s)) by tauto.
  induction s as [|d r [IH1 IH2]]; [split; [exact H0 | exact H1]|].
  split; [apply IH2|]. intros c. apply H2; [exact IH1 | apply IH2].
Qed.

Lemma StringToCodePoints_head (s : jsstring) :
  head_is_low (StringToCodePoints s) = head_is_low s.
Proof.
  destruct s as [|c [|d r]]; [reflexivity | reflexivity |].
  rewrite StringToCodePoints_step.
  destruct (is_high_surrogate c && is_low_surrogate d) eqn:E; [|reflexivity].
  cbn [head_is_low]. rewrite large_not_low by lia.
  apply andb_true_iff in E. destruct E as [E _].
  unfold is_high_surrogate, is_low_surrogate in *. symmetry. range_cases.
  apply andb_false_iff. left. apply N.leb_gt. lia.
Qed.

Lemma StringToCodePoints_pair_free (s : jsstring) :
  pair_free (StringToCodePoints s) = true.
Proof.
  induction s as [| c | c d r IH1 IH2] using string_ind2.
  - reflexivity.
  - cbn. rewrite andb_false_r. reflexivity.
  - rewrite StringToCodePoints_step.
    destruct (is_high_surrogate c && is_low_surrogate d) eqn:E.
    + rewrite pair_free_cons, IH1, large_not_high by lia. reflexivity.
    + rewrite pair_free_cons, IH2, StringToCodePoints_head. cbn [head_is_low].
      rewrite E. reflexivity.
Qed.

Lemma UTF16Encode_head (cp : N) :
  head_is_low (UTF16EncodeCodePoint cp) = is_low_surrogate cp.
Proof.
  unfold UTF16EncodeCodePoint.
  destruct (cp <? 0x10000) eqn:E1; [reflexivity|].
  destruct (cp <? 0x110000) eqn:E2; [|reflexivity].
  cbn [head_is_low]. range_cases. rewrite (large_not_low cp) by lia.
  unfold is_low_surrogate, in_range. apply andb_false_iff. left. apply N.leb_gt.
  assert (Hq : (cp - 0x10000) / 0x400 < 0x400)
    by (apply N.Div0.div_lt_upper_bound; lia).
  set (q := (cp - 0x10000) / 0x400) in *. clearbody q. lia.
Qed.

Lemma CodePointsToString_head (cps : list N) :
  head_is_low (CodePointsToString cps) = head_is_low cps.
Proof.
  destruct cps as [|cp r]; [reflexivity|].
  unfold CodePointsToString. cbn [flat_map head_is_low].
  rewrite <- UTF16Encode_head.
  unfold UTF16EncodeCodePoint.
  destruct (cp <? 0x10000); [reflexivity|]. destruct (cp <? 0x110000); reflexivity.
Qed.

(** Reading back what was written gives the code points again. *)
Lemma StringToCodePoints_CodePointsToString (cps : list N) :
  pair_free cps = true ->
  StringToCodePoints (CodePointsToString cps) = cps.
Proof.
  induction cps as [|cp r IH]; intros H; [reflexivity|].
  rewrite pair_free_cons in H. apply andb_true_iff in H. destruct H as [H1 H2].
  specialize (IH H2).
  pose proof (CodePointsToString_head r) as Hh.
  unfold CodePointsToString in *. cbn [flat_map].
  unfold UTF16EncodeCodePoint at 1.
  destruct (cp <? 0x10000) eqn:E1; [|destruct (cp <? 0x110000) eqn:E2].
  - cbn [app]. destruct (flat_map UTF16EncodeCodePoint r) as [|d r'] eqn:Er.
    + rewrite <- IH. reflexivity.
    + rewrite StringToCodePoints_step. cbn [head_is_low] in Hh.
      rewrite Hh. apply negb_true_iff in H1. rewrite H1, IH. reflexivity.
  - cbn [app]. rewrite StringToCodePoints_step.
    clear H1. range_cases.
    assert (Hq : (cp - 0x10000) / 0x400 < 0x400)
      by (apply N.Div0.div_lt_upper_bound; lia).
    assert (Hm : (cp - 0x10000) mod 0x400 < 0x400) by (apply N.mod_lt; lia).
    pose proof (N.div_mod (cp - 0x10000) 0x400 ltac:(lia)) as Hd.
    set (q := (cp - 0x10000) / 0x400) in *.
    set (m := (cp - 0x10000) mod 0x400) in *. clearbody q m.
    replace (is_high_surrogate (0xD800 + q)) with true
      by (symmetry; unfold is_high_surrogate, in_range; apply andb_true_iff;
          split; apply N.leb_le; lia).
    replace (is_low_surrogate (0xDC00 + m)) with true
      by (symmetry; unfold is_low_surrogate, in_range; apply andb_true_iff;
          split; apply N.leb_le; lia).
    cbn [andb]. rewrite IH. f_equal. lia.
  - cbn [app]. clear H1. range_cases.
    destruct (flat_map UTF16EncodeCodePoint r) as [|d r'] eqn:Er.
    + rewrite <- IH. reflexivity.
    + rewrite StringToCodePoints_step, large_not_high by lia.
      cbn [andb]. rewrite IH. reflexivity.
Qed.

(** *** Lower-casing *)

(** Lower-casing what is lower-case changes nothing. *)
Lemma toLowerCase_idem (s : jsstring) : toLowerCase (toLowerCase s) = toLowerCase s.
Proof.
  unfold toLowerCase.
  rewrite StringToCodePoints_CodePointsToString
    by apply lower_code_points_pair_free, StringToCodePoints_pair_free.
  rewrite lower_code_points_of_fixed by apply lower_code_points_fixed.
  reflexivity.
Qed.

(** *** Lower-casing and white space *)

Lemma head_is_space_spec (s : jsstring) :
  trimStart s = s <-> head_is_space s = false.
Proof.
  destruct s as [|c r]; [split; reflexivity|]. cbn [trimStart head_is_space].
  destruct (is_space c) eqn:E; [|split; reflexivity].
  split; [|discriminate]. intros H. exfalso.
  assert (Hl : (List.length (trimStart r) <= List.length r)%nat).
  { clear. induction r as [|d r IH]; [apply le_n|]. cbn [trimStart].
    destruct (is_space d); cbn [List.length]; lia. }
  rewrite H in Hl. cbn [List.length] in Hl. lia.
Qed.

Lemma last_app_nonempty (x y : list N) (d : N) :
  y <> [] -> last (x ++ y) d = last y d.
Proof.
  intros Hy. induction x as [|a x IH]; [reflexivity|]. cbn [app].
  destruct (x ++ y) eqn:E; [|exact IH].
  apply app_eq_nil in E. destruct E. contradiction.
Qed.

Lemma last_Forall (P : N -> Prop) (l : list N) (d : N) :
  l <> [] -> Forall P l -> P (last l d).
Proof.
  intros Hne H. induction H as [|a l Ha Hl IH]; [congruence|].
  destruct l as [|b l]; [exact Ha|]. apply IH. discriminate.
Qed.

Lemma last_is_space_spec (s : jsstring) :
  head_is_space (rev s) = false <-> is_space (last s 0) = false.
Proof.
  destruct s as [|c r] using rev_ind; [split; reflexivity|].
  rewrite rev_app_distr, last_last. reflexivity.
Qed.

Lemma trimmed_ends (s : jsstring) :
  (trimStart s = s /\ trimStart (rev s) = rev s)
  <-> (head_is_space s = false /\ is_space (last s 0) = false).
Proof. rewrite !head_is_space_spec, last_is_space_spec. reflexivity. Qed.

Lemma large_not_space (c : N) : 0x10000 <= c -> is_space c = false.
Proof.
  intros H. destruct (is_space c) eqn:E; [|reflexivity].
  apply is_space_below in E. lia.
Qed.

Lemma lower_code_point_unspaced (before : list N) (c : N) (after : list N) :
  is_space c = false ->
  Forall (fun d => is_space d = false) (lower_code_point before c after).
Proof.
  intros H. unfold lower_code_point.
  destruct (c =? 0x3A3); [destruct (Final_Sigma before after); repeat constructor|].
  destruct (c =? 0x130); [repeat constructor|].
  constructor; [|constructor].
  destruct (simple_lower_cases c) as [[_ ->] | (_ & Hp & _)]; [exact H|].
  unfold is_plain in Hp. apply andb_true_iff in Hp. destruct Hp as [Hp _].
  apply negb_true_iff in Hp. exact Hp.
Qed.

Lemma UTF16Encode_unspaced (cp : N) :
  is_space cp = false ->
  Forall (fun d => is_space d = false) (UTF16EncodeCodePoint cp).
Proof.
  intros H. unfold UTF16EncodeCodePoint.
  destruct (cp <? 0x10000) eqn:E1; [repeat constructor; exact H|].
  destruct (cp <? 0x110000) eqn:E2; [|repeat constructor; exact H].
  range_cases.
  assert (Hq : (cp - 0x10000) / 0x400 < 0x400)
    by (apply N.Div0.div_lt_upper_bound; lia).
  assert (Hm : (cp - 0x10000) mod 0x400 < 0x400) by (apply N.mod_lt; lia).
  set (q := (cp - 0x10000) / 0x400) in *.
  set (m := (cp - 0x10000) mod 0x400) in *. clearbody q m.
  assert (H1 : is_space (0xD800 + q) = false).
  { destruct (is_space (0xD800 + q)) eqn:E; [|reflexivity].
    apply is_space_below in E. lia. }
  assert (H2 : is_space (0xDC00 + m) = false).
  { destruct (is_space (0xDC00 + m)) eqn:E; [|reflexivity].
    apply is_space_below in E. lia. }
  apply Forall_cons; [exact H1|]. apply Forall_cons; [exact H2|]. apply Forall_nil.
Qed.

Lemma UTF16Encode_nonempty (cp : N) : UTF16EncodeCodePoint cp <> [].
Proof.
  unfold UTF16EncodeCodePoint.
  destruct (cp <? 0x10000); [discriminate|]. destruct (cp <? 0x110000); discriminate.
Qed.

Lemma StringToCodePoints_nonempty (s : jsstring) :
  s <> [] -> StringToCodePoints s <> [].
Proof.
  destruct s as [|c [|d r]]; [congruence | discriminate |]. intros _.
  rewrite StringToCodePoints_step.
  destruct (is_high_surrogate c && is_low_surrogate d); discriminate.
Qed.

Lemma lower_code_points_nonempty (cps before : list N) :
  cps <> [] -> lower_code_points before cps <> [].
Proof.
  destruct cps as [|c r]; [congruence|]. intros _ E. cbn [lower_code_points] in E.
  apply app_eq_nil in E. destruct E as [E _].
  exact (lower_code_point_nonempty _ _ _ E).
Qed.

Lemma CodePointsToString_nonempty (cps : list N) :
  cps <> [] -> CodePointsToString cps <> [].
Proof.
  destruct cps as [|c r]; [congruence|]. intros _ E.
  unfold CodePointsToString in E. cbn [flat_map] in E.
  apply app_eq_nil in E. destruct E as [E _]. exact (UTF16Encode_nonempty _ E).
Qed.

(** The first and the last code point of a string are its first and last
    code unit, or lie above U+FFFF. *)
Lemma StringToCodePoints_first (s : jsstring) :
  head_is_space s = false -> head_is_space (StringToCodePoints s) = false.
Proof.
  destruct s as [|c [|d r]]; [reflexivity | intros H; exact H |].
  rewrite StringToCodePoints_step.
  destruct (is_high_surrogate c && is_low_surrogate d); intros H; [|exact H].
  cbn [head_is_space]. apply large_not_space. lia.
Qed.

Lemma StringToCodePoints_last (s : jsstring) :
  is_space (last s 0) = false -> is_space (last (StringToCodePoints s) 0) = false.
Proof.
  induction s as [| c | c d r IH1 IH2] using string_ind2.
  - intros H; exact H.
  - intros H; exact H.
  - rewrite StringToCodePoints_step. intros H.
    destruct (is_high_surrogate c && is_low_surrogate d).
    + destruct r as [|e r]; [cbn [StringToCodePoints last]; apply large_not_space; lia|].
      change (e :: r) with ([] ++ e :: r) in H at 1.
      change (c :: d :: [] ++ e :: r) with ([c; d] ++ e :: r) in H.
      rewrite last_app_nonempty in H by discriminate.
      change (?x :: StringToCodePoints (e :: r))
        with ([x] ++ StringToCodePoints (e :: r)).
      rewrite last_app_nonempty
        by (apply StringToCodePoints_nonempty; discriminate).
      apply IH1, H.
    + change (c :: d :: r) with ([c] ++ d :: r) in H.
      rewrite last_app_nonempty in H by discriminate.
      change (c :: StringToCodePoints (d :: r))
        with ([c] ++ StringToCodePoints (d :: r)).
      rewrite last_app_nonempty
        by (apply StringToCodePoints_nonempty; discriminate).
      apply IH2, H.
Qed.

Lemma lower_code_points_first (cps before : list N) :
  head_is_space cps = false ->
  head_is_space (lower_code_points before cps) = false.
Proof.
  destruct cps as [|c r]; [reflexivity|]. cbn [head_is_space lower_code_points].
  intros H. pose proof (lower_code_point_unspaced before c r H) as Hf.
  pose proof (lower_code_point_nonempty before c r) as Hne.
  destruct (lower_code_point before c r) as [|x xs]; [congruence|].
  inversion Hf; subst. assumption.
Qed.

Lemma lower_code_points_last (cps : list N) :
  forall before,
    is_space (last cps 0) = false ->
    is_space (last (lower_code_points before cps) 0) = false.
Proof.
  induction cps as [|c r IH]; intros before H; [exact H|].
  cbn [lower_code_points]. destruct r as [|d r].
  - cbn [lower_code_points]. rewrite app_nil_r.
    apply (last_Forall (fun x => is_space x = false));
      [apply lower_code_point_nonempty | apply lower_code_point_unspaced, H].
  - rewrite last_app_nonempty
      by (apply lower_code_points_nonempty; discriminate).
    apply IH. exact H.
Qed.

Lemma CodePointsToString_first (cps : list N) :
  head_is_space cps = false -> head_is_space (CodePointsToString cps) = false.
Proof.
  destruct cps as [|c r]; [reflexivity|]. cbn [head_is_space]. intros H.
  unfold CodePointsToString. cbn [flat_map].
  pose proof (UTF16Encode_unspaced c H) as Hf.
  pose proof (UTF16Encode_nonempty c) as Hne.
  destruct (UTF16EncodeCodePoint c) as [|x xs]; [congruence|].
  inversion Hf; subst. assumption.
Qed.

Lemma CodePointsToString_last (cps : list N) :
  is_space (last cps 0) = false ->
  is_space (last (CodePointsToString cps) 0) = false.
Proof.
  unfold CodePointsToString.
  induction cps as [|c r IH]; intros H; [exact H|].
  cbn [flat_map]. destruct r as [|d r].
  - cbn [flat_map]. rewrite app_nil_r.
    apply (last_Forall (fun x => is_space x = false));
      [apply UTF16Encode_nonempty | apply UTF16Encode_unspaced, H].
  - rewrite last_app_nonempty
      by (apply (CodePointsToString_nonempty (d :: r)); discriminate).
    apply IH. exact H.
Qed.

(** Lower-casing brings no white space to either end of a string, and
    empties none. *)
Lemma toLowerCase_ends (s : jsstring) :
  trimStart s = s /\ trimStart (rev s) = rev s ->
  trimStart (toLowerCase s) = toLowerCase s
  /\ trimStart (rev (toLowerCase s)) = rev (toLowerCase s).
Proof.
  rewrite !trimmed_ends. intros [H1 H2]. unfold toLowerCase. split.
  - apply CodePointsToString_first, lower_code_points_first,
      StringToCodePoints_first, H1.
  - apply CodePointsToString_last, lower_code_points_last,
      StringToCodePoints_last, H2.
Qed.

Lemma toLowerCase_nonempty (s : jsstring) : s <> [] -> toLowerCase s <> [].
Proof.
  intros H. unfold toLowerCase.
  apply CodePointsToString_nonempty, lower_code_points_nonempty,
    StringToCodePoints_nonempty, H.
Qed.

(** The mapping at work: a Greek word in capitals, whose last sigma closes
    it; a sigma on its own; the capital I with dot above; the capital omega
    and a capital C with caron; a capital of the Deseret block, which is a
    surrogate pair; a surrogate on its own. *)
Example toLowerCase_samples :
  toLowerCase [0x39F; 0x394; 0x39F; 0x3A3] = [0x3BF; 0x3B4; 0x3BF; 0x3C2]
  /\ toLowerCase [0x3A3] = [0x3C3]
  /\ toLowerCase [0x130] = [0x69; 0x307]
  /\ toLowerCase (0x3A9 :: js "MEGA") = 0x3C9 :: js "mega"
  /\ toLowerCase (0x10C :: js "apek") = 0x10D :: js "apek"
  /\ toLowerCase [0xD801; 0xDC00] = [0xD801; 0xDC28]
  /\ toLowerCase [0xDC00; 0x41] = [0xDC00; 0x61].
Proof. vm_compute. repeat split. Qed.

End CaseFacts.

(* ===================================================================== *)
(** ** Facts about the runtime *)
(* ===================================================================== *)

Module JSFacts.

Import JS.
Local Open Scope N_scope.

Lemma str_eqb_eq (a b : jsstring) : str_eqb a b = true <-> a = b.
Proof.
  revert b; induction a as [|x a IH]; intros [|y b]; simpl;
    try (split; [discriminate | congruence]); [tauto|].
  rewrite andb_true_iff, N.eqb_eq, IH.
  split; [intros [-> ->]; reflexivity | intros [= -> ->]; auto].
Qed.

Lemma str_eqb_refl (a : jsstring) : str_eqb a a = true.
Proof. apply str_eqb_eq; reflexivity. Qed.

Lemma str_eqb_neq (a b : jsstring) : str_eqb a b = false <-> a <> b.
Proof.
  rewrite <- str_eqb_eq. destruct (str_eqb a b); split; congruence.
Qed.

Ltac split_ranges :=
  unfold in_range in *;
  repeat match goal with
         | H : _ || _ = true |- _ => apply orb_true_iff in H; destruct H
         | H : _ || _ = false |- _ => apply orb_false_iff in H; destruct H
         | H : _ && _ = true |- _ => apply andb_true_iff in H; destruct H
         | H : _ && _ = false |- _ => apply andb_false_iff in H; destruct H
         | H : (_ <=? _) = true |- _ => apply N.leb_le in H
         | H : (_ <=? _) = false |- _ => apply N.leb_gt in H
         | H : (_ <? _) = true |- _ => apply N.ltb_lt in H
         | H : (_ <? _) = false |- _ => apply N.ltb_ge in H
         | H : (_ =? _) = true |- _ => apply N.eqb_eq in H
         | H : (_ =? _) = false |- _ => apply N.eqb_neq in H
         end.

(** *** Strings survive [JSON.stringify] followed by [JSON.parse] *)

Lemma in_range_true (lo hi c : N) : lo <= c <= hi -> in_range lo hi c = true.
Proof.
  intros [H1 H2]. unfold in_range. apply andb_true_iff.
  split; apply N.leb_le; assumption.
Qed.

Lemma in_range_false (lo hi c : N) : c < lo \/ hi < c -> in_range lo hi c = false.
Proof.
  intros H. unfold in_range. apply andb_false_iff.
  destruct H; [left | right]; apply N.leb_gt; assumption.
Qed.

Lemma hex_value_digit (n : N) : n < 16 -> hex_value (hex_digit n) = Some n.
Proof.
  intros Hn. unfold hex_digit, hex_value, is_digit.
  destruct (N.ltb_spec n 10).
  - rewrite in_range_true by lia. f_equal; lia.
  - rewrite (in_range_false 48 57) by lia.
    rewrite (in_range_false 65 70) by lia.
    rewrite in_range_true by lia. f_equal; lia.
Qed.

Lemma hex4_digits (c : N) :
  c < 65536 ->
  hex4 (hex_digit (c / 4096)) (hex_digit ((c / 256) mod 16))
       (hex_digit ((c / 16) mod 16)) (hex_digit (c mod 16)) = Some c.
Proof.
  intros Hc. unfold hex4.
  rewrite !hex_value_digit;
    try (apply N.mod_lt; discriminate);
    try (apply N.Div0.div_lt_upper_bound; lia).
  f_equal.
  assert (E1 : c / 16 / 16 = c / 256) by (rewrite N.Div0.div_div; reflexivity).
  assert (E2 : c / 256 / 16 = c / 4096) by (rewrite N.Div0.div_div; reflexivity).
  pose proof (N.div_mod c 16 ltac:(discriminate)) as H1.
  pose proof (N.div_mod (c / 16) 16 ltac:(discriminate)) as H2.
  pose proof (N.div_mod (c / 256) 16 ltac:(discriminate)) as H3.
  rewrite E1 in H2. rewrite E2 in H3.
  lia.
Qed.

Lemma parse_chars_unicode (c : N) (rest : jsstring) :
  c < 65536 ->
  parse_chars (unicode_escape c ++ rest) = cons_fst c (parse_chars rest).
Proof.
  intros Hc. unfold unicode_escape.
  change (parse_chars ([92; 117; hex_digit (c / 4096); hex_digit ((c / 256) mod 16);
                        hex_digit ((c / 16) mod 16); hex_digit (c mod 16)] ++ rest))
    with (match hex4 (hex_digit (c / 4096)) (hex_digit ((c / 256) mod 16))
                     (hex_digit ((c / 16) mod 16)) (hex_digit (c mod 16)) with
          | Some u => cons_fst u (parse_chars rest)
          | None => None
          end).
  rewrite hex4_digits by assumption. reflexivity.
Qed.

Lemma parse_chars_literal (c : N) (rest : jsstring) :
  c <> 34 -> c <> 92 -> 32 <= c ->
  parse_chars (c :: rest) = cons_fst c (parse_chars rest).
Proof.
  intros H1 H2 H3. simpl.
  apply N.eqb_neq in H1, H2. rewrite H1, H2.
  replace (c <? 32) with false by (symmetry; apply N.ltb_ge; assumption).
  reflexivity.
Qed.

Lemma parse_chars_escape (c : N) (rest : jsstring) :
  parse_chars (escape_unit c ++ rest) = cons_fst c (parse_chars rest).
Proof.
  unfold escape_unit.
  repeat match goal with
         | |- context [if ?a =? ?b then _ else _] =>
             destruct (N.eqb_spec a b); [subst; reflexivity|]
         end.
  destruct (c <? 32) eqn:E; split_ranges.
  - apply parse_chars_unicode. lia.
  - apply parse_chars_literal; assumption.
Qed.

Lemma parse_chars_quote_units (s rest : jsstring) :
  parse_chars (quote_units s ++ 34 :: rest) = Some (s, rest).
Proof.
  remember (List.length s) as n eqn:Hn.
  assert (Hle : (List.length s <= n)%nat) by lia. clear Hn.
  revert s Hle. induction n as [|n IH]; intros s Hle.
  { destruct s; [reflexivity | simpl in Hle; lia]. }
  destruct s as [|c r]; [reflexivity|].
  simpl in Hle.
  cbn [quote_units].
  destruct (is_high_surrogate c) eqn:Hh.
  - destruct r as [|d r'].
    + rewrite parse_chars_unicode
        by (unfold is_high_surrogate in Hh; split_ranges; lia).
      reflexivity.
    + destruct (is_low_surrogate d) eqn:Hl.
      * cbn [app].
        unfold is_high_surrogate, is_low_surrogate in *; split_ranges.
        rewrite parse_chars_literal by lia.
        rewrite parse_chars_literal by lia.
        rewrite IH by (simpl in Hle; lia). reflexivity.
      * rewrite <- app_assoc, parse_chars_unicode
          by (unfold is_high_surrogate in Hh; split_ranges; lia).
        rewrite IH by lia. reflexivity.
  - destruct (is_low_surrogate c) eqn:Hl.
    + rewrite <- app_assoc, parse_chars_unicode
        by (unfold is_low_surrogate in Hl; split_ranges; lia).
      rewrite IH by lia. reflexivity.
    + rewrite <- app_assoc, parse_chars_escape, IH by lia. reflexivity.
Qed.

Lemma parse_value_quote (fuel : nat) (s rest : jsstring) :
  parse_value (S fuel) (quote s ++ rest) = Some (JString s, rest).
Proof.
  unfold quote. cbn [app].
  change (parse_value (S fuel) (34 :: (quote_units s ++ [34]) ++ rest))
    with (match parse_chars ((quote_units s ++ [34]) ++ rest) with
          | Some (str, r') => Some (JString str, r')
          | None => None
          end).
  rewrite <- app_assoc. cbn [app]. rewrite parse_chars_quote_units. reflexivity.
Qed.

Lemma parse_elements_S (fuel : nat) (s : jsstring) :
  parse_elements (S fuel) s =
  match parse_value fuel s with
  | None => None
  | Some (v, r) =>
      match skip_ws r with
      | c :: r' =>
          if c =? 93 then Some ([v], r')
          else if c =? 44 then
            match parse_elements fuel r' with
            | Some (l, r'') => Some (v :: l, r'')
            | None => None
            end
          else None
      | [] => None
      end
  end.
Proof. reflexivity. Qed.

Lemma join_comma_cons (x y : jsstring) (r : list jsstring) :
  join_comma (x :: y :: r) = x ++ 44 :: join_comma (y :: r).
Proof. reflexivity. Qed.

Lemma parse_elements_strings (l : list jsstring) :
  forall (fuel : nat) (rest : jsstring),
    l <> [] -> (List.length l < fuel)%nat ->
    parse_elements fuel (join_comma (map quote l) ++ 93 :: rest)
    = Some (map JString l, rest).
Proof.
  induction l as [|x l IH]; intros fuel rest Hne Hfuel; [congruence|].
  destruct fuel as [|[|fuel]]; simpl in Hfuel; try lia.
  rewrite parse_elements_S.
  destruct l as [|y l].
  - cbn [map join_comma]. rewrite parse_value_quote. reflexivity.
  - cbn [map]. rewrite join_comma_cons, <- app_assoc, parse_value_quote.
    cbn [app skip_ws is_json_ws N.eqb Pos.eqb orb].
    change (map quote (y :: l)) with (quote y :: map quote l) in IH.
    rewrite IH; [reflexivity | congruence | simpl in Hfuel |- *; lia].
Qed.

Lemma join_comma_quote_length (l : list jsstring) :
  (List.length l <= List.length (join_comma (map quote l)))%nat.
Proof.
  induction l as [|x [|y l] IH]; [simpl; lia | | ].
  - unfold quote; simpl. rewrite length_app. simpl. lia.
  - cbn [map] in *. rewrite join_comma_cons, length_app.
    cbn [List.length] in *. lia.
Qed.

Lemma stringify_strings (l : list jsstring) :
  JSON_stringify (JArray (map JString l)) = 91 :: join_comma (map quote l) ++ [93].
Proof. cbn [JSON_stringify]. rewrite map_map. reflexivity. Qed.

(** An array of strings is read back as it was written. *)
Lemma parse_stringify_strings (l : list jsstring) :
  JSON_parse (JSON_stringify (JArray (map JString l))) = Some (JArray (map JString l)).
Proof.
  rewrite stringify_strings. unfold JSON_parse.
  pose proof (join_comma_quote_length l) as Hlen.
  remember (join_comma (map quote l)) as body eqn:Hbody.
  set (n := List.length (91 :: body ++ [93])).
  replace (2 * n + 2)%nat with (S (S (2 * n))) by lia.
  destruct l as [|x l].
  - subst body. reflexivity.
  - assert (Hq : exists b, body = 34 :: b).
    { subst body. destruct l; eexists; reflexivity. }
    destruct Hq as [b Hb].
    change (parse_value (S (S (2 * n))) (91 :: body ++ [93]))
      with (if starts_with 93 (skip_ws (body ++ [93]))
            then Some (JArray [], tl (skip_ws (body ++ [93])))
            else match parse_elements (S (2 * n)) (body ++ [93]) with
                 | Some (l0, r') => Some (JArray l0, r')
                 | None => None
                 end).
    replace (starts_with 93 (skip_ws (body ++ [93]))) with false
      by (rewrite Hb; reflexivity).
    rewrite Hbody at 1.
    rewrite parse_elements_strings; [reflexivity | congruence |].
    subst n. cbn [List.length] in *. rewrite length_app. lia.
Qed.

(** *** The fuel of the parser is enough *)

Lemma skip_ws_length (s : jsstring) :
  (List.length (skip_ws s) <= List.length s)%nat.
Proof.
  induction s as [|c r IH]; cbn [skip_ws]; [lia|].
  destruct (is_json_ws c); cbn [List.length]; lia.
Qed.

Lemma cons_fst_Some {A B} (a : A) (o : option (list A * B)) (l : list A) (b : B) :
  cons_fst a o = Some (l, b) -> exists l', o = Some (l', b) /\ l = a :: l'.
Proof.
  destruct o as [[l' b']|]; cbn [cons_fst]; [|discriminate].
  intros [= <- <-]. eauto.
Qed.

Lemma parse_chars_length (s x r : jsstring) :
  parse_chars s = Some (x, r) -> (List.length r < List.length s)%nat.
Proof.
  remember (List.length s) as n eqn:Hn.
  assert (Hle : (List.length s <= n)%nat) by lia.
  rewrite Hn. clear Hn. revert s x r Hle.
  induction n as [|n IH]; intros s x r Hle H.
  { destruct s; [discriminate | cbn in Hle; lia]. }
  destruct s as [|c s]; [discriminate|]. cbn [List.length] in *.
  cbn [parse_chars] in H.
  destruct (c =? 34); [injection H as _ <-; lia|].
  destruct (c =? 92).
  - destruct s as [|e s]; [discriminate|]. cbn [List.length] in *.
    destruct (e =? 117).
    + destruct s as [|h1 [|h2 [|h3 [|h4 s]]]]; try discriminate.
      cbn [List.length] in *.
      destruct (hex4 h1 h2 h3 h4); [|discriminate].
      apply cons_fst_Some in H. destruct H as (l' & H & _).
      apply IH in H; lia.
    + destruct (unescape e); [|discriminate].
      apply cons_fst_Some in H. destruct H as (l' & H & _).
      apply IH in H; lia.
  - destruct (c <? 32); [discriminate|].
    apply cons_fst_Some in H. destruct H as (l' & H & _).
    apply IH in H; lia.
Qed.

Lemma span_digits_length (s : jsstring) :
  (List.length (snd (span_digits s)) <= List.length s)%nat.
Proof.
  induction s as [|c r IH]; cbn [span_digits]; [cbn; lia|].
  destruct (is_digit c); [|cbn; lia].
  destruct (span_digits r) as [ds r']. cbn [snd List.length] in *. lia.
Qed.

Lemma lex_int_length (s i r : jsstring) :
  lex_int s = Some (i, r) -> (List.length r < List.length s)%nat.
Proof.
  unfold lex_int. destruct s as [|d s]; [discriminate|].
  cbn [List.length]. destruct (d =? 48); [intros [= _ <-]; lia|].
  destruct (is_digit d); [|discriminate].
  pose proof (span_digits_length s) as Hs.
  destruct (span_digits s) as [ds r']. intros [= _ <-]. cbn [snd] in Hs. lia.
Qed.

Lemma lex_frac_length (s f r : jsstring) :
  lex_frac s = Some (f, r) -> (List.length r <= List.length s)%nat.
Proof.
  unfold lex_frac. destruct s as [|c s]; [intros [= _ <-]; lia|].
  destruct (c =? 46); [|intros [= _ <-]; lia].
  pose proof (span_digits_length s) as Hs.
  destruct (span_digits s) as [[|d ds] r']; [discriminate|].
  intros [= _ <-]. cbn [snd List.length] in *. lia.
Qed.

Lemma lex_exp_length (s e r : jsstring) :
  lex_exp s = Some (e, r) -> (List.length r <= List.length s)%nat.
Proof.
  unfold lex_exp. destruct s as [|c s]; [intros [= _ <-]; lia|].
  destruct ((c =? 101) || (c =? 69)); [|intros [= _ <-]; lia].
  destruct s as [|g s0].
  - cbn [span_digits]. discriminate.
  - destruct ((g =? 43) || (g =? 45)).
    + pose proof (span_digits_length s0) as Hd.
      destruct (span_digits s0) as [[|d ds] r']; [discriminate|].
      intros [= _ <-]. cbn [snd List.length] in *. lia.
    + pose proof (span_digits_length (g :: s0)) as Hd.
      destruct (span_digits (g :: s0)) as [[|d ds] r']; [discriminate|].
      intros [= _ <-]. cbn [snd List.length] in *. lia.
Qed.

Lemma lex_number_length (s lx r : jsstring) :
  lex_number s = Some (lx, r) -> (List.length r < List.length s)%nat.
Proof.
  unfold lex_number.
  assert (H : forall sg s0,
             (List.length s0 <= List.length s)%nat ->
             match lex_int s0 with
             | None => None
             | Some (i, s1) =>
                 match lex_frac s1 with
                 | None => None
                 | Some (f, s2) =>
                     match lex_exp s2 with
                     | None => None
                     | Some (e, s3) => Some (sg ++ i ++ f ++ e, s3)
                     end
                 end
             end = Some (lx, r) -> (List.length r < List.length s)%nat).
  { intros sg s0 Hs0.
    destruct (lex_int s0) as [[i s1]|] eqn:E1; [|discriminate].
    destruct (lex_frac s1) as [[f s2]|] eqn:E2; [|discriminate].
    destruct (lex_exp s2) as [[e s3]|] eqn:E3; [|discriminate].
    intros [= _ <-].
    apply lex_int_length in E1. apply lex_frac_length in E2.
    apply lex_exp_length in E3. lia. }
  destruct s as [|c s']; [apply H; lia|].
  destruct (c =? 45); apply H; cbn [List.length]; lia.
Qed.

Lemma strip_prefix_length (p s r : jsstring) :
  strip_prefix p s = Some r -> (List.length r + List.length p = List.length s)%nat.
Proof.
  revert s; induction p as [|x p IH]; intros s; cbn [strip_prefix].
  - intros [= <-]. cbn; lia.
  - destruct s as [|y s]; [discriminate|].
    destruct (x =? y); [|discriminate].
    intros H. apply IH in H. cbn [List.length]. lia.
Qed.

Lemma parse_value_S (fuel : nat) (s : jsstring) :
  parse_value (S fuel) s =
  match skip_ws s with
  | [] => None
  | c :: r =>
      if c =? 34 then
        match parse_chars r with
        | Some (str, r') => Some (JString str, r')
        | None => None
        end
      else if c =? 91 then
        if starts_with 93 (skip_ws r) then Some (JArray [], tl (skip_ws r))
        else
          match parse_elements fuel r with
          | Some (l, r') => Some (JArray l, r')
          | None => None
          end
      else if c =? 123 then
        if starts_with 125 (skip_ws r) then Some (JObject [], tl (skip_ws r))
        else
          match parse_members fuel r with
          | Some (l, r') => Some (JObject l, r')
          | None => None
          end
      else if (c =? 45) || is_digit c then
        match lex_number (c :: r) with
        | Some (lx, r') => Some (JNumber lx, r')
        | None => None
        end
      else
        match strip_prefix (js "true") (c :: r) with
        | Some r' => Some (JBool true, r')
        | None =>
            match strip_prefix (js "false") (c :: r) with
            | Some r' => Some (JBool false, r')
            | None =>
                match strip_prefix (js "null") (c :: r) with
                | Some r' => Some (JNull, r')
                | None => None
                end
            end
        end
  end.
Proof. reflexivity. Qed.

Lemma parse_members_S (fuel : nat) (s : jsstring) :
  parse_members (S fuel) s =
  if starts_with 34 (skip_ws s) then
    match parse_chars (tl (skip_ws s)) with
    | None => None
    | Some (k, r1) =>
        if starts_with 58 (skip_ws r1) then
          match parse_value fuel (tl (skip_ws r1)) with
          | None => None
          | Some (v, r3) =>
              match skip_ws r3 with
              | c :: r4 =>
                  if c =? 125 then Some ([(k, v)], r4)
                  else if c =? 44 then
                    match parse_members fuel r4 with
                    | Some (l, r5) => Some ((k, v) :: l, r5)
                    | None => None
                    end
                  else None
              | [] => None
              end
          end
        else None
    end
  else None.
Proof. reflexivity. Qed.

Lemma tl_length {A} (l : list A) : (List.length (tl l) <= List.length l)%nat.
Proof. destruct l; cbn; lia. Qed.

(** Every successful call of the parser consumes at least one
    character. *)
Lemma parser_consumes (fuel : nat) :
  (forall s v r, parse_value fuel s = Some (v, r) ->
                 (List.length r < List.length s)%nat)
  /\ (forall s l r, parse_elements fuel s = Some (l, r) ->
                    (List.length r < List.length s)%nat)
  /\ (forall s l r, parse_members fuel s = Some (l, r) ->
                    (List.length r < List.length s)%nat).
Proof.
  induction fuel as [|fuel (IHV & IHE & IHM)]; [repeat split; discriminate|].
  repeat split.
  - intros s v r H. rewrite parse_value_S in H.
    pose proof (skip_ws_length s) as Hs.
    destruct (skip_ws s) as [|c t]; [discriminate|]. cbn [List.length] in Hs.
    pose proof (skip_ws_length t) as Ht. pose proof (tl_length (skip_ws t)) as Htl.
    destruct (c =? 34).
    { destruct (parse_chars t) as [[str r']|] eqn:E; [|discriminate].
      injection H as _ <-. apply parse_chars_length in E. lia. }
    destruct (c =? 91).
    { destruct (starts_with 93 (skip_ws t)); [injection H as _ <-; lia|].
      destruct (parse_elements fuel t) as [[l r']|] eqn:E; [|discriminate].
      injection H as _ <-. apply IHE in E. lia. }
    destruct (c =? 123).
    { destruct (starts_with 125 (skip_ws t)); [injection H as _ <-; lia|].
      destruct (parse_members fuel t) as [[l r']|] eqn:E; [|discriminate].
      injection H as _ <-. apply IHM in E. lia. }
    destruct ((c =? 45) || is_digit c).
    { destruct (lex_number (c :: t)) as [[lx r']|] eqn:E; [|discriminate].
      injection H as _ <-. apply lex_number_length in E. cbn [List.length] in E. lia. }
    destruct (strip_prefix (js "true") (c :: t)) as [r'|] eqn:E1.
    { injection H as _ <-. apply strip_prefix_length in E1.
      change (List.length (js "true")) with 4%nat in E1.
      cbn [List.length] in E1. lia. }
    destruct (strip_prefix (js "false") (c :: t)) as [r'|] eqn:E2.
    { injection H as _ <-. apply strip_prefix_length in E2.
      change (List.length (js "false")) with 5%nat in E2.
      cbn [List.length] in E2. lia. }
    destruct (strip_prefix (js "null") (c :: t)) as [r'|] eqn:E3; [|discriminate].
    injection H as _ <-. apply strip_prefix_length in E3.
    change (List.length (js "null")) with 4%nat in E3.
    cbn [List.length] in E3. lia.
  - intros s l r H. rewrite parse_elements_S in H.
    destruct (parse_value fuel s) as [[v r0]|] eqn:E; [|discriminate].
    apply IHV in E. pose proof (skip_ws_length r0) as Hs.
    destruct (skip_ws r0) as [|c t]; [discriminate|]. cbn [List.length] in Hs.
    destruct (c =? 93); [injection H as _ <-; lia|].
    destruct (c =? 44); [|discriminate].
    destruct (parse_elements fuel t) as [[l' r']|] eqn:E'; [|discriminate].
    injection H as _ <-. apply IHE in E'. lia.
  - intros s l r H. rewrite parse_members_S in H.
    pose proof (skip_ws_length s) as Hs. pose proof (tl_length (skip_ws s)) as Htl.
    destruct (starts_with 34 (skip_ws s)); [|discriminate].
    destruct (parse_chars (tl (skip_ws s))) as [[k r1]|] eqn:Ek; [|discriminate].
    apply parse_chars_length in Ek.
    pose proof (skip_ws_length r1) as Hs1. pose proof (tl_length (skip_ws r1)) as Htl1.
    destruct (starts_with 58 (skip_ws r1)); [|discriminate].
    destruct (parse_value fuel (tl (skip_ws r1))) as [[v r3]|] eqn:E; [|discriminate].
    apply IHV in E. pose proof (skip_ws_length r3) as Hs3.
    destruct (skip_ws r3) as [|c t]; [discriminate|]. cbn [List.length] in Hs3.
    destruct (c =? 125); [injection H as _ <-; lia|].
    destruct (c =? 44); [|discriminate].
    destruct (parse_members fuel t) as [[l' r']|] eqn:E'; [|discriminate].
    injection H as _ <-. apply IHM in E'. lia.
Qed.

(** With fuel above twice the length of the input, one more unit of fuel
    changes nothing: a [None] of the parser is a rejection, not exhaustion. *)
Lemma parser_fuel_stable (fuel : nat) :
  (forall s, (2 * List.length s + 1 <= fuel)%nat ->
             parse_value (S fuel) s = parse_value fuel s)
  /\ (forall s, (2 * List.length s + 2 <= fuel)%nat ->
                parse_elements (S fuel) s = parse_elements fuel s)
  /\ (forall s, (2 * List.length s + 2 <= fuel)%nat ->
                parse_members (S fuel) s = parse_members fuel s).
Proof.
  induction fuel as [|fuel (IHV & IHE & IHM)]; [repeat split; intros; lia|].
  repeat split.
  - intros s Hf. rewrite !parse_value_S.
    pose proof (skip_ws_length s) as Hs.
    destruct (skip_ws s) as [|c t]; [reflexivity|]. cbn [List.length] in Hs.
    rewrite IHE, IHM by lia. reflexivity.
  - intros s Hf. rewrite !parse_elements_S. rewrite IHV by lia.
    destruct (parse_value fuel s) as [[v r]|] eqn:E; [|reflexivity].
    apply (proj1 (parser_consumes fuel)) in E.
    pose proof (skip_ws_length r) as Hs.
    destruct (skip_ws r) as [|c t]; [reflexivity|]. cbn [List.length] in Hs.
    rewrite IHE by lia. reflexivity.
  - intros s Hf. rewrite !parse_members_S.
    pose proof (skip_ws_length s) as Hs. pose proof (tl_length (skip_ws s)) as Htl.
    destruct (starts_with 34 (skip_ws s)); [|reflexivity].
    destruct (parse_chars (tl (skip_ws s))) as [[k r1]|] eqn:Ek; [|reflexivity].
    apply parse_chars_length in Ek.
    pose proof (skip_ws_length r1) as Hs1. pose proof (tl_length (skip_ws r1)) as Htl1.
    destruct (starts_with 58 (skip_ws r1)); [|reflexivity].
    rewrite IHV by lia.
    destruct (parse_value fuel (tl (skip_ws r1))) as [[v r3]|] eqn:E; [|reflexivity].
    apply (proj1 (parser_consumes fuel)) in E.
    pose proof (skip_ws_length r3) as Hs3.
    destruct (skip_ws r3) as [|c t]; [reflexivity|]. cbn [List.length] in Hs3.
    rewrite IHM by lia. reflexivity.
Qed.

(** [JSON_parse] is what the parser answers with any larger fuel. *)
Lemma JSON_parse_any_fuel (text : jsstring) (extra : nat) :
  parse_value (2 * List.length text + 2 + extra) text
  = parse_value (2 * List.length text + 2) text.
Proof.
  induction extra as [|extra IH].
  - f_equal. lia.
  - replace (2 * List.length text + 2 + S extra)%nat
      with (S (2 * List.length text + 2 + extra)) by lia.
    rewrite (proj1 (parser_fuel_stable _)) by lia. exact IH.
Qed.

Lemma parse_default : JSON_parse (js "[]") = Some (JArray []).
Proof. reflexivity. Qed.

End JSFacts.

(* ===================================================================== *)
(** ** Facts about the recency history *)
(* ===================================================================== *)

Module HistoryFacts.

Import JS Page Notions JSFacts.
Local Open Scope page_scope.

Lemma load_eq (w : World) :
  load w = match JSON_parse (stored_or_default (localStorage w)) with
           | Some v => (Normal v, w)
           | None => (Throw, w)
           end.
Proof.
  unfold load, bind, getItem, read, lift.
  destruct (JSON_parse (stored_or_default (localStorage w))); reflexivity.
Qed.

Lemma stringify_nonempty (l : list jsstring) :
  stored_or_default (Some (JSON_stringify (strings l))) = JSON_stringify (strings l).
Proof. unfold strings. rewrite stringify_strings. reflexivity. Qed.

Lemma load_holds (w : World) (l : list jsstring) :
  holds (localStorage w) l -> load w = (Normal (strings l), w).
Proof.
  intros [[H ->] | H]; rewrite load_eq, H.
  - reflexivity.
  - rewrite stringify_nonempty. unfold strings.
    rewrite parse_stringify_strings. reflexivity.
Qed.

Lemma filter_strings (nw : jsstring) (l : list jsstring) :
  filter (fun item => strict_neq_string item nw) (map JString l)
  = map JString (filter (fun item => negb (str_eqb item nw)) l).
Proof.
  induction l as [|x l IH]; [reflexivity|].
  cbn [map filter strict_neq_string].
  destruct (negb (str_eqb x nw)); cbn [map]; rewrite IH; reflexivity.
Qed.

Lemma slice_is_firstn {A} (l : list A) :
  (if (5 <? List.length l)%nat then firstn 5 l else l) = firstn 5 l.
Proof.
  destruct (Nat.ltb_spec 5 (List.length l)); [reflexivity|].
  symmetry. apply firstn_all2. lia.
Qed.

Lemma appendItems_strings (l : list jsstring) (w : World) :
  appendItems (map JString l) w
  = (Normal tt, with_dom (fun d => set_historyList (historyList d ++ map JString l) d) w).
Proof.
  revert w. induction l as [|x l IH]; intros w.
  - destruct w as [[] ? ? ?]. unfold with_dom, set_historyList; simpl.
    rewrite app_nil_r. reflexivity.
  - cbn [map appendItems to_string_ok]. unfold bind, update at 1.
    rewrite IH. destruct w as [[] ? ? ?].
    unfold with_dom, set_historyList; simpl. rewrite <- app_assoc. reflexivity.
Qed.

(** [updateHistory] on a store of strings: it completes, stores the
    recorded sequence and shows it. *)
Lemma updateHistory_holds (word : jsstring) (w : World) (l : list jsstring) :
  holds (localStorage w) l ->
  updateHistory word w
  = (Normal tt,
     {| dom := set_historyList (map JString (record word l))
                 (set_historySection_hidden false (dom w));
        localStorage := Some (JSON_stringify (strings (record word l)));
        ai := ai w; requests := requests w |}).
Proof.
  intros H. unfold updateHistory, bind at 1. rewrite (load_holds _ _ H).
  unfold strings at 1. cbv beta iota.
  rewrite filter_strings, slice_is_firstn.
  change (JString (toLowerCase word)
          :: map JString (filter (fun item => negb (str_eqb item (toLowerCase word))) l))
    with (map JString (toLowerCase word
          :: filter (fun item => negb (str_eqb item (toLowerCase word))) l)).
  rewrite firstn_map. fold (record word l). fold (strings (record word l)).
  unfold bind, setItem, update at 1. cbv beta iota.
  unfold renderHistory, bind.
  rewrite (load_holds _ (record word l)) by (right; reflexivity).
  unfold strings at 1.
  assert (Hne : record word l <> []).
  { unfold record. cbn [firstn]. discriminate. }
  destruct (record word l) as [|x r] eqn:E; [congruence|].
  unfold strings. cbn [map length_is_zero]. unfold update. cbv beta iota.
  change (JString x :: map JString r) with (map JString (x :: r)).
  rewrite appendItems_strings. destruct w as [[] ? ? ?]. reflexivity.
Qed.

Lemma record_head (word : jsstring) (l : list jsstring) :
  nth_error (record word l) 0 = Some (toLowerCase word).
Proof. reflexivity. Qed.

Lemma record_length (word : jsstring) (l : list jsstring) :
  (List.length (record word l) <= 5)%nat.
Proof. unfold record. apply firstn_le_length. Qed.

Lemma NoDup_firstn {A} (n : nat) (l : list A) : NoDup l -> NoDup (firstn n l).
Proof.
  revert n; induction l as [|x l IH]; intros [|n] H; cbn [firstn];
    try constructor; inversion_clear H.
  - intros Hin. match goal with Hx : ~ In x l |- _ => apply Hx end.
    rewrite <- (firstn_skipn n l). apply in_or_app. left. exact Hin.
  - apply IH; assumption.
Qed.

Lemma record_NoDup (word : jsstring) (l : list jsstring) :
  NoDup l -> NoDup (record word l).
Proof.
  intros H. unfold record. apply NoDup_firstn. constructor.
  - rewrite filter_In, negb_true_iff, str_eqb_neq. tauto.
  - apply NoDup_filter; assumption.
Qed.

Lemma record_lower_case (word : jsstring) (l : list jsstring) :
  Forall lower_case l -> Forall lower_case (record word l).
Proof.
  intros H. unfold record. rewrite Forall_forall in *. intros x Hx.
  match type of Hx with In _ (firstn ?n ?l) =>
    assert (Hin : In x l)
      by (rewrite <- (firstn_skipn n l); apply in_or_app; left; exact Hx)
  end.
  destruct Hin as [<- | Hin].
  - apply CaseFacts.toLowerCase_idem.
  - apply filter_In in Hin. apply H, Hin.
Qed.

Lemma lower_case_distinct (l : list jsstring) :
  Forall lower_case l -> NoDup l -> distinct_up_to_case l.
Proof.
  intros Hl Hn. unfold distinct_up_to_case.
  replace (map toLowerCase l) with l; [assumption|].
  induction Hl as [|x l Hx _ IH]; [reflexivity|].
  inversion_clear Hn. cbn [map]. rewrite Hx, <- IH by assumption. reflexivity.
Qed.

(** A reachable store holds a duplicate-free sequence of at most five
    lower-case strings. *)
Lemma reachable_holds (stored : option jsstring) :
  reachable stored ->
  exists l, holds stored l /\ NoDup l /\ Forall lower_case l
            /\ (List.length l <= 5)%nat.
Proof.
  induction 1 as [|w word _ (l & Hl & Hn & Hc & _)].
  - exists []. repeat split; [left; auto | constructor | constructor | simpl; lia].
  - exists (record word l). unfold exec.
    rewrite (updateHistory_holds _ _ _ Hl). cbn [snd localStorage].
    repeat split;
      [right; reflexivity | apply record_NoDup | apply record_lower_case
       | apply record_length]; assumption.
Qed.

End HistoryFacts.

(* ===================================================================== *)
(** ** Facts about the handlers *)
(* ===================================================================== *)

Module HandlerFacts.

Import JS Page Notions JSFacts HistoryFacts.
Local Open Scope page_scope.

Lemma same_outside_refl (w : World) : same_outside_history w w.
Proof. repeat split. Qed.

Lemma same_outside_trans (w1 w2 w3 : World) :
  same_outside_history w1 w2 -> same_outside_history w2 w3 ->
  same_outside_history w1 w3.
Proof.
  unfold same_outside_history. intuition congruence.
Qed.

Lemma appendItems_frame (items : list JSON) (w : World) :
  same_outside_history w (snd (appendItems items w)).
Proof.
  revert w. induction items as [|x items IH]; intros w; cbn [appendItems].
  - apply same_outside_refl.
  - destruct (to_string_ok x); [|apply same_outside_refl].
    unfold bind, update. cbv beta iota.
    eapply same_outside_trans; [|apply IH].
    destruct w as [[] ? ? ?]. repeat split.
Qed.

Lemma renderHistory_frame (w : World) :
  same_outside_history w (snd (renderHistory w)).
Proof.
  unfold renderHistory, bind. rewrite load_eq.
  destruct (JSON_parse (stored_or_default (localStorage w))) as [history|];
    [|apply same_outside_refl].
  assert (H : forall b items,
             same_outside_history w
               (snd (appendItems items
                       (with_dom (set_historyList [])
                          (with_dom (set_historySection_hidden b) w))))).
  { intros b items. eapply same_outside_trans; [|apply appendItems_frame].
    destruct w as [[] ? ? ?]. repeat split. }
  destruct history; cbn [length_is_zero];
    repeat match goal with
           | |- context [if ?c then _ else _] => destruct c
           | |- context [match ?l with [] => _ | _ :: _ => _ end] => destruct l
           end;
    unfold update, throw; cbv beta iota; cbn [snd];
    try apply H;
    try (destruct w as [[] ? ? ?]; repeat split).
Qed.

Lemma updateHistory_frame (word : jsstring) (w : World) :
  same_outside_history w (snd (updateHistory word w)).
Proof.
  unfold updateHistory, bind. rewrite load_eq.
  destruct (JSON_parse (stored_or_default (localStorage w))) as [history|];
    [|apply same_outside_refl].
  destruct history; try apply same_outside_refl.
  unfold setItem, update. cbv beta iota.
  eapply same_outside_trans; [|apply renderHistory_frame].
  repeat split.
Qed.


(** *** Structured mode *)

Lemma structured_resume_fulfilled (word : jsstring) (r : Response) (w : World) :
  exec (Structured.resume word (Fulfilled r)) w
  = match updateHistory word w with
    | (Normal _, w1) =>
        match JSON_parse (ToString (text r)) with
        | Some data =>
            match Structured.render word data with
            | Some view => shown (Entry view) w1
            | None => structured_failed w1
            end
        | None => structured_failed w1
        end
    | (Throw, w1) => structured_failed w1
    end.
Proof.
  unfold exec, Structured.resume, try_catch_finally, Structured.on_response, bind.
  destruct (updateHistory word w) as [[[]|] w1]; [|reflexivity].
  destruct (JSON_parse (ToString (text r))) as [data|]; [|reflexivity].
  unfold lift at 1, ret. cbv beta iota.
  destruct (Structured.render word data); reflexivity.
Qed.

Lemma structured_resume_rejected (word : jsstring) (w : World) :
  exec (Structured.resume word Rejected) w = structured_failed w.
Proof. reflexivity. Qed.

Lemma structured_failed_in_error (w : World) :
  in_error Structured.msg_failed (structured_failed w)
  /\ wordOfTheDaySection_hidden (dom (structured_failed w)) = false
  /\ loader_hidden (dom (structured_failed w)) = true
  /\ localStorage (structured_failed w) = localStorage w
  /\ requests (structured_failed w) = requests w.
Proof. destruct w as [[] ? ? ?]. repeat split. Qed.

Lemma structured_render_heading (word : jsstring) (data : JSON) (view : EntryView) :
  Structured.render word data = Some view -> ev_heading view = word.
Proof.
  unfold Structured.render.
  repeat match goal with
         | |- match ?c with Some _ => _ | None => _ end = Some _ -> _ =>
             destruct c; [|discriminate]
         end.
  intros [= <-]. reflexivity.
Qed.

Lemma structured_render_definition (word : jsstring) (data : JSON) (view : EntryView) :
  Structured.render word data = Some view ->
  Structured.slot data "definition" = Some (ev_definition view).
Proof.
  unfold Structured.render.
  repeat match goal with
         | |- match ?c with Some _ => _ | None => _ end = Some _ -> _ =>
             destruct c; [|discriminate]
         end.
  intros [= <-]. reflexivity.
Qed.

(** *** Grounded-text mode *)

Lemma grounded_resume_fulfilled (word : jsstring) (r : Response) (w : World) :
  exec (Grounded.resume word (Fulfilled r)) w
  = match updateHistory word w with
    | (Normal _, w1) =>
        match Grounded.render word r with
        | Some view => shown (Grounded view) w1
        | None => grounded_failed w1
        end
    | (Throw, w1) => grounded_failed w1
    end.
Proof.
  unfold exec, Grounded.resume, try_catch_finally, Grounded.on_response, bind.
  destruct (updateHistory word w) as [[[]|] w1]; [|reflexivity].
  destruct (Grounded.render word r); reflexivity.
Qed.

Lemma grounded_render_text (word : jsstring) (r : Response) :
  Grounded.render word r
  = option_map (fun t => {| gv_heading := word;
                            gv_definition := replace_newlines t;
                            gv_sources := Grounded.sources (groundingChunks r) |})
               (text r).
Proof. unfold Grounded.render. destruct (text r); reflexivity. Qed.

Lemma grounded_render_heading (word : jsstring) (r : Response) (view : GroundedView) :
  Grounded.render word r = Some view -> gv_heading view = word.
Proof.
  unfold Grounded.render. destruct (text r); [|discriminate].
  intros [= <-]. reflexivity.
Qed.

Lemma grounded_resume_rejected (word : jsstring) (w : World) :
  exec (Grounded.resume word Rejected) w = grounded_failed w.
Proof. reflexivity. Qed.

Lemma grounded_failed_in_error (w : World) :
  in_error Grounded.msg_failed (grounded_failed w)
  /\ loader_hidden (dom (grounded_failed w)) = true
  /\ localStorage (grounded_failed w) = localStorage w
  /\ requests (grounded_failed w) = requests w.
Proof. destruct w as [[] ? ? ?]. repeat split. Qed.

(** After the service call of a lookup settles, the page shows the word of
    that lookup or the failure banner. *)
Lemma structured_resume_shows (word : jsstring) (s : Settlement) (w : World) :
  heading (exec (Structured.resume word s) w) = Some word
  \/ in_error Structured.msg_failed (exec (Structured.resume word s) w).
Proof.
  destruct s as [r|].
  - rewrite structured_resume_fulfilled.
    destruct (updateHistory word w) as [[[]|] w1];
      [|right; apply structured_failed_in_error].
    destruct (JSON_parse (ToString (text r))) as [data|];
      [|right; apply structured_failed_in_error].
    destruct (Structured.render word data) as [view|] eqn:E;
      [|right; apply structured_failed_in_error].
    left. unfold heading, shown. cbn.
    f_equal. eapply structured_render_heading, E.
  - right. apply structured_failed_in_error.
Qed.

Lemma grounded_resume_shows (word : jsstring) (s : Settlement) (w : World) :
  heading (exec (Grounded.resume word s) w) = Some word
  \/ in_error Grounded.msg_failed (exec (Grounded.resume word s) w).
Proof.
  destruct s as [r|].
  - rewrite grounded_resume_fulfilled.
    destruct (updateHistory word w) as [[[]|] w1];
      [|right; apply grounded_failed_in_error].
    destruct (Grounded.render word r) as [view|] eqn:E;
      [|right; apply grounded_failed_in_error].
    left. unfold heading, shown. cbn.
    f_equal. eapply grounded_render_heading, E.
  - right. apply grounded_failed_in_error.
Qed.

(** The three ways a submit goes, in either version. *)
Lemma structured_submit_empty (w : World) :
  trim (searchInput_value (dom w)) = [] ->
  Structured.submit w = (Normal None, exec (Structured.showError Structured.msg_empty) w).
Proof.
  intros H. unfold Structured.submit, bind, read. cbv beta iota. rewrite H.
  reflexivity.
Qed.

Lemma structured_submit_uninitialized (w : World) :
  trim (searchInput_value (dom w)) <> [] -> ai w = false ->
  Structured.submit w
  = (Normal None, exec (Structured.showError Structured.msg_uninitialized) w).
Proof.
  intros H Hai. unfold Structured.submit, bind, read. cbv beta iota.
  destruct (trim (searchInput_value (dom w))); [congruence|].
  rewrite Hai. reflexivity.
Qed.

Lemma structured_submit_started (w : World) :
  trim (searchInput_value (dom w)) <> [] -> ai w = true ->
  Structured.submit w
  = (Normal (Some (trim (searchInput_value (dom w)))),
     {| dom := set_errorContainer_hidden true
                 (set_resultsContainer NoResults
                    (set_loader_hidden false
                       (set_wordOfTheDaySection_hidden true (dom w))));
        localStorage := localStorage w; ai := true;
        requests := Structured.request (trim (searchInput_value (dom w)))
                    :: requests w |}).
Proof.
  intros H Hai. unfold Structured.submit, bind, read. cbv beta iota.
  destruct (trim (searchInput_value (dom w))); [congruence|].
  rewrite Hai. destruct w as [[] ? ? ?]. simpl in Hai. subst. reflexivity.
Qed.

Lemma grounded_submit_empty (w : World) :
  trim (searchInput_value (dom w)) = [] ->
  Grounded.submit w = (Normal None, exec (Grounded.showError Grounded.msg_empty) w).
Proof.
  intros H. unfold Grounded.submit, bind, read. cbv beta iota. rewrite H.
  reflexivity.
Qed.

Lemma grounded_submit_uninitialized (w : World) :
  trim (searchInput_value (dom w)) <> [] -> ai w = false ->
  Grounded.submit w
  = (Normal None, exec (Grounded.showError Grounded.msg_uninitialized) w).
Proof.
  intros H Hai. unfold Grounded.submit, bind, read. cbv beta iota.
  destruct (trim (searchInput_value (dom w))); [congruence|].
  rewrite Hai. reflexivity.
Qed.

Lemma grounded_submit_started (w : World) :
  trim (searchInput_value (dom w)) <> [] -> ai w = true ->
  Grounded.submit w
  = (Normal (Some (trim (searchInput_value (dom w)))),
     {| dom := set_errorContainer_hidden true
                 (set_resultsContainer NoResults
                    (set_loader_hidden false (dom w)));
        localStorage := localStorage w; ai := true;
        requests := Grounded.request (trim (searchInput_value (dom w)))
                    :: requests w |}).
Proof.
  intros H Hai. unfold Grounded.submit, bind, read. cbv beta iota.
  destruct (trim (searchInput_value (dom w))); [congruence|].
  rewrite Hai. destruct w as [[] ? ? ?]. simpl in Hai. subst. reflexivity.
Qed.

End HandlerFacts.

(* ===================================================================== *)
(** ** Facts about the sources list and the definition text *)
(* ===================================================================== *)

Module GroundedFacts.

Import JS Page Notions JSFacts.
Local Open Scope N_scope.

Lemma uri_eqb_eq (a b : option jsstring) : Grounded.uri_eqb a b = true <-> a = b.
Proof.
  destruct a as [x|], b as [y|]; simpl; try (split; congruence).
  rewrite str_eqb_eq. split; congruence.
Qed.

Lemma has_In (seen : list (option jsstring)) (u : option jsstring) :
  Grounded.has seen u = true <-> In u seen.
Proof.
  unfold Grounded.has. rewrite existsb_exists. split.
  - intros (x & Hx & E). apply uri_eqb_eq in E. subst. assumption.
  - intros H. exists u. split; [assumption | apply uri_eqb_eq; reflexivity].
Qed.

Lemma filter_filter {A} (p q : A -> bool) (l : list A) :
  filter p (filter q l) = filter (fun x => q x && p x) l.
Proof.
  induction l as [|x l IH]; [reflexivity|]. simpl.
  destruct (q x); simpl; [destruct (p x)|]; rewrite IH; reflexivity.
Qed.

(** The loop with its set of seen URIs computes the deduplication of the
    specification, restricted to the URIs not seen before the loop. *)
Lemma collect_refines (chunks : list Chunk) :
  forall seen,
    Grounded.collect chunks seen
    = map Grounded.link
        (filter (fun y => negb (Grounded.has seen (uri y)))
                (dedup_by_uri_spec (web_sources chunks))).
Proof.
  induction chunks as [|chunk rest IH]; intros seen; [reflexivity|].
  cbn [Grounded.collect web_sources flat_map].
  fold (web_sources rest).
  destruct (web chunk) as [w0|]; [|apply IH].
  cbn [app dedup_by_uri_spec filter].
  destruct (Grounded.has seen (uri w0)) eqn:Hseen; cbn [negb].
  - rewrite IH, filter_filter. f_equal. apply filter_ext. intros y.
    destruct (Grounded.uri_eqb (uri y) (uri w0)) eqn:E; [|reflexivity].
    apply uri_eqb_eq in E. rewrite E, Hseen. reflexivity.
  - cbn [map]. f_equal. rewrite IH, filter_filter. f_equal.
    apply filter_ext. intros y. unfold Grounded.has. cbn [existsb].
    rewrite negb_orb. reflexivity.
Qed.

Lemma collect_is_dedup (chunks : list Chunk) :
  Grounded.collect chunks []
  = map Grounded.link (dedup_by_uri_spec (web_sources chunks)).
Proof.
  rewrite collect_refines. f_equal.
  induction (dedup_by_uri_spec (web_sources chunks)); [reflexivity|].
  cbn [filter Grounded.has existsb negb]. f_equal. assumption.
Qed.

Lemma map_link_href (l : list WebSource) :
  map sl_href (map Grounded.link l) = map uri l.
Proof. rewrite map_map. reflexivity. Qed.

Lemma dedup_subset (l : list WebSource) (x : WebSource) :
  In x (dedup_by_uri_spec l) -> In x l.
Proof.
  induction l as [|y l IH]; [auto|]. cbn [dedup_by_uri_spec].
  intros [<- | H]; [left; reflexivity|].
  right. apply IH. apply filter_In in H. apply H.
Qed.

(** No URI is listed twice. *)
Lemma dedup_NoDup (l : list WebSource) :
  NoDup (map uri (dedup_by_uri_spec l)).
Proof.
  induction l as [|x l IH]; [constructor|]. cbn [dedup_by_uri_spec map].
  constructor.
  - rewrite in_map_iff. intros (y & E & Hy).
    apply filter_In in Hy. destruct Hy as [_ Hy].
    apply negb_true_iff in Hy.
    assert (Grounded.uri_eqb (uri y) (uri x) = true) by (apply uri_eqb_eq; assumption).
    congruence.
  - clear -IH. induction (dedup_by_uri_spec l) as [|y d IHd]; [constructor|].
    cbn [filter]. cbn [map] in IH. inversion_clear IH.
    destruct (negb (Grounded.uri_eqb (uri y) (uri x))); [|auto].
    cbn [map]. constructor; [|auto].
    rewrite in_map_iff in *. intros (z & E & Hz).
    match goal with Hn : ~ _ |- _ => apply Hn end.
    exists z. split; [assumption|]. apply filter_In in Hz. apply Hz.
Qed.

(** No URI is lost. *)
Lemma dedup_complete (l : list WebSource) (x : WebSource) :
  In x l -> In (uri x) (map uri (dedup_by_uri_spec l)).
Proof.
  induction l as [|y l IH]; [auto|]. intros [-> | H]; cbn [dedup_by_uri_spec map].
  - left; reflexivity.
  - destruct (Grounded.uri_eqb (uri x) (uri y)) eqn:E.
    + left. apply uri_eqb_eq in E. congruence.
    + right. specialize (IH H). rewrite in_map_iff in *.
      destruct IH as (z & Ez & Hz). exists z. split; [assumption|].
      apply filter_In. split; [assumption|]. rewrite Ez, E. reflexivity.
Qed.

Lemma lines_nonempty (t : jsstring) : lines t <> [].
Proof.
  destruct t as [|c r]; cbn [lines]; [discriminate|].
  destruct (c =? 10); [discriminate|]. destruct (lines r); discriminate.
Qed.

(** Replacing the line feeds is joining the lines with line breaks. *)
Lemma replace_newlines_lines (t : jsstring) :
  replace_newlines t = join_br (lines t).
Proof.
  induction t as [|c r IH]; [reflexivity|].
  unfold replace_newlines in *. cbn [flat_map lines]. rewrite IH.
  pose proof (lines_nonempty r) as Hne.
  destruct (c =? 10).
  - destruct (lines r) as [|l ls]; [congruence|]. reflexivity.
  - destruct (lines r) as [|l ls]; [congruence|].
    destruct ls; reflexivity.
Qed.

Lemma replace_newlines_verbatim (t : jsstring) :
  ~ In 10 t -> replace_newlines t = t.
Proof.
  unfold replace_newlines. induction t as [|c r IH]; [reflexivity|].
  intros H. cbn [flat_map]. destruct (N.eqb_spec c 10) as [->|_].
  - exfalso. apply H. left; reflexivity.
  - cbn [app]. f_equal. apply IH. intros Hin. apply H. right; assumption.
Qed.

End GroundedFacts.

(* ===================================================================== *)
(** ** The properties of the specification *)
(* ===================================================================== *)

Import JS Page Notions JSFacts HistoryFacts HandlerFacts GroundedFacts.
Local Open Scope page_scope.

(** *** The recency history *)

(** C5.  For every word and every store the page can reach, [updateHistory]
    completes, and the history it leaves, as [load] reads it back, has no two
    entries equal up to case, has at most five entries, and has the
    lower-cased word at index 0.  Recording Run, then run, then RUN from an
    empty store leaves exactly the one entry run. *)
Theorem record_keeps_history_invariant (w : World) (word : jsstring) :
  reachable (localStorage w) ->
  (exists l : list jsstring,
      fst (updateHistory word w) = Normal tt
      /\ fst (load (exec (updateHistory word) w)) = Normal (strings l)
      /\ distinct_up_to_case l
      /\ (List.length l <= 5)%nat
      /\ nth_error l 0 = Some (toLowerCase word))
  /\ fst (load (exec (updateHistory (js "Run") ;; updateHistory (js "run") ;;
                      updateHistory (js "RUN")) (fresh true None)))
     = Normal (strings [js "run"]).
Proof.
  intros Hr. split; [|reflexivity].
  destruct (reachable_holds _ Hr) as (l0 & Hl & Hn & Hc & _).
  exists (record word l0). unfold exec.
  rewrite (updateHistory_holds _ _ _ Hl). cbn [fst snd].
  rewrite (load_holds _ (record word l0)) by (right; reflexivity).
  repeat split.
  - apply lower_case_distinct; [apply record_lower_case | apply record_NoDup];
      assumption.
  - apply record_length.
Qed.

Lemma record_keeps_history_invariant_witness :
  reachable (localStorage (fresh true None))
  /\ ((exists l : list jsstring,
          fst (updateHistory (js "Run") (fresh true None)) = Normal tt
          /\ fst (load (exec (updateHistory (js "Run")) (fresh true None)))
             = Normal (strings l)
          /\ distinct_up_to_case l
          /\ (List.length l <= 5)%nat
          /\ nth_error l 0 = Some (toLowerCase (js "Run")))
      /\ fst (load (exec (updateHistory (js "Run") ;; updateHistory (js "run") ;;
                          updateHistory (js "RUN")) (fresh true None)))
         = Normal (strings [js "run"])).
Proof.
  split; [exact reach_empty|].
  exact (record_keeps_history_invariant (fresh true None) (js "Run") reach_empty).
Defined.

(** A lookup whose service call is rejected leaves the store as it was, in
    both versions. *)
Lemma rejected_lookup_keeps_history (word : jsstring) (w : World) :
  localStorage (exec (Structured.resume word Rejected) w) = localStorage w
  /\ localStorage (exec (Grounded.resume word Rejected) w) = localStorage w.
Proof.
  rewrite structured_resume_rejected, grounded_resume_rejected.
  split; [apply structured_failed_in_error | apply grounded_failed_in_error].
Qed.

(** A reply that cannot be parsed ends the lookup in the failure banner
    after the word was recorded: on every reachable store, the store then
    holds the recorded history. *)
Lemma unparsable_reply_still_recorded (word : jsstring) (r : Response) (w : World) (l : list jsstring) :
  holds (localStorage w) l ->
  JSON_parse (ToString (text r)) = None ->
  in_error Structured.msg_failed (exec (Structured.resume word (Fulfilled r)) w)
  /\ localStorage (exec (Structured.resume word (Fulfilled r)) w)
     = Some (JSON_stringify (strings (record word l))).
Proof.
  intros Hl Hp. rewrite structured_resume_fulfilled.
  rewrite (updateHistory_holds _ _ _ Hl), Hp.
  split; [apply structured_failed_in_error|].
  etransitivity; [apply structured_failed_in_error | reflexivity].
Qed.

(** In grounded-text mode, on a store the page reaches, a lookup ends in
    the failure banner in two cases only.  Either the call was rejected, and
    the store is as it was; or the reply has no text, and the word was
    recorded before [response.text.replace] threw. *)
Lemma grounded_failed_lookup_cases (word : jsstring) (s : Settlement) (w : World) :
  reachable (localStorage w) ->
  in_error Grounded.msg_failed (exec (Grounded.resume word s) w) ->
  (s = Rejected /\ localStorage (exec (Grounded.resume word s) w) = localStorage w)
  \/ (exists r l,
         s = Fulfilled r /\ text r = None /\ holds (localStorage w) l
         /\ localStorage (exec (Grounded.resume word s) w)
            = Some (JSON_stringify (strings (record word l)))).
Proof.
  intros Hr He. destruct s as [r|];
    [right | left; split; [reflexivity | apply rejected_lookup_keeps_history]].
  revert He. rewrite grounded_resume_fulfilled, grounded_render_text.
  destruct (reachable_holds _ Hr) as (l & Hl & _).
  rewrite (updateHistory_holds _ _ _ Hl).
  destruct (text r) as [t|] eqn:Et; cbn [option_map].
  - intros (He & _). discriminate He.
  - intros _. exists r, l. split; [reflexivity|]. split; [exact Et|].
    split; [exact Hl|].
    etransitivity; [apply grounded_failed_in_error | reflexivity].
Qed.

(** C1.  The lookup of run, from an empty store, answered by the text
    [not json]: the lookup ends in the failure banner, and the store, empty
    before, now holds run.  The history is written before the reply is
    parsed. *)
Theorem history_written_before_reply_parsed :
  let final :=
    Structured.run (idle (fresh true None))
                   [Submit (js "run"); Settle 0 (reply (js "not json"))] in
  JSON_parse (js "not json") = None
  /\ in_error Structured.msg_failed (world final)
  /\ localStorage (fresh true None) = None
  /\ localStorage (world final) = Some (jsq "['run']").
Proof. vm_compute. repeat split. Qed.




(** *** Replies in structured mode *)

(** C2, as stated, fails: the reply above parses, has no [definition], and
    is rendered; the banner stays hidden and the definition slot holds
    [undefined]. *)
Lemma missing_definition_is_rendered :
  let w := exec (Structured.resume (js "run") (reply reply_without_definition))
                (fresh true None) in
  (exists data, JSON_parse reply_without_definition = Some data
                /\ get_field data (js "definition") = Some None)
  /\ (exists view, resultsContainer (dom w) = Entry view
                   /\ ev_definition view = None)
  /\ errorContainer_hidden (dom w) = true.
Proof.
  vm_compute. repeat split; eexists; split; reflexivity.
Qed.

(** A lookup from submit to fulfilled call, in structured mode, on an idle
    page whose store holds strings. *)
Lemma structured_run_result
  (w : World) (l : list jsstring) (typed : jsstring) (r : Response) :
  holds (localStorage w) l ->
  ai w = true ->
  trim typed <> [] ->
  let final := Structured.run (idle w) [Submit typed; Settle 0 (Fulfilled r)] in
  match JSON_parse (ToString (text r)) with
  | Some data =>
      match Structured.render (trim typed) data with
      | Some view =>
          resultsContainer (dom (world final)) = Entry view
          /\ errorContainer_hidden (dom (world final)) = true
      | None => in_error Structured.msg_failed (world final)
      end
  | None => in_error Structured.msg_failed (world final)
  end
  /\ loader_hidden (dom (world final)) = true
  /\ holds (localStorage (world final)) (record (trim typed) l)
  /\ suspended final = [].
Proof.
  intros Hl Hai Ht. destruct w as [[] stored client sent].
  cbn [ai localStorage] in Hl, Hai. subst client.
  cbv zeta. unfold Structured.run, run, idle. cbn [fold_left].
  match goal with
  | |- context [step Structured.submit Structured.resume ?s0 (Submit typed)] =>
      assert (Es : step Structured.submit Structured.resume s0 (Submit typed)
                   = {| world :=
                          {| dom :=
                               {| resultsContainer := NoResults;
                                  loader_hidden := false;
                                  errorContainer_text := errorContainer_text0;
                                  errorContainer_hidden := true;
                                  wordOfTheDaySection_hidden := true;
                                  historySection_hidden := historySection_hidden0;
                                  historyList := historyList0;
                                  searchInput_value := typed |};
                             localStorage := stored; ai := true;
                             requests := Structured.request (trim typed) :: sent |};
                        suspended := [(0%nat, trim typed)]; calls := 1 |})
  end.
  { unfold step. cbn [world].
    rewrite structured_submit_started; [reflexivity | exact Ht | reflexivity]. }
  rewrite Es. unfold step. cbn [suspended take_call Nat.eqb world calls].
  rewrite structured_resume_fulfilled.
  rewrite (updateHistory_holds (trim typed) _ l) by exact Hl.
  destruct (JSON_parse (ToString (text r))) as [data|];
    [destruct (Structured.render (trim typed) data) as [view|]|].
  - split; [split; reflexivity|]. split; [reflexivity|].
    split; [right; reflexivity | reflexivity].
  - split; [repeat split|]. split; [reflexivity|].
    split; [right; reflexivity | reflexivity].
  - split; [repeat split|]. split; [reflexivity|].
    split; [right; reflexivity | reflexivity].
Qed.

(** C2, amended.  In structured mode a reply is not checked against the
    schema: [JSON.parse] and the template are the only checks.  The lookup
    ends in the failure banner when the text of the reply is no JSON (a
    reply without text included), when the template throws on the parsed
    value, or when [updateHistory] throws on a store it cannot use.
    Otherwise the entry is shown, the banner is left as it was when the
    call settled, and the definition slot holds whatever [data.definition]
    is, [undefined] when the field is missing.  For a lookup run from an
    idle page on a store of strings, the banner is then hidden. *)
Theorem reply_is_not_checked_against_the_schema
  (word : jsstring) (r : Response) (w : World) :
  (JSON_parse (ToString (text r)) = None ->
   in_error Structured.msg_failed (exec (Structured.resume word (Fulfilled r)) w))
  /\ (forall data,
         JSON_parse (ToString (text r)) = Some data ->
         Structured.render word data = None ->
         in_error Structured.msg_failed (exec (Structured.resume word (Fulfilled r)) w))
  /\ (fst (updateHistory word w) = Throw ->
      in_error Structured.msg_failed (exec (Structured.resume word (Fulfilled r)) w))
  /\ (forall data view,
         JSON_parse (ToString (text r)) = Some data ->
         Structured.render word data = Some view ->
         fst (updateHistory word w) = Normal tt ->
         resultsContainer (dom (exec (Structured.resume word (Fulfilled r)) w))
         = Entry view
         /\ errorContainer_hidden (dom (exec (Structured.resume word (Fulfilled r)) w))
            = errorContainer_hidden (dom w)
         /\ get_field data (js "definition") = Some (ev_definition view)
         /\ (get_field data (js "definition") = Some None ->
             ev_definition view = None))
  /\ (forall typed l data view,
         trim typed = word -> word <> [] ->
         holds (localStorage w) l -> ai w = true ->
         JSON_parse (ToString (text r)) = Some data ->
         Structured.render word data = Some view ->
         let final := Structured.run (idle w) [Submit typed; Settle 0 (Fulfilled r)] in
         resultsContainer (dom (world final)) = Entry view
         /\ errorContainer_hidden (dom (world final)) = true).
Proof.
  split; [|split; [|split; [|split]]].
  - intros Hp. rewrite structured_resume_fulfilled, Hp.
    destruct (updateHistory word w) as [[[]|] w1]; apply structured_failed_in_error.
  - intros data Hp Hv. rewrite structured_resume_fulfilled, Hp, Hv.
    destruct (updateHistory word w) as [[[]|] w1]; apply structured_failed_in_error.
  - intros Hu. rewrite structured_resume_fulfilled.
    destruct (updateHistory word w) as [[[]|] w1]; [discriminate|].
    apply structured_failed_in_error.
  - intros data view Hp Hv Hu. rewrite structured_resume_fulfilled, Hp, Hv.
    pose proof (updateHistory_frame word w) as Hf.
    destruct (updateHistory word w) as [[[]|] w1]; [|discriminate].
    cbn [snd] in Hf. destruct Hf as (_ & _ & _ & Hh & _).
    pose proof (structured_render_definition _ _ _ Hv) as Hd.
    unfold Structured.slot in Hd.
    assert (Hg : get_field data (js "definition") = Some (ev_definition view)).
    { destruct (get_field data (js "definition")) as [x|]; [|discriminate].
      unfold Structured.interpolate in Hd.
      destruct x as [v|]; [destruct (to_string_ok v)|]; congruence. }
    repeat split; [exact Hh | exact Hg | congruence].
  - intros typed l data view Et Hne Hl Hai Hp Hv.
    assert (Ht : trim typed <> []) by (rewrite Et; exact Hne).
    pose proof (structured_run_result w l typed r Hl Hai Ht) as T.
    cbv zeta in *. rewrite Hp, Et, Hv in T. apply T.
Qed.

Lemma reply_is_not_checked_against_the_schema_witness :
  let bare :=
    Entry {| ev_heading := js "run"; ev_compliment := None;
             ev_definition := None; ev_firstExample := None;
             ev_detailsHidden := true; ev_pronunciation := None;
             ev_partOfSpeech := None; ev_synonyms := None;
             ev_antonyms := None; ev_etymology := None;
             ev_moreExamples := None |} in
  let final := Structured.run (idle (fresh true None))
                 [Submit (js " run "); Settle 0 (reply (js "{}"))] in
  in_error Structured.msg_failed
    (exec (Structured.resume (js "run") (reply (js "not json"))) (fresh true None))
  /\ in_error Structured.msg_failed
       (exec (Structured.resume (js "run")
                (Fulfilled {| text := None; groundingChunks := None |}))
             (fresh true None))
  /\ in_error Structured.msg_failed
       (exec (Structured.resume (js "run") (reply (js "null"))) (fresh true None))
  /\ in_error Structured.msg_failed
       (exec (Structured.resume (js "run") (reply (js "{}")))
             (fresh true (Some (js "oops"))))
  /\ resultsContainer
       (dom (exec (Structured.resume (js "run") (reply (js "{}"))) (fresh true None)))
     = bare
  /\ resultsContainer (dom (world final)) = bare
  /\ errorContainer_hidden (dom (world final)) = true.
Proof.
  intros bare final.
  split; [|split; [|split; [|split; [|split]]]].
  - apply (proj1 (reply_is_not_checked_against_the_schema
                    (js "run") {| text := Some (js "not json"); groundingChunks := None |}
                    (fresh true None))).
    reflexivity.
  - apply (proj1 (reply_is_not_checked_against_the_schema
                    (js "run") {| text := None; groundingChunks := None |}
                    (fresh true None))).
    reflexivity.
  - apply (proj1 (proj2 (reply_is_not_checked_against_the_schema
                    (js "run") {| text := Some (js "null"); groundingChunks := None |}
                    (fresh true None))) JNull); reflexivity.
  - apply (proj1 (proj2 (proj2 (reply_is_not_checked_against_the_schema
                    (js "run") {| text := Some (js "{}"); groundingChunks := None |}
                    (fresh true (Some (js "oops"))))))).
    reflexivity.
  - apply (proj1 (proj2 (proj2 (proj2 (reply_is_not_checked_against_the_schema
                    (js "run") {| text := Some (js "{}"); groundingChunks := None |}
                    (fresh true None))))) (JObject [])); reflexivity.
  - apply (proj2 (proj2 (proj2 (proj2 (reply_is_not_checked_against_the_schema
                    (js "run") {| text := Some (js "{}"); groundingChunks := None |}
                    (fresh true None))))) (js " run ") [] (JObject []));
      try reflexivity; [discriminate | left; split; reflexivity].
Defined.

(** *** Submitting *)



(** C10.  When the client could not be constructed at start-up, submitting
    a query that is not empty once trimmed shows the fixed message, sends no
    request, suspends no handler and leaves the store as it was, in both
    versions. *)
Theorem uninitialized_client_shows_error_without_call (sys : System) (typed : jsstring) :
  ai (world sys) = false ->
  trim typed <> [] ->
  (let sys' := Structured.step sys (Submit typed) in
   in_error Structured.msg_uninitialized (world sys')
   /\ requests (world sys') = requests (world sys)
   /\ suspended sys' = suspended sys
   /\ localStorage (world sys') = localStorage (world sys))
  /\ (let sys' := Grounded.step sys (Submit typed) in
      in_error Grounded.msg_uninitialized (world sys')
      /\ requests (world sys') = requests (world sys)
      /\ suspended sys' = suspended sys
      /\ localStorage (world sys') = localStorage (world sys)).
Proof.
  intros Hai Ht. unfold Structured.step, Grounded.step, step.
  rewrite structured_submit_uninitialized, grounded_submit_uninitialized
    by (destruct sys as [[[] ? ? ?] ? ?]; assumption).
  destruct sys as [[[] ? ? ?] ? ?]. repeat split.
Qed.

Lemma uninitialized_client_shows_error_without_call_witness :
  ai (world (idle (fresh false (Some (jsq "['run']"))))) = false
  /\ trim (js " walk ") <> []
  /\ (let sys' := Structured.step (idle (fresh false (Some (jsq "['run']"))))
                                  (Submit (js " walk ")) in
      in_error Structured.msg_uninitialized (world sys')
      /\ requests (world sys') = []
      /\ suspended sys' = []
      /\ localStorage (world sys') = Some (jsq "['run']"))
  /\ (let sys' := Grounded.step (idle (fresh false (Some (jsq "['run']"))))
                                (Submit (js " walk ")) in
      in_error Grounded.msg_uninitialized (world sys')
      /\ requests (world sys') = []
      /\ suspended sys' = []
      /\ localStorage (world sys') = Some (jsq "['run']")).
Proof.
  split; [reflexivity|]. split; [discriminate|].
  apply (uninitialized_client_shows_error_without_call
           (idle (fresh false (Some (jsq "['run']")))) (js " walk ")).
  - reflexivity.
  - discriminate.
Defined.

(** The word a suspended handler holds is the trimmed text of the input. *)
Lemma submit_holds_trimmed (w : World) (word : jsstring) (w1 : World) :
  (Structured.submit w = (Normal (Some word), w1) ->
   word = trim (searchInput_value (dom w)))
  /\ (Grounded.submit w = (Normal (Some word), w1) ->
      word = trim (searchInput_value (dom w))).
Proof.
  destruct (trim (searchInput_value (dom w))) as [|c t] eqn:Ht.
  - rewrite structured_submit_empty, grounded_submit_empty by assumption.
    split; discriminate.
  - assert (Hne : trim (searchInput_value (dom w)) <> []) by congruence.
    destruct (ai w) eqn:Hai.
    + rewrite structured_submit_started, grounded_submit_started by assumption.
      rewrite Ht. split; congruence.
    + rewrite structured_submit_uninitialized, grounded_submit_uninitialized
        by assumption.
      split; discriminate.
Qed.

(** C8.  Whenever a lookup succeeds, the heading shown is the text the user
    typed, trimmed and in its original case, whatever the reply holds and
    whatever happened to the page while the handler was suspended; in both
    versions. *)
Theorem heading_is_the_trimmed_query
  (w : World) (typed : jsstring) (s : Settlement) (word : jsstring) (w1 w2 : World) (h : jsstring) :
  (Structured.submit (with_dom (set_searchInput_value typed) w) = (Normal (Some word), w1) ->
   heading (exec (Structured.resume word s) w2) = Some h ->
   h = trim typed)
  /\ (Grounded.submit (with_dom (set_searchInput_value typed) w) = (Normal (Some word), w1) ->
      heading (exec (Grounded.resume word s) w2) = Some h ->
      h = trim typed).
Proof.
  assert (Hin : searchInput_value (dom (with_dom (set_searchInput_value typed) w)) = typed)
    by (destruct w as [[] ? ? ?]; reflexivity).
  split; intros Hs Hh.
  - apply submit_holds_trimmed in Hs. rewrite Hin in Hs. subst word.
    destruct (structured_resume_shows (trim typed) s w2) as [H | (H & _)].
    + congruence.
    + unfold heading in Hh. rewrite H in Hh. discriminate.
  - apply submit_holds_trimmed in Hs. rewrite Hin in Hs. subst word.
    destruct (grounded_resume_shows (trim typed) s w2) as [H | (H & _)].
    + congruence.
    + unfold heading in Hh. rewrite H in Hh. discriminate.
Qed.

Lemma heading_is_the_trimmed_query_witness :
  let w := fresh true None in
  let typed := js "  Resilience " in
  let s := reply (jsq "{'word':'resilient','definition':'d'}") in
  let w1 := snd (Structured.submit (with_dom (set_searchInput_value typed) w)) in
  let g1 := snd (Grounded.submit (with_dom (set_searchInput_value typed) w)) in
  (Structured.submit (with_dom (set_searchInput_value typed) w)
   = (Normal (Some (js "Resilience")), w1)
   /\ heading (exec (Structured.resume (js "Resilience") s) w1) = Some (js "Resilience")
   /\ js "Resilience" = trim typed)
  /\ (Grounded.submit (with_dom (set_searchInput_value typed) w)
      = (Normal (Some (js "Resilience")), g1)
      /\ heading (exec (Grounded.resume (js "Resilience") s) g1) = Some (js "Resilience")
      /\ js "Resilience" = trim typed).
Proof.
  intros w typed s w1 g1.
  split.
  - split; [reflexivity|]. split; [reflexivity|].
    apply (proj1 (heading_is_the_trimmed_query
                    w typed s (js "Resilience") w1 w1 (js "Resilience")));
      reflexivity.
  - split; [reflexivity|]. split; [reflexivity|].
    apply (proj2 (heading_is_the_trimmed_query
                    w typed s (js "Resilience") g1 g1 (js "Resilience")));
      reflexivity.
Defined.

(** *** The word-of-the-day section *)



(** *** Two lookups in flight *)

Lemma structured_step_submit (sys : System) (typed : jsstring) :
  ai (world sys) = true -> trim typed <> [] ->
  exists w1,
    Structured.step sys (Submit typed)
    = {| world := w1; suspended := suspended sys ++ [(calls sys, trim typed)];
         calls := S (calls sys) |}
    /\ ai w1 = true.
Proof.
  intros Hai Ht. unfold Structured.step, step.
  rewrite structured_submit_started
    by (destruct sys as [[[] ? ? ?] ? ?]; assumption).
  destruct sys as [[[] ? ? ?] ? ?]. eexists. split; reflexivity.
Qed.

Lemma grounded_step_submit (sys : System) (typed : jsstring) :
  ai (world sys) = true -> trim typed <> [] ->
  exists w1,
    Grounded.step sys (Submit typed)
    = {| world := w1; suspended := suspended sys ++ [(calls sys, trim typed)];
         calls := S (calls sys) |}
    /\ ai w1 = true.
Proof.
  intros Hai Ht. unfold Grounded.step, step.
  rewrite grounded_submit_started
    by (destruct sys as [[[] ? ? ?] ? ?]; assumption).
  destruct sys as [[[] ? ? ?] ? ?]. eexists. split; reflexivity.
Qed.

(** C4, as stated, fails: alpha is looked up, then beta; beta's reply
    arrives, then alpha's.  The page ends showing alpha, the superseded
    lookup, with the definition of alpha's reply. *)
Lemma late_reply_of_superseded_lookup_is_rendered :
  let final :=
    Structured.run (idle (fresh true None))
      [Submit (js "alpha"); Submit (js "beta");
       Settle 1 (reply (jsq "{'definition':'B'}"));
       Settle 0 (reply (jsq "{'definition':'A'}"))] in
  heading (world final) = Some (js "alpha")
  /\ heading (world final) <> Some (js "beta")
  /\ (exists view, resultsContainer (dom (world final)) = Entry view
                   /\ ev_definition view = Some (JString (js "A")))
  /\ errorContainer_hidden (dom (world final)) = true.
Proof.
  vm_compute. repeat split; [discriminate|]. eexists. split; reflexivity.
Qed.

(** C4, amended.  Neither version guards against a superseded lookup: when
    the call of a lookup settles, its entry or its failure is rendered,
    whether or not a newer lookup was started.  With A started and then B,
    the page ends on the lookup that settles last: A when B settles first, B
    when A settles first. *)
Theorem last_settled_lookup_is_rendered
  (w : World) (typedA typedB : jsstring) (sa sb : Settlement) :
  ai w = true -> trim typedA <> [] -> trim typedB <> [] ->
  (let final := Structured.run (idle w)
                  [Submit typedA; Submit typedB; Settle 1 sb; Settle 0 sa] in
   suspended final = []
   /\ (heading (world final) = Some (trim typedA)
       \/ in_error Structured.msg_failed (world final)))
  /\ (let final := Structured.run (idle w)
                     [Submit typedA; Submit typedB; Settle 0 sa; Settle 1 sb] in
      suspended final = []
      /\ (heading (world final) = Some (trim typedB)
          \/ in_error Structured.msg_failed (world final)))
  /\ (let final := Grounded.run (idle w)
                     [Submit typedA; Submit typedB; Settle 1 sb; Settle 0 sa] in
      suspended final = []
      /\ (heading (world final) = Some (trim typedA)
          \/ in_error Grounded.msg_failed (world final)))
  /\ (let final := Grounded.run (idle w)
                     [Submit typedA; Submit typedB; Settle 0 sa; Settle 1 sb] in
      suspended final = []
      /\ (heading (world final) = Some (trim typedB)
          \/ in_error Grounded.msg_failed (world final))).
Proof.
  intros Hai Ha Hb. cbv zeta.
  unfold Structured.run, Grounded.run, run. cbn [fold_left].
  destruct (structured_step_submit (idle w) typedA Hai Ha) as (s1 & E1 & Hai1).
  unfold Structured.step in E1. rewrite E1.
  destruct (structured_step_submit
              {| world := s1; suspended := [(0%nat, trim typedA)]; calls := 1 |}
              typedB Hai1 Hb) as (s2 & E2 & _).
  unfold Structured.step in E2. cbn [idle suspended calls app]. rewrite E2.
  destruct (grounded_step_submit (idle w) typedA Hai Ha) as (g1 & G1 & Hgi1).
  unfold Grounded.step in G1. rewrite G1.
  destruct (grounded_step_submit
              {| world := g1; suspended := [(0%nat, trim typedA)]; calls := 1 |}
              typedB Hgi1 Hb) as (g2 & G2 & _).
  unfold Grounded.step in G2. cbn [idle suspended calls app]. rewrite G2.
  cbn. repeat split;
    first [apply structured_resume_shows | apply grounded_resume_shows].
Qed.

Lemma last_settled_lookup_is_rendered_witness :
  let final :=
    Grounded.run (idle (fresh true None))
      [Submit (js "alpha"); Submit (js "beta");
       Settle 1 (reply (js "B")); Settle 0 (reply (js "A"))] in
  ai (fresh true None) = true
  /\ trim (js "alpha") <> [] /\ trim (js "beta") <> []
  /\ suspended final = []
  /\ (heading (world final) = Some (trim (js "alpha"))
      \/ in_error Grounded.msg_failed (world final)).
Proof.
  intros final.
  split; [reflexivity|]. split; [discriminate|]. split; [discriminate|].
  apply (last_settled_lookup_is_rendered
           (fresh true None) (js "alpha") (js "beta") (reply (js "A")) (reply (js "B"))).
  - reflexivity.
  - discriminate.
  - discriminate.
Defined.

(** *** Replies in grounded-text mode *)

(** C7, as stated, fails: a reply without text, here with a grounding
    chunk, is not turned into an entry.  Reading [response.text.replace]
    throws, the lookup ends in the failure banner, and neither a definition
    nor a source is shown. *)
Lemma reply_without_text_is_not_rendered :
  let r := {| text := None;
              groundingChunks := Some [cited "https://a.example" "A"] |} in
  let w := exec (Grounded.resume (js "ephemeral") (Fulfilled r)) (fresh true None) in
  Grounded.render (js "ephemeral") r = None
  /\ in_error Grounded.msg_failed w
  /\ heading w = None.
Proof. vm_compute. repeat split. Qed.

(** C7, amended.  In grounded-text mode the entry made of a reply that has
    text has that text as its definition, the line feeds turned into line
    breaks and nothing else changed; its sources are the web sources of the
    grounding chunks, deduplicated by URI with the first occurrence kept, in
    order, so that no URI is listed twice and none is lost; it has no other
    field.  That entry is what the page shows once the history is recorded.
    A reply without text makes no entry: the lookup ends in the failure
    banner. *)
Theorem grounded_reply_rendered_with_deduplicated_sources (word : jsstring) (r : Response) :
  (forall t, text r = Some t ->
     exists v,
       Grounded.render word r = Some v
       /\ gv_heading v = word
       /\ gv_definition v = join_br (lines t)
       /\ (~ In 10%N t -> gv_definition v = t)
       /\ gv_sources v
          = match groundingChunks r with
            | Some ((_ :: _) as chunks) =>
                Some (map Grounded.link (dedup_by_uri_spec (web_sources chunks)))
            | _ => None
            end
       /\ (forall chunks links,
              groundingChunks r = Some chunks -> gv_sources v = Some links ->
              NoDup (map sl_href links)
              /\ forall x, In x (web_sources chunks) -> In (uri x) (map sl_href links))
       /\ (forall w, fst (updateHistory word w) = Normal tt ->
                     resultsContainer (dom (exec (Grounded.resume word (Fulfilled r)) w))
                     = Grounded v))
  /\ (text r = None ->
      Grounded.render word r = None
      /\ forall w, in_error Grounded.msg_failed
                     (exec (Grounded.resume word (Fulfilled r)) w)).
Proof.
  split.
  - intros t Ht.
    assert (Hv : Grounded.render word r
                 = Some {| gv_heading := word;
                           gv_definition := replace_newlines t;
                           gv_sources := Grounded.sources (groundingChunks r) |})
      by (rewrite grounded_render_text, Ht; reflexivity).
    eexists. split; [exact Hv|]. cbn [gv_heading gv_definition gv_sources].
    assert (Hs : Grounded.sources (groundingChunks r)
                 = match groundingChunks r with
                   | Some ((_ :: _) as chunks) =>
                       Some (map Grounded.link (dedup_by_uri_spec (web_sources chunks)))
                   | _ => None
                   end).
    { unfold Grounded.sources.
      destruct (groundingChunks r) as [[|c cs]|]; try reflexivity.
      rewrite collect_is_dedup. reflexivity. }
    split; [reflexivity|].
    split; [apply replace_newlines_lines|].
    split; [apply replace_newlines_verbatim|].
    split; [exact Hs|]. split.
    + intros chunks links Hc Hl. rewrite Hs, Hc in Hl.
      destruct chunks as [|c cs]; [discriminate|].
      injection Hl as <-. rewrite map_link_href.
      split; [apply dedup_NoDup | apply dedup_complete].
    + intros w Hu. rewrite grounded_resume_fulfilled, Hv.
      destruct (updateHistory word w) as [[[]|] w1]; [reflexivity | discriminate].
  - intros Ht.
    assert (Hv : Grounded.render word r = None)
      by (rewrite grounded_render_text, Ht; reflexivity).
    split; [exact Hv|]. intros w. rewrite grounded_resume_fulfilled, Hv.
    destruct (updateHistory word w) as [[[]|] w1]; apply grounded_failed_in_error.
Qed.

Lemma grounded_reply_rendered_with_deduplicated_sources_witness :
  let w := exec (Grounded.resume (js "ephemeral") (Fulfilled sample_reply))
                (fresh true None) in
  (exists t, text sample_reply = Some t)
  /\ fst (updateHistory (js "ephemeral") (fresh true None)) = Normal tt
  /\ resultsContainer (dom w)
     = Grounded
         {| gv_heading := js "ephemeral";
            gv_definition :=
              js "**Definition**: lasting a short time.<br>Second line.";
            gv_sources :=
              Some [ {| sl_href := Some (js "https://a.example");
                        sl_text := Some (js "A") |};
                     {| sl_href := Some (js "https://b.example");
                        sl_text := Some (js "https://b.example") |} ] |}
  /\ localStorage w = Some (jsq "['ephemeral']")
  /\ in_error Grounded.msg_failed
       (exec (Grounded.resume (js "ephemeral")
                (Fulfilled {| text := None; groundingChunks := None |}))
             (fresh true None)).
Proof.
  intros w. split; [eexists; reflexivity|]. split; [reflexivity|].
  split; [|split; [reflexivity|]].
  - destruct (proj1 (grounded_reply_rendered_with_deduplicated_sources
                       (js "ephemeral") sample_reply) _ eq_refl)
      as (v & Hv & _ & _ & _ & _ & _ & Hw).
    unfold w. rewrite (Hw (fresh true None) eq_refl).
    injection Hv as <-. reflexivity.
  - apply (proj2 (grounded_reply_rendered_with_deduplicated_sources
                    (js "ephemeral") {| text := None; groundingChunks := None |})
                 eq_refl).
Defined.

(** The version of [src/unnamed/part_000] never touches the word-of-the-day
    section: neither a submit nor a settled call changes its flag. *)
Lemma grounded_leaves_word_of_the_day (w : World) (word : jsstring) (s : Settlement) :
  wordOfTheDaySection_hidden (dom (snd (Grounded.submit w)))
  = wordOfTheDaySection_hidden (dom w)
  /\ wordOfTheDaySection_hidden (dom (exec (Grounded.resume word s) w))
     = wordOfTheDaySection_hidden (dom w).
Proof.
  split.
  - destruct (trim (searchInput_value (dom w))) as [|c t] eqn:Ht.
    + rewrite grounded_submit_empty by assumption.
      destruct w as [[] ? ? ?]. reflexivity.
    + assert (Hne : trim (searchInput_value (dom w)) <> []) by congruence.
      destruct (ai w) eqn:Hai.
      * rewrite grounded_submit_started by assumption.
        destruct w as [[] ? ? ?]. reflexivity.
      * rewrite grounded_submit_uninitialized by assumption.
        destruct w as [[] ? ? ?]. reflexivity.
  - destruct s as [r|]; [|destruct w as [[] ? ? ?]; reflexivity].
    rewrite grounded_resume_fulfilled.
    pose proof (updateHistory_frame word w) as Hf.
    destruct (updateHistory word w) as [[[]|] w1]; cbn [snd] in Hf;
      destruct Hf as (_ & _ & _ & _ & Hw & _);
      [destruct (Grounded.render word r)|];
      destruct w1 as [[] ? ? ?]; exact Hw.
Qed.

(** *** The scenarios of the specification, run on the model *)

(** Six distinct words recorded in turn: five are kept, the oldest is gone,
    the latest comes first. *)
Example six_words_keep_five :
  localStorage
    (exec (updateHistory (js "one") ;; updateHistory (js "two") ;;
           updateHistory (js "three") ;; updateHistory (js "four") ;;
           updateHistory (js "five") ;; updateHistory (js "six"))
          (fresh true None))
  = Some (jsq "['six','five','four','three','two']").
Proof. reflexivity. Qed.

(** Recording a word twice leaves one entry, in front. *)
Example same_word_twice :
  localStorage
    (exec (updateHistory (js "one") ;; updateHistory (js "two") ;;
           updateHistory (js "One"))
          (fresh true None))
  = Some (jsq "['one','two']").
Proof. reflexivity. Qed.

(** Case is folded beyond the Latin letters: the capital omega and the
    small one make one entry. *)
Example capital_omega_recorded_once :
  localStorage
    (exec (updateHistory (0x3C9%N :: js "mega") ;;
           updateHistory (0x3A9%N :: js "MEGA"))
          (fresh true None))
  = Some (JSON_stringify (strings [0x3C9%N :: js "mega"])).
Proof. vm_compute. reflexivity. Qed.

(** Resilience in structured mode: the first example sentence is in the
    primary block, the second among the details, which start collapsed, and
    the empty antonyms give no block. *)
Example resilience_in_structured_mode :
  let final :=
    Structured.run (idle (fresh true None))
      [Submit (js "Resilience");
       Settle 0 (reply (jsq "{'definition':'d','synonyms':['toughness'],'antonyms':[],'exampleSentences':['first','second']}"))] in
  resultsContainer (dom (world final))
  = Entry {| ev_heading := js "Resilience";
             ev_compliment := None;
             ev_definition := Some (JString (js "d"));
             ev_firstExample := Some (Some (JString (js "first")));
             ev_detailsHidden := true;
             ev_pronunciation := None;
             ev_partOfSpeech := None;
             ev_synonyms := Some [JString (js "toughness")];
             ev_antonyms := None;
             ev_etymology := None;
             ev_moreExamples := Some [JString (js "second")] |}
  /\ localStorage (world final) = Some (jsq "['resilience']")
  /\ errorContainer_hidden (dom (world final)) = true
  /\ loader_hidden (dom (world final)) = true
  /\ wordOfTheDaySection_hidden (dom (world final)) = true.
Proof. vm_compute. repeat split. Qed.

(* ===================================================================== *)
(** ** Further facts: trimming, recording, rendering the history *)
(* ===================================================================== *)

Module TrimFacts.

Import JS Notions Vocabulary JSFacts.
Local Open Scope N_scope.

Lemma trimStart_idem (s : jsstring) : trimStart (trimStart s) = trimStart s.
Proof.
  induction s as [|c r IH]; [reflexivity|]. cbn [trimStart].
  destruct (is_space c) eqn:E; [exact IH|]. cbn [trimStart]. rewrite E. reflexivity.
Qed.

Lemma trimStart_head (s : jsstring) (c : N) (r : jsstring) :
  trimStart s = c :: r -> is_space c = false.
Proof.
  induction s as [|d s IH]; [discriminate|]. cbn [trimStart].
  destruct (is_space d) eqn:E; [exact IH|]. intros [= <- _]. exact E.
Qed.

Lemma trimStart_suffix (s : jsstring) : exists p, s = p ++ trimStart s.
Proof.
  induction s as [|c r (p & IH)]; [exists []; reflexivity|]. cbn [trimStart].
  destruct (is_space c).
  - exists (c :: p). cbn [app]. f_equal. exact IH.
  - exists []. reflexivity.
Qed.

Lemma trimStart_unspaced (c : N) (r : jsstring) :
  is_space c = false -> trimStart (c :: r) = c :: r.
Proof. intros E. cbn [trimStart]. rewrite E. reflexivity. Qed.

(** What [trim] returns has no white space at either end. *)
Lemma trimmed_trim (s : jsstring) : trimmed (trim s).
Proof.
  unfold trimmed, trim, trimEnd. split.
  - destruct (trimStart_suffix (rev (trimStart s))) as (p & Hp).
    remember (trimStart (rev (trimStart s))) as u eqn:Hu.
    destruct (rev u) as [|c r'] eqn:Er; [reflexivity|].
    apply trimStart_unspaced.
    apply (f_equal (@rev N)) in Hp. rewrite rev_involutive, rev_app_distr, Er in Hp.
    apply (trimStart_head s c (r' ++ rev p)). exact Hp.
  - rewrite rev_involutive. apply trimStart_idem.
Qed.

Lemma trim_trimmed (s : jsstring) : trimmed s -> trim s = s.
Proof.
  intros [H1 H2]. unfold trim, trimEnd. rewrite H1, H2. apply rev_involutive.
Qed.

Lemma trim_idem (s : jsstring) : trim (trim s) = trim s.
Proof. apply trim_trimmed, trimmed_trim. Qed.

Lemma trimmed_lower (s : jsstring) : trimmed s -> trimmed (toLowerCase s).
Proof. exact (CaseFacts.toLowerCase_ends s). Qed.

Lemma tidy_lower (word : jsstring) :
  word <> [] -> trimmed word -> tidy (toLowerCase word).
Proof.
  intros Hne Ht. repeat split.
  - apply CaseFacts.toLowerCase_nonempty, Hne.
  - apply trimmed_lower, Ht.
  - apply trimmed_lower, Ht.
  - apply CaseFacts.toLowerCase_idem.
Qed.

End TrimFacts.

Module RecordFacts.

Import JS Page Notions Vocabulary JSFacts HistoryFacts HandlerFacts.
Local Open Scope page_scope.

Lemma filter_all {A} (p : A -> bool) (l : list A) :
  Forall (fun x => p x = true) l -> filter p l = l.
Proof.
  induction 1 as [|x l Hx _ IH]; [reflexivity|]. cbn [filter].
  rewrite Hx, IH. reflexivity.
Qed.

Lemma firstn_Forall {A} (P : A -> Prop) (n : nat) (l : list A) :
  Forall P l -> Forall P (firstn n l).
Proof.
  intros H. rewrite Forall_forall in *. intros x Hx. apply H.
  rewrite <- (firstn_skipn n l). apply in_or_app. left. exact Hx.
Qed.

Lemma others_without (nw : jsstring) (l : list jsstring) :
  Forall (fun x => negb (str_eqb x nw) = true)
         (filter (fun item => negb (str_eqb item nw)) l).
Proof.
  rewrite Forall_forall. intros x Hx. apply filter_In in Hx. apply Hx.
Qed.

(** Recording a word again, in whatever case, changes nothing. *)
Lemma record_again (word word' : jsstring) (l : list jsstring) :
  toLowerCase word' = toLowerCase word ->
  record word' (record word l) = record word l.
Proof.
  intros E. unfold record. rewrite E.
  set (nw := toLowerCase word).
  set (others := filter (fun item => negb (str_eqb item nw)) l).
  change (firstn 5 (nw :: others)) with (nw :: firstn 4 others).
  cbn [filter]. rewrite str_eqb_refl. cbn [negb].
  rewrite filter_all by (apply firstn_Forall, others_without).
  change (firstn 5 (nw :: firstn 4 others)) with (nw :: firstn 4 (firstn 4 others)).
  rewrite firstn_firstn. reflexivity.
Qed.

Lemma filter_absent (nw : jsstring) (l : list jsstring) :
  ~ In nw l -> filter (fun item => negb (str_eqb item nw)) l = l.
Proof.
  intros H. apply filter_all. rewrite Forall_forall. intros x Hx.
  apply negb_true_iff, str_eqb_neq. intros ->. contradiction.
Qed.

Lemma filter_present_length (nw : jsstring) (l : list jsstring) :
  NoDup l -> In nw l ->
  S (List.length (filter (fun item => negb (str_eqb item nw)) l)) = List.length l.
Proof.
  induction 1 as [|x l Hx Hn IH]; [contradiction|]. intros [-> | Hin].
  - cbn [filter]. rewrite str_eqb_refl. cbn [negb List.length].
    rewrite filter_absent by assumption. reflexivity.
  - cbn [filter]. replace (str_eqb x nw) with false
      by (symmetry; apply str_eqb_neq; intros ->; contradiction).
    cbn [negb List.length]. rewrite IH by assumption. reflexivity.
Qed.

Lemma firstn_removelast {A} (l : list A) :
  l <> [] -> firstn (List.length l - 1) l = removelast l.
Proof.
  induction l as [|x l IH]; [congruence|]. intros _.
  destruct l as [|y l]; [reflexivity|].
  cbn [List.length removelast] in *.
  replace (S (S (List.length l)) - 1)%nat with (S (S (List.length l) - 1)) by lia.
  cbn [firstn]. f_equal. apply IH. discriminate.
Qed.

Lemma renderHistory_store (w : World) :
  localStorage (snd (renderHistory w)) = localStorage w.
Proof.
  assert (Ha : forall items v, localStorage (snd (appendItems items v)) = localStorage v).
  { induction items as [|x items IH]; intros v; cbn [appendItems]; [reflexivity|].
    destruct (to_string_ok x); [|reflexivity].
    unfold bind, update. cbv beta iota. rewrite IH. reflexivity. }
  unfold renderHistory, bind. rewrite load_eq.
  destruct (JSON_parse (stored_or_default (localStorage w))) as [history|];
    [|reflexivity].
  destruct history; cbn [length_is_zero];
    repeat match goal with
           | |- context [if ?c then _ else _] => destruct c
           | |- context [match ?l with [] => _ | _ :: _ => _ end] => destruct l
           end;
    unfold update, throw; cbv beta iota; cbn [snd];
    try rewrite Ha; reflexivity.
Qed.

(** [renderHistory] on a store of strings. *)
Lemma renderHistory_holds (w : World) (l : list jsstring) :
  holds (localStorage w) l ->
  renderHistory w
  = (Normal tt,
     match l with
     | [] => with_dom (set_historySection_hidden true) w
     | _ :: _ =>
         with_dom (fun d => set_historyList (map JString l)
                              (set_historySection_hidden false d)) w
     end).
Proof.
  intros H. unfold renderHistory, bind. rewrite (load_holds _ _ H).
  destruct l as [|x r].
  - reflexivity.
  - unfold strings. cbn [map length_is_zero]. unfold update. cbv beta iota.
    change (JString x :: map JString r) with (map JString (x :: r)).
    rewrite appendItems_strings. destruct w as [[] ? ? ?]. reflexivity.
Qed.

End RecordFacts.

(** *** What every sequence of actions keeps *)

Module LoopFacts.

Import JS Page Notions Shell Vocabulary JSFacts HistoryFacts HandlerFacts
       TrimFacts RecordFacts.
Local Open Scope page_scope.

Lemma take_call_Forall (P : nat * jsstring -> Prop) (call : nat)
      (l : list (nat * jsstring)) (word : jsstring) (rest : list (nat * jsstring)) :
  Forall P l -> take_call call l = Some (word, rest) ->
  P (call, word) /\ Forall P rest.
Proof.
  revert rest. induction l as [|[c x] l IH]; intros rest Hl; [discriminate|].
  inversion_clear Hl as [|? ? Hx Hr]. cbn [take_call].
  destruct (Nat.eqb_spec c call) as [-> | _].
  - intros [= <- <-]. split; assumption.
  - destruct (take_call call l) as [[y r']|]; [|discriminate].
    intros [= <- <-]. destruct (IH r' Hr eq_refl) as [Hp Hr'].
    split; [exact Hp | constructor; assumption].
Qed.

Lemma record_tidy (word : jsstring) (l : list jsstring) :
  tidy (toLowerCase word) -> Forall tidy l -> Forall tidy (record word l).
Proof.
  intros Hw Hl. unfold record. apply firstn_Forall. constructor; [exact Hw|].
  rewrite Forall_forall in *. intros x Hx. apply filter_In in Hx. apply Hl, Hx.
Qed.

(** The two versions differ in their messages and in what they do to the
    results; what follows needs of a handler only this much. *)
Section Contract.

Variable submit : M (option jsstring).
Variable resume : jsstring -> Settlement -> M unit.
Variable messages : list jsstring.

Hypothesis submit_contract : forall w,
  exists w',
    localStorage w' = localStorage w
    /\ historyList (dom w') = historyList (dom w)
    /\ historySection_hidden (dom w') = historySection_hidden (dom w)
    /\ ai w' = ai w
    /\ ((submit w = (Normal None, w')
         /\ (trim (searchInput_value (dom w)) = [] \/ ai w = false)
         /\ requests w' = requests w
         /\ In (errorContainer_text (dom w')) messages)
        \/ (submit w = (Normal (Some (trim (searchInput_value (dom w)))), w')
            /\ trim (searchInput_value (dom w)) <> []
            /\ ai w = true
            /\ (exists rq, requests w' = rq :: requests w)
            /\ errorContainer_text (dom w') = errorContainer_text (dom w))).

Hypothesis resume_contract : forall word s w,
  ai (exec (resume word s) w) = ai w
  /\ requests (exec (resume word s) w) = requests w
  /\ (errorContainer_text (dom (exec (resume word s) w)) = errorContainer_text (dom w)
      \/ In (errorContainer_text (dom (exec (resume word s) w))) messages)
  /\ forall l, holds (localStorage w) l ->
       (localStorage (exec (resume word s) w) = localStorage w
        /\ historyList (dom (exec (resume word s) w)) = historyList (dom w)
        /\ historySection_hidden (dom (exec (resume word s) w))
           = historySection_hidden (dom w))
       \/ (holds (localStorage (exec (resume word s) w)) (record word l)
           /\ historyList (dom (exec (resume word s) w)) = map JString (record word l)
           /\ historySection_hidden (dom (exec (resume word s) w)) = false).

Let step := Page.step submit resume.
Let act := Shell.act submit resume.
Let perform := Shell.perform submit resume.

Lemma step_in_order (s : System) (d d' : jsstring) (e : Event) :
  in_order {| sys := s; dailyWordEl_textContent := d |} ->
  in_order {| sys := step s e; dailyWordEl_textContent := d' |}.
Proof.
  intros (l & Hl & Ht & Hn & Hlen & Hm & Hs). cbn [sys] in *.
  destruct e as [typed | call st]; unfold step, Page.step.
  - set (w0 := with_dom (set_searchInput_value typed) (world s)).
    assert (Hin : searchInput_value (dom w0) = typed) by reflexivity.
    destruct (submit_contract w0) as (w' & Es & Eh & Ehid & _ & Hcase).
    assert (Hl' : holds (localStorage w') l) by (rewrite Es; exact Hl).
    assert (Hm' : mirrored w' l).
    { intros Hne. rewrite Eh, Ehid. exact (Hm Hne). }
    destruct Hcase as [(E & _) | (E & Hne & _)]; rewrite E;
      exists l; cbn [sys world suspended];
      (split; [exact Hl'|]); (split; [exact Ht|]); (split; [exact Hn|]);
      (split; [exact Hlen|]); (split; [exact Hm'|]).
    + exact Hs.
    + apply Forall_app. split; [exact Hs|]. constructor; [|constructor].
      cbn [snd]. rewrite Hin in *. split; [exact Hne | apply trimmed_trim].
  - destruct (take_call call (suspended s)) as [[word rest]|] eqn:E.
    + destruct (take_call_Forall _ _ _ _ _ Hs E) as [[Hne Htr] Hrest].
      cbn [snd] in Hne, Htr.
      destruct (resume_contract word st (world s)) as (_ & _ & _ & Hc).
      destruct (Hc l Hl) as [(Es & Eh & Ehid) | (Hl' & Eh & Ehid)].
      * exists l. cbn [sys world suspended].
        split; [rewrite Es; exact Hl|].
        split; [exact Ht|]. split; [exact Hn|]. split; [exact Hlen|].
        split; [|exact Hrest].
        intros Hne'. rewrite Eh, Ehid. exact (Hm Hne').
      * exists (record word l). cbn [sys world suspended].
        split; [exact Hl'|]. split; [apply record_tidy; [apply tidy_lower|]; assumption|].
        split; [apply record_NoDup; exact Hn|].
        split; [apply record_length|].
        split; [intros _; split; assumption | exact Hrest].
    + exists l. cbn [sys].
      split; [exact Hl|]. split; [exact Ht|]. split; [exact Hn|].
      split; [exact Hlen|]. split; [exact Hm | exact Hs].
Qed.

Lemma act_in_order (sh : Shell) (a : Action) : in_order sh -> in_order (act sh a).
Proof.
  intros H. destruct sh as [s d].
  destruct a as [floor | floor | | target | e]; unfold act, Shell.act.
  - destruct H as (l & Hl & Ht & Hn & Hlen & Hm & Hs). cbn [sys] in *.
    exists l. unfold DOMContentLoaded, setWordOfTheDay. cbn [sys world suspended].
    unfold exec. rewrite (renderHistory_holds _ _ Hl). cbn [snd].
    split; [destruct l; exact Hl|].
    split; [exact Ht|]. split; [exact Hn|]. split; [exact Hlen|].
    split; [|exact Hs].
    intros Hne. destruct l as [|x r]; [congruence|]. split; reflexivity.
  - exact H.
  - unfold dailyWordEl_click, submit_value. eapply step_in_order; exact H.
  - unfold historyList_click, submit_value.
    destruct (str_eqb (tagName target) (js "BUTTON")); [|exact H].
    destruct (dataset_word target) as [[|c word]|]; try exact H.
    eapply step_in_order; exact H.
  - eapply step_in_order; exact H.
Qed.

Lemma perform_in_order (actions : list Action) :
  forall sh, in_order sh -> in_order (perform sh actions).
Proof.
  induction actions as [|a actions IH]; intros sh H; [exact H|].
  apply IH, act_in_order, H.
Qed.

(** One request per lookup started. *)
Lemma step_requests (s : System) (e : Event) :
  (List.length (requests (world (step s e))) + calls s
   = List.length (requests (world s)) + calls (step s e))%nat.
Proof.
  destruct e as [typed | call st]; unfold step, Page.step.
  - set (w0 := with_dom (set_searchInput_value typed) (world s)).
    assert (Hr : requests w0 = requests (world s)) by reflexivity.
    destruct (submit_contract w0) as (w' & _ & _ & _ & _ & Hcase).
    destruct Hcase as [(E & _ & Er & _) | (E & _ & _ & (rq & Er) & _)];
      rewrite E; cbn [world calls]; rewrite Er, Hr; cbn [List.length]; lia.
  - destruct (take_call call (suspended s)) as [[word rest]|]; [|lia].
    cbn [world calls].
    destruct (resume_contract word st (world s)) as (_ & Er & _).
    rewrite Er. lia.
Qed.

Lemma act_requests (sh : Shell) (a : Action) :
  (List.length (requests (world (sys (act sh a)))) + calls (sys sh)
   = List.length (requests (world (sys sh))) + calls (sys (act sh a)))%nat.
Proof.
  destruct a as [floor | floor | | target | e]; unfold act, Shell.act.
  - unfold DOMContentLoaded, setWordOfTheDay. cbn [sys world calls].
    destruct (renderHistory_frame (world (sys sh))) as (_ & _ & _ & _ & _ & _ & _ & Er).
    unfold exec. rewrite Er. lia.
  - cbn [setWordOfTheDay sys]. lia.
  - apply step_requests.
  - unfold historyList_click, submit_value.
    destruct (str_eqb (tagName target) (js "BUTTON")); [|lia].
    destruct (dataset_word target) as [[|c word]|]; try lia.
    apply step_requests.
  - apply step_requests.
Qed.

Lemma perform_requests (actions : list Action) :
  forall sh,
    (List.length (requests (world (sys (perform sh actions)))) + calls (sys sh)
     = List.length (requests (world (sys sh))) + calls (sys (perform sh actions)))%nat.
Proof.
  induction actions as [|a actions IH]; intros sh; [reflexivity|].
  cbn [perform Shell.perform fold_left].
  specialize (IH (act sh a)). pose proof (act_requests sh a).
  unfold perform, Shell.perform, act in *. lia.
Qed.

Lemma step_without_client (sh : Shell) (s : System) (e : Event) (d : jsstring) :
  ai (world s) = false -> suspended s = [] ->
  requests (world s) = requests (world (sys sh)) ->
  localStorage (world s) = localStorage (world (sys sh)) ->
  idle_without_client sh {| sys := step s e; dailyWordEl_textContent := d |}.
Proof.
  intros Hai Hs Hr Hl. unfold idle_without_client. cbn [sys].
  destruct e as [typed | call st]; unfold step, Page.step.
  - set (w0 := with_dom (set_searchInput_value typed) (world s)).
    assert (Hai0 : ai w0 = false) by exact Hai.
    destruct (submit_contract w0) as (w' & Es & _ & _ & Ea & Hcase).
    destruct Hcase as [(E & _ & Er & _) | (E & _ & Ht & _)]; [|congruence].
    rewrite E. cbn [world suspended].
    rewrite Ea, Er, Es. repeat split; assumption.
  - rewrite Hs. cbn [take_call]. repeat split; assumption.
Qed.

Lemma perform_without_client (actions : list Action) :
  forall sh0 sh,
    idle_without_client sh0 sh -> idle_without_client sh0 (perform sh actions).
Proof.
  induction actions as [|a actions IH]; intros sh0 sh H; [exact H|].
  cbn [perform Shell.perform fold_left]. apply IH.
  destruct H as (Hai & Hs & Hr & Hl).
  destruct a as [floor | floor | | target | e]; cbn [Shell.act].
  - unfold DOMContentLoaded, setWordOfTheDay, idle_without_client.
    cbn [sys world suspended].
    destruct (renderHistory_frame (world (sys sh))) as (_ & _ & _ & _ & _ & _ & Ea & Er).
    unfold exec. rewrite Ea, Er, renderHistory_store. repeat split; assumption.
  - repeat split; assumption.
  - apply step_without_client; assumption.
  - unfold historyList_click, submit_value.
    destruct (str_eqb (tagName target) (js "BUTTON")); [|repeat split; assumption].
    destruct (dataset_word target) as [[|c word]|]; try (repeat split; assumption).
    apply step_without_client; assumption.
  - apply step_without_client; assumption.
Qed.

(** The banner only ever holds the text it had or a fixed message. *)
Lemma step_banner (t : jsstring) (s : System) (e : Event) :
  errorContainer_text (dom (world s)) = t
  \/ In (errorContainer_text (dom (world s))) messages ->
  errorContainer_text (dom (world (step s e))) = t
  \/ In (errorContainer_text (dom (world (step s e)))) messages.
Proof.
  intros H. destruct e as [typed | call st]; unfold step, Page.step.
  - set (w0 := with_dom (set_searchInput_value typed) (world s)).
    assert (Ht : errorContainer_text (dom w0) = errorContainer_text (dom (world s)))
      by reflexivity.
    destruct (submit_contract w0) as (w' & _ & _ & _ & _ & Hcase).
    destruct Hcase as [(E & _ & _ & Hin) | (E & _ & _ & _ & Et)]; rewrite E;
      cbn [world].
    + right. exact Hin.
    + rewrite Et, Ht. exact H.
  - destruct (take_call call (suspended s)) as [[word rest]|]; [|exact H].
    cbn [world].
    destruct (resume_contract word st (world s)) as (_ & _ & [Et | Hin] & _).
    + rewrite Et. exact H.
    + right. exact Hin.
Qed.

Lemma perform_banner (t : jsstring) (actions : list Action) :
  forall sh,
    errorContainer_text (dom (world (sys sh))) = t
    \/ In (errorContainer_text (dom (world (sys sh)))) messages ->
    errorContainer_text (dom (world (sys (perform sh actions)))) = t
    \/ In (errorContainer_text (dom (world (sys (perform sh actions))))) messages.
Proof.
  induction actions as [|a actions IH]; intros sh H; [exact H|].
  cbn [perform Shell.perform fold_left]. apply IH.
  destruct a as [floor | floor | | target | e]; cbn [Shell.act].
  - unfold DOMContentLoaded, setWordOfTheDay. cbn [sys world].
    destruct (renderHistory_frame (world (sys sh))) as (_ & _ & Et & _).
    unfold exec. rewrite Et. exact H.
  - exact H.
  - apply step_banner. exact H.
  - unfold historyList_click, submit_value.
    destruct (str_eqb (tagName target) (js "BUTTON")); [|exact H].
    destruct (dataset_word target) as [[|c word]|]; try exact H.
    apply step_banner. exact H.
  - apply step_banner. exact H.
Qed.

(** A store the page cannot use stays as it is. *)
Hypothesis resume_broken : forall word s w,
  broken_store w -> localStorage (exec (resume word s) w) = localStorage w.

Lemma broken_store_same (w w' : World) :
  localStorage w' = localStorage w -> broken_store w -> broken_store w'.
Proof. unfold broken_store. intros ->. auto. Qed.

Lemma step_broken (s : System) (e : Event) :
  broken_store (world s) ->
  localStorage (world (step s e)) = localStorage (world s).
Proof.
  intros H. destruct e as [typed | call st]; unfold step, Page.step.
  - set (w0 := with_dom (set_searchInput_value typed) (world s)).
    destruct (submit_contract w0) as (w' & Es & _ & _ & _ & Hcase).
    destruct Hcase as [(E & _) | (E & _)]; rewrite E; cbn [world]; exact Es.
  - destruct (take_call call (suspended s)) as [[word rest]|]; [|reflexivity].
    cbn [world]. apply resume_broken, H.
Qed.

Lemma perform_broken (actions : list Action) :
  forall sh,
    broken_store (world (sys sh)) ->
    localStorage (world (sys (perform sh actions))) = localStorage (world (sys sh)).
Proof.
  induction actions as [|a actions IH]; intros sh H; [reflexivity|].
  cbn [perform Shell.perform fold_left].
  assert (E : localStorage (world (sys (Shell.act submit resume sh a)))
              = localStorage (world (sys sh))).
  { destruct a as [floor | floor | | target | e]; cbn [Shell.act].
    - unfold DOMContentLoaded, setWordOfTheDay. cbn [sys world].
      apply renderHistory_store.
    - reflexivity.
    - apply step_broken, H.
    - unfold historyList_click, submit_value.
      destruct (str_eqb (tagName target) (js "BUTTON")); [|reflexivity].
      destruct (dataset_word target) as [[|c word]|]; try reflexivity.
      apply step_broken, H.
    - apply step_broken, H. }
  rewrite <- E. apply IH. apply (broken_store_same _ _ E H).
Qed.

End Contract.

End LoopFacts.

Module VersionFacts.

Import JS Page Notions Shell Vocabulary JSFacts HistoryFacts HandlerFacts
       TrimFacts RecordFacts LoopFacts.
Local Open Scope page_scope.

Lemma structured_submit_contract (w : World) :
  exists w',
    localStorage w' = localStorage w
    /\ historyList (dom w') = historyList (dom w)
    /\ historySection_hidden (dom w') = historySection_hidden (dom w)
    /\ ai w' = ai w
    /\ ((Structured.submit w = (Normal None, w')
         /\ (trim (searchInput_value (dom w)) = [] \/ ai w = false)
         /\ requests w' = requests w
         /\ In (errorContainer_text (dom w')) structured_messages)
        \/ (Structured.submit w = (Normal (Some (trim (searchInput_value (dom w)))), w')
            /\ trim (searchInput_value (dom w)) <> []
            /\ ai w = true
            /\ (exists rq, requests w' = rq :: requests w)
            /\ errorContainer_text (dom w') = errorContainer_text (dom w))).
Proof.
  exists (snd (Structured.submit w)).
  destruct (trim (searchInput_value (dom w))) as [|c t] eqn:Ht.
  - rewrite (structured_submit_empty w Ht). cbn [snd].
    destruct w as [[] ? ? ?].
    split; [reflexivity|]. split; [reflexivity|]. split; [reflexivity|].
    split; [reflexivity|]. left.
    split; [reflexivity|]. split; [left; reflexivity|]. split; [reflexivity|].
    left. reflexivity.
  - assert (Hne : trim (searchInput_value (dom w)) <> []) by congruence.
    destruct (ai w) eqn:Hai.
    + rewrite (structured_submit_started w Hne Hai), Ht. cbn [snd].
      destruct w as [[] ? ? ?]. cbn [ai] in Hai. subst.
      split; [reflexivity|]. split; [reflexivity|]. split; [reflexivity|].
      split; [reflexivity|]. right.
      split; [reflexivity|]. split; [discriminate|]. split; [reflexivity|].
      split; [eexists; reflexivity | reflexivity].
    + rewrite (structured_submit_uninitialized w Hne Hai). cbn [snd].
      destruct w as [[] ? ? ?]. cbn [ai] in Hai. subst.
      split; [reflexivity|]. split; [reflexivity|]. split; [reflexivity|].
      split; [reflexivity|]. left.
      split; [reflexivity|]. split; [right; reflexivity|]. split; [reflexivity|].
      right. left. reflexivity.
Qed.

Lemma grounded_submit_contract (w : World) :
  exists w',
    localStorage w' = localStorage w
    /\ historyList (dom w') = historyList (dom w)
    /\ historySection_hidden (dom w') = historySection_hidden (dom w)
    /\ ai w' = ai w
    /\ ((Grounded.submit w = (Normal None, w')
         /\ (trim (searchInput_value (dom w)) = [] \/ ai w = false)
         /\ requests w' = requests w
         /\ In (errorContainer_text (dom w')) grounded_messages)
        \/ (Grounded.submit w = (Normal (Some (trim (searchInput_value (dom w)))), w')
            /\ trim (searchInput_value (dom w)) <> []
            /\ ai w = true
            /\ (exists rq, requests w' = rq :: requests w)
            /\ errorContainer_text (dom w') = errorContainer_text (dom w))).
Proof.
  exists (snd (Grounded.submit w)).
  destruct (trim (searchInput_value (dom w))) as [|c t] eqn:Ht.
  - rewrite (grounded_submit_empty w Ht). cbn [snd].
    destruct w as [[] ? ? ?].
    split; [reflexivity|]. split; [reflexivity|]. split; [reflexivity|].
    split; [reflexivity|]. left.
    split; [reflexivity|]. split; [left; reflexivity|]. split; [reflexivity|].
    left. reflexivity.
  - assert (Hne : trim (searchInput_value (dom w)) <> []) by congruence.
    destruct (ai w) eqn:Hai.
    + rewrite (grounded_submit_started w Hne Hai), Ht. cbn [snd].
      destruct w as [[] ? ? ?]. cbn [ai] in Hai. subst.
      split; [reflexivity|]. split; [reflexivity|]. split; [reflexivity|].
      split; [reflexivity|]. right.
      split; [reflexivity|]. split; [discriminate|]. split; [reflexivity|].
      split; [eexists; reflexivity | reflexivity].
    + rewrite (grounded_submit_uninitialized w Hne Hai). cbn [snd].
      destruct w as [[] ? ? ?]. cbn [ai] in Hai. subst.
      split; [reflexivity|]. split; [reflexivity|]. split; [reflexivity|].
      split; [reflexivity|]. left.
      split; [reflexivity|]. split; [right; reflexivity|]. split; [reflexivity|].
      right. left. reflexivity.
Qed.

(** Where a fulfilled call leaves the page: the failure banner or an
    entry, over what [updateHistory] left. *)
Lemma structured_resume_after (word : jsstring) (r : Response) (w : World) :
  exec (Structured.resume word (Fulfilled r)) w
  = structured_failed (snd (updateHistory word w))
  \/ exists x, exec (Structured.resume word (Fulfilled r)) w
               = shown x (snd (updateHistory word w)).
Proof.
  rewrite structured_resume_fulfilled.
  destruct (updateHistory word w) as [[[]|] w1]; cbn [snd]; [|left; reflexivity].
  destruct (JSON_parse (ToString (text r))) as [data|]; [|left; reflexivity].
  destruct (Structured.render word data) as [view|]; [|left; reflexivity].
  right. eexists. reflexivity.
Qed.

Lemma grounded_resume_after (word : jsstring) (r : Response) (w : World) :
  exec (Grounded.resume word (Fulfilled r)) w
  = grounded_failed (snd (updateHistory word w))
  \/ exists x, exec (Grounded.resume word (Fulfilled r)) w
               = shown x (snd (updateHistory word w)).
Proof.
  rewrite grounded_resume_fulfilled.
  destruct (updateHistory word w) as [[[]|] w1]; cbn [snd]; [|left; reflexivity].
  destruct (Grounded.render word r) as [view|]; [|left; reflexivity].
  right. eexists. reflexivity.
Qed.

Lemma structured_resume_contract (word : jsstring) (s : Settlement) (w : World) :
  ai (exec (Structured.resume word s) w) = ai w
  /\ requests (exec (Structured.resume word s) w) = requests w
  /\ (errorContainer_text (dom (exec (Structured.resume word s) w)) = errorContainer_text (dom w)
      \/ In (errorContainer_text (dom (exec (Structured.resume word s) w))) structured_messages)
  /\ forall l, holds (localStorage w) l ->
       (localStorage (exec (Structured.resume word s) w) = localStorage w
        /\ historyList (dom (exec (Structured.resume word s) w)) = historyList (dom w)
        /\ historySection_hidden (dom (exec (Structured.resume word s) w))
           = historySection_hidden (dom w))
       \/ (holds (localStorage (exec (Structured.resume word s) w)) (record word l)
           /\ historyList (dom (exec (Structured.resume word s) w)) = map JString (record word l)
           /\ historySection_hidden (dom (exec (Structured.resume word s) w)) = false).
Proof.
  assert (Failed : forall v,
             ai (structured_failed v) = ai v
             /\ requests (structured_failed v) = requests v
             /\ In (errorContainer_text (dom (structured_failed v))) structured_messages
             /\ localStorage (structured_failed v) = localStorage v
             /\ historyList (dom (structured_failed v)) = historyList (dom v)
             /\ historySection_hidden (dom (structured_failed v))
                = historySection_hidden (dom v)).
  { intros [[] ? ? ?]. repeat split. right. right. left. reflexivity. }
  assert (Shown : forall x v,
             ai (shown x v) = ai v
             /\ requests (shown x v) = requests v
             /\ errorContainer_text (dom (shown x v)) = errorContainer_text (dom v)
             /\ localStorage (shown x v) = localStorage v
             /\ historyList (dom (shown x v)) = historyList (dom v)
             /\ historySection_hidden (dom (shown x v))
                = historySection_hidden (dom v)).
  { intros x [[] ? ? ?]. repeat split. }
  destruct s as [r|].
  2:{ rewrite structured_resume_rejected.
      destruct (Failed w) as (Ea & Er & Et & Es & Eh & Ehid).
      split; [exact Ea|]. split; [exact Er|]. split; [right; exact Et|].
      intros l _. left. repeat split; assumption. }
  destruct (structured_resume_after word r w) as [E | (x & E)]; rewrite E;
    set (w1 := snd (updateHistory word w));
    pose proof (updateHistory_frame word w) as Hf; fold w1 in Hf;
    destruct Hf as (_ & _ & Ft & _ & _ & _ & Fa & Fr).
  - destruct (Failed w1) as (Ea & Er & Et & Es & Eh & Ehid).
    split; [congruence|]. split; [congruence|]. split; [right; exact Et|].
    intros l Hl. right. rewrite Es, Eh, Ehid. unfold w1.
    rewrite (updateHistory_holds word w l Hl). cbn [snd localStorage dom].
    split; [right; reflexivity|].
    destruct w as [[] ? ? ?]. split; reflexivity.
  - destruct (Shown x w1) as (Ea & Er & Et & Es & Eh & Ehid).
    split; [congruence|]. split; [congruence|]. split; [left; congruence|].
    intros l Hl. right. rewrite Es, Eh, Ehid. unfold w1.
    rewrite (updateHistory_holds word w l Hl). cbn [snd localStorage dom].
    split; [right; reflexivity|].
    destruct w as [[] ? ? ?]. split; reflexivity.
Qed.

Lemma grounded_resume_contract (word : jsstring) (s : Settlement) (w : World) :
  ai (exec (Grounded.resume word s) w) = ai w
  /\ requests (exec (Grounded.resume word s) w) = requests w
  /\ (errorContainer_text (dom (exec (Grounded.resume word s) w)) = errorContainer_text (dom w)
      \/ In (errorContainer_text (dom (exec (Grounded.resume word s) w))) grounded_messages)
  /\ forall l, holds (localStorage w) l ->
       (localStorage (exec (Grounded.resume word s) w) = localStorage w
        /\ historyList (dom (exec (Grounded.resume word s) w)) = historyList (dom w)
        /\ historySection_hidden (dom (exec (Grounded.resume word s) w))
           = historySection_hidden (dom w))
       \/ (holds (localStorage (exec (Grounded.resume word s) w)) (record word l)
           /\ historyList (dom (exec (Grounded.resume word s) w)) = map JString (record word l)
           /\ historySection_hidden (dom (exec (Grounded.resume word s) w)) = false).
Proof.
  assert (Failed : forall v,
             ai (grounded_failed v) = ai v
             /\ requests (grounded_failed v) = requests v
             /\ In (errorContainer_text (dom (grounded_failed v))) grounded_messages
             /\ localStorage (grounded_failed v) = localStorage v
             /\ historyList (dom (grounded_failed v)) = historyList (dom v)
             /\ historySection_hidden (dom (grounded_failed v))
                = historySection_hidden (dom v)).
  { intros [[] ? ? ?]. repeat split. right. right. left. reflexivity. }
  assert (Shown : forall x v,
             ai (shown x v) = ai v
             /\ requests (shown x v) = requests v
             /\ errorContainer_text (dom (shown x v)) = errorContainer_text (dom v)
             /\ localStorage (shown x v) = localStorage v
             /\ historyList (dom (shown x v)) = historyList (dom v)
             /\ historySection_hidden (dom (shown x v))
                = historySection_hidden (dom v)).
  { intros x [[] ? ? ?]. repeat split. }
  destruct s as [r|].
  2:{ rewrite grounded_resume_rejected.
      destruct (Failed w) as (Ea & Er & Et & Es & Eh & Ehid).
      split; [exact Ea|]. split; [exact Er|]. split; [right; exact Et|].
      intros l _. left. repeat split; assumption. }
  destruct (grounded_resume_after word r w) as [E | (x & E)]; rewrite E;
    set (w1 := snd (updateHistory word w));
    pose proof (updateHistory_frame word w) as Hf; fold w1 in Hf;
    destruct Hf as (_ & _ & Ft & _ & _ & _ & Fa & Fr).
  - destruct (Failed w1) as (Ea & Er & Et & Es & Eh & Ehid).
    split; [congruence|]. split; [congruence|]. split; [right; exact Et|].
    intros l Hl. right. rewrite Es, Eh, Ehid. unfold w1.
    rewrite (updateHistory_holds word w l Hl). cbn [snd localStorage dom].
    split; [right; reflexivity|].
    destruct w as [[] ? ? ?]. split; reflexivity.
  - destruct (Shown x w1) as (Ea & Er & Et & Es & Eh & Ehid).
    split; [congruence|]. split; [congruence|]. split; [left; congruence|].
    intros l Hl. right. rewrite Es, Eh, Ehid. unfold w1.
    rewrite (updateHistory_holds word w l Hl). cbn [snd localStorage dom].
    split; [right; reflexivity|].
    destruct w as [[] ? ? ?]. split; reflexivity.
Qed.

Lemma updateHistory_broken (word : jsstring) (w : World) :
  broken_store w -> updateHistory word w = (Throw, w).
Proof.
  unfold broken_store, updateHistory, bind. rewrite load_eq.
  destruct (JSON_parse (stored_or_default (localStorage w))) as [v|];
    [|reflexivity].
  destruct v; intros H; try reflexivity. contradiction.
Qed.

Lemma structured_resume_broken (word : jsstring) (s : Settlement) (w : World) :
  broken_store w ->
  exec (Structured.resume word s) w = structured_failed w.
Proof.
  intros H. destruct s as [r|]; [|reflexivity].
  rewrite structured_resume_fulfilled, (updateHistory_broken word w H). reflexivity.
Qed.

Lemma grounded_resume_broken (word : jsstring) (s : Settlement) (w : World) :
  broken_store w ->
  exec (Grounded.resume word s) w = grounded_failed w.
Proof.
  intros H. destruct s as [r|]; [|reflexivity].
  rewrite grounded_resume_fulfilled, (updateHistory_broken word w H). reflexivity.
Qed.

(** The [finally] block: whatever way a call settles, the loader ends
    hidden. *)
Lemma resume_hides_loader (word : jsstring) (s : Settlement) (w : World) :
  loader_hidden (dom (exec (Structured.resume word s) w)) = true
  /\ loader_hidden (dom (exec (Grounded.resume word s) w)) = true.
Proof.
  assert (Hs : forall x v, loader_hidden (dom (shown x v)) = true)
    by (intros x [[] ? ? ?]; reflexivity).
  split; (destruct s as [r|]; [|destruct w as [[] ? ? ?]; reflexivity]).
  - destruct (structured_resume_after word r w) as [E | (x & E)]; rewrite E;
      [apply structured_failed_in_error | apply Hs].
  - destruct (grounded_resume_after word r w) as [E | (x & E)]; rewrite E;
      [apply grounded_failed_in_error | apply Hs].
Qed.

(** A submit that starts a lookup, in full. *)
Lemma step_submit_started (sys : System) (typed : jsstring) :
  ai (world sys) = true ->
  trim typed <> [] ->
  (let sys' := Structured.step sys (Submit typed) in
   suspended sys' = suspended sys ++ [(calls sys, trim typed)]
   /\ calls sys' = S (calls sys)
   /\ requests (world sys') = Structured.request (trim typed) :: requests (world sys)
   /\ loader_hidden (dom (world sys')) = false
   /\ resultsContainer (dom (world sys')) = NoResults
   /\ errorContainer_hidden (dom (world sys')) = true
   /\ wordOfTheDaySection_hidden (dom (world sys')) = true
   /\ localStorage (world sys') = localStorage (world sys))
  /\ (let sys' := Grounded.step sys (Submit typed) in
      suspended sys' = suspended sys ++ [(calls sys, trim typed)]
      /\ calls sys' = S (calls sys)
      /\ requests (world sys') = Grounded.request (trim typed) :: requests (world sys)
      /\ loader_hidden (dom (world sys')) = false
      /\ resultsContainer (dom (world sys')) = NoResults
      /\ errorContainer_hidden (dom (world sys')) = true
      /\ wordOfTheDaySection_hidden (dom (world sys'))
         = wordOfTheDaySection_hidden (dom (world sys))
      /\ localStorage (world sys') = localStorage (world sys)).
Proof.
  intros Hai Ht. cbv zeta.
  unfold Structured.step, Grounded.step, step.
  rewrite structured_submit_started, grounded_submit_started
    by (destruct sys as [[[] ? ? ?] ? ?]; assumption).
  destruct sys as [[[] ? ? ?] ? ?]. cbn [world ai] in Hai. subst.
  split; repeat split.
Qed.

(** A lookup from submit to fulfilled call, in grounded-text mode, on a
    store of strings. *)
Lemma grounded_run_result
  (w : World) (l : list jsstring) (typed : jsstring) (r : Response) :
  holds (localStorage w) l ->
  ai w = true ->
  trim typed <> [] ->
  let final := Grounded.run (idle w) [Submit typed; Settle 0 (Fulfilled r)] in
  match Grounded.render (trim typed) r with
  | Some view =>
      resultsContainer (dom (world final)) = Grounded view
      /\ errorContainer_hidden (dom (world final)) = true
  | None => in_error Grounded.msg_failed (world final)
  end
  /\ loader_hidden (dom (world final)) = true
  /\ holds (localStorage (world final)) (record (trim typed) l)
  /\ historyList (dom (world final)) = map JString (record (trim typed) l)
  /\ historySection_hidden (dom (world final)) = false
  /\ suspended final = [].
Proof.
  intros Hl Hai Ht. destruct w as [[] stored client sent].
  cbn [ai localStorage] in Hl, Hai. subst client.
  cbv zeta. unfold Grounded.run, run, idle. cbn [fold_left].
  match goal with
  | |- context [step Grounded.submit Grounded.resume ?s0 (Submit typed)] =>
      assert (Es : step Grounded.submit Grounded.resume s0 (Submit typed)
                   = {| world :=
                          {| dom :=
                               {| resultsContainer := NoResults;
                                  loader_hidden := false;
                                  errorContainer_text := errorContainer_text0;
                                  errorContainer_hidden := true;
                                  wordOfTheDaySection_hidden := wordOfTheDaySection_hidden0;
                                  historySection_hidden := historySection_hidden0;
                                  historyList := historyList0;
                                  searchInput_value := typed |};
                             localStorage := stored; ai := true;
                             requests := Grounded.request (trim typed) :: sent |};
                        suspended := [(0%nat, trim typed)]; calls := 1 |})
  end.
  { unfold step. cbn [world].
    rewrite grounded_submit_started; [reflexivity | exact Ht | reflexivity]. }
  rewrite Es. unfold step. cbn [suspended take_call Nat.eqb world calls].
  rewrite grounded_resume_fulfilled.
  rewrite (updateHistory_holds (trim typed) _ l) by exact Hl.
  destruct (Grounded.render (trim typed) r) as [view|].
  - split; [split; reflexivity|]. split; [reflexivity|].
    split; [right; reflexivity|]. split; [reflexivity|]. split; reflexivity.
  - split; [repeat split|]. split; [reflexivity|].
    split; [right; reflexivity|]. split; [reflexivity|]. split; reflexivity.
Qed.

End VersionFacts.

Module TemplateFacts.

Import JS Page Notions Shell Vocabulary JSFacts HistoryFacts HandlerFacts.
Local Open Scope N_scope.

Lemma forallb_strings (l : list jsstring) :
  forallb to_string_ok (map JString l) = true.
Proof. induction l as [|x l IH]; [reflexivity | exact IH]. Qed.

Lemma slot_text (m : list (jsstring * JSON)) (key : string) (x : option jsstring) :
  lookup_last (js key) m = text_value x ->
  Structured.slot (JObject m) key = Some (text_value x).
Proof.
  intros H. unfold Structured.slot, get_field. rewrite H.
  destruct x; reflexivity.
Qed.

Lemma guarded_first (x : option (list jsstring)) :
  Structured.guarded (list_value x) 0
    (fun v => Structured.interpolate (Structured.first_item v))
  = Some match x with
         | Some (first :: _) => Some (Some (JString first))
         | _ => None
         end.
Proof. destruct x as [[|a l]|]; reflexivity. Qed.

Lemma guarded_list (x : option (list jsstring)) :
  Structured.guarded (list_value x) 0 Structured.map_items = Some (list_block x).
Proof.
  destruct x as [[|a l]|]; try reflexivity.
  unfold Structured.guarded, Structured.longer_than, list_value, strings.
  cbn [option_map truthy length_gt map List.length]. 
  change (0 <? N.of_nat (S (List.length (map JString l)))) with true.
  cbv iota. unfold Structured.map_items.
  change (JString a :: map JString l) with (map JString (a :: l)).
  rewrite forallb_strings. reflexivity.
Qed.

Lemma guarded_more (x : option (list jsstring)) :
  Structured.guarded (list_value x) 1 Structured.slice1_map_items
  = Some match x with
         | Some (_ :: ((_ :: _) as others)) => Some (map JString others)
         | _ => None
         end.
Proof.
  destruct x as [[|a [|b l]]|]; try reflexivity.
  unfold Structured.guarded, Structured.longer_than, list_value, strings.
  cbn [option_map truthy length_gt map List.length].
  replace (1 <? N.of_nat (S (S (List.length (map JString l))))) with true
    by (symmetry; apply N.ltb_lt; lia).
  cbv iota. unfold Structured.slice1_map_items, Structured.map_items. cbn [tl].
  change (JString b :: map JString l) with (map JString (b :: l)).
  rewrite forallb_strings. reflexivity.
Qed.

(** A reply typed as the schema says renders, block by block. *)
Lemma render_has_fields (word : jsstring) (data : JSON) (fields : Fields) :
  has_fields data fields ->
  Structured.render word data = Some (entry_of word fields).
Proof.
  intros (m & -> & H1 & H2 & H3 & H4 & H5 & H6 & H7 & H8).
  unfold Structured.render.
  rewrite (slot_text m "compliment" _ H1), (slot_text m "definition" _ H4),
    (slot_text m "pronunciation" _ H2), (slot_text m "partOfSpeech" _ H3),
    (slot_text m "etymology" _ H7).
  cbn [get_field]. rewrite H5, H6, H8.
  rewrite guarded_first, !guarded_list, guarded_more. reflexivity.
Qed.

(** A text that is not empty where a list is expected has no [map]. *)
Lemma guarded_text_throws (s : jsstring) :
  s <> [] ->
  Structured.guarded (Some (JString s)) 0 Structured.map_items = None.
Proof. destruct s; [congruence | reflexivity]. Qed.

Lemma guarded_long_text_throws (s : jsstring) :
  (1 < List.length s)%nat ->
  Structured.guarded (Some (JString s)) 1 Structured.slice1_map_items = None.
Proof.
  intros H. destruct s as [|a [|b s]]; cbn [List.length] in H; try lia.
  unfold Structured.guarded, Structured.longer_than.
  cbn [truthy str_eqb negb length_gt List.length].
  replace (1 <? N.of_nat (S (S (List.length s)))) with true
    by (symmetry; apply N.ltb_lt; lia).
  reflexivity.
Qed.

(** One such field is enough for the template to throw, whatever the
    other fields are. *)
Lemma render_text_for_list (word : jsstring) (m : list (jsstring * JSON)) (s : jsstring) :
  (lookup_last (js "synonyms") m = Some (JString s) /\ s <> [])
  \/ (lookup_last (js "antonyms") m = Some (JString s) /\ s <> [])
  \/ (lookup_last (js "exampleSentences") m = Some (JString s)
      /\ (1 < List.length s)%nat) ->
  Structured.render word (JObject m) = None.
Proof.
  intros H. unfold Structured.render. cbn [get_field].
  destruct (Structured.slot (JObject m) "compliment"); [|reflexivity].
  destruct (Structured.slot (JObject m) "definition"); [|reflexivity].
  destruct (Structured.guarded (lookup_last (js "exampleSentences") m) 0 _);
    [|reflexivity].
  destruct (Structured.slot (JObject m) "pronunciation"); [|reflexivity].
  destruct (Structured.slot (JObject m) "partOfSpeech"); [|reflexivity].
  destruct H as [[E Hs] | [[E Hs] | [E Hs]]].
  - rewrite E, (guarded_text_throws s Hs). reflexivity.
  - destruct (Structured.guarded (lookup_last (js "synonyms") m) 0 _);
      [|reflexivity].
    rewrite E, (guarded_text_throws s Hs). reflexivity.
  - destruct (Structured.guarded (lookup_last (js "synonyms") m) 0 _);
      [|reflexivity].
    destruct (Structured.guarded (lookup_last (js "antonyms") m) 0 _);
      [|reflexivity].
    destruct (Structured.slot (JObject m) "etymology"); [|reflexivity].
    rewrite E, (guarded_long_text_throws s Hs). reflexivity.
Qed.

(** The words of the day need no trimming. *)
Lemma dailyWords_tidy :
  Forall (fun s => s <> [] /\ trim s = s) dailyWords.
Proof. repeat constructor; discriminate. Qed.

Lemma nth_dailyWords (floor : nat) :
  (floor < 10)%nat -> In (nth floor dailyWords []) dailyWords.
Proof. intros H. apply nth_In. exact H. Qed.

End TemplateFacts.

Module DetailsFacts.

Import JS Details Vocabulary.

Lemma clicked_S (n : nat) : clicked (S n) = click (clicked n).
Proof. reflexivity. Qed.

(** From the first click on, the details alternate between two states. *)
Lemma clicked_parity (n : nat) :
  clicked (S n) = if Nat.even n then odd_state else even_state.
Proof.
  induction n as [|n IH]; [vm_compute; reflexivity|].
  rewrite clicked_S, IH, Nat.even_succ, <- Nat.negb_even.
  destruct (Nat.even n); vm_compute; reflexivity.
Qed.

End DetailsFacts.

(* ===================================================================== *)
(** ** Further properties of the code *)
(* ===================================================================== *)

Import Shell Vocabulary TrimFacts RecordFacts LoopFacts VersionFacts TemplateFacts DetailsFacts.

(** *** The recency history *)

(** X1.  On a store of strings, recording a word and then the same word
    again, in whatever case, leaves the page exactly as the first recording
    left it: store, buttons and all. *)
Theorem recording_again_changes_nothing
  (w : World) (l : list jsstring) (word word' : jsstring) :
  holds (localStorage w) l ->
  toLowerCase word' = toLowerCase word ->
  (updateHistory word ;; updateHistory word') w = updateHistory word w.
Proof.
  intros Hl E. unfold bind at 1.
  rewrite (updateHistory_holds word w l Hl).
  rewrite (updateHistory_holds word' _ (record word l)) by (right; reflexivity).
  rewrite (record_again word word' l E).
  destruct w as [[] ? ? ?]. reflexivity.
Qed.

Lemma recording_again_changes_nothing_witness :
  holds (localStorage (fresh true (Some (jsq "['walk','run']")))) [js "walk"; js "run"]
  /\ toLowerCase (js "RUN") = toLowerCase (js "Run")
  /\ (updateHistory (js "Run") ;; updateHistory (js "RUN"))
       (fresh true (Some (jsq "['walk','run']")))
     = updateHistory (js "Run") (fresh true (Some (jsq "['walk','run']"))).
Proof.
  split; [right; reflexivity|]. split; [reflexivity|].
  apply (recording_again_changes_nothing _ [js "walk"; js "run"]).
  - right; reflexivity.
  - reflexivity.
Defined.

(** X2.  Recording a word the history already holds moves it to the front:
    the other entries keep their order, no entry is lost or added, and the
    length stays. *)
Theorem recording_known_word_moves_it_to_front
  (w : World) (l : list jsstring) (word : jsstring) :
  holds (localStorage w) l ->
  NoDup l -> (List.length l <= 5)%nat ->
  In (toLowerCase word) l ->
  let l' := toLowerCase word
            :: filter (fun item => negb (str_eqb item (toLowerCase word))) l in
  holds (localStorage (exec (updateHistory word) w)) l'
  /\ List.length l' = List.length l
  /\ (forall x, In x l' <-> In x l)
  /\ NoDup l'.
Proof.
  intros Hl Hn Hlen Hin l'.
  assert (Elen : List.length l' = List.length l).
  { unfold l'. cbn [List.length]. apply filter_present_length; assumption. }
  assert (Er : record word l = l').
  { unfold record. fold l'. apply firstn_all2. lia. }
  split; [|split; [exact Elen|split]].
  - unfold exec. rewrite (updateHistory_holds word w l Hl). cbn [snd localStorage].
    rewrite Er. right. reflexivity.
  - intros x. unfold l'. cbn [In]. rewrite filter_In, negb_true_iff, str_eqb_neq.
    split.
    + intros [<- | [H _]]; assumption.
    + intros H. destruct (list_eq_dec N.eq_dec (toLowerCase word) x) as [E | E];
        [left; exact E | right; split; [exact H | congruence]].
  - rewrite <- Er. apply record_NoDup. exact Hn.
Qed.

Lemma recording_known_word_moves_it_to_front_witness :
  let w := fresh true (Some (jsq "['a','b','c','d','e']")) in
  holds (localStorage (exec (updateHistory (js "D")) w))
        [js "d"; js "a"; js "b"; js "c"; js "e"].
Proof.
  intros w.
  apply (recording_known_word_moves_it_to_front
           w [js "a"; js "b"; js "c"; js "d"; js "e"] (js "D")).
  - right; reflexivity.
  - repeat constructor; cbn; intuition discriminate.
  - cbn; lia.
  - cbn; tauto.
Defined.

(** X3.  Recording a word the history does not hold puts it in front of
    the entries as they were; when there were five already, the last one,
    the oldest, is dropped. *)
Theorem recording_new_word_evicts_the_oldest
  (w : World) (l : list jsstring) (word : jsstring) :
  holds (localStorage w) l ->
  (List.length l <= 5)%nat ->
  ~ In (toLowerCase word) l ->
  holds (localStorage (exec (updateHistory word) w))
        (toLowerCase word :: if (List.length l <? 5)%nat then l else removelast l).
Proof.
  intros Hl Hlen Hin. unfold exec.
  rewrite (updateHistory_holds word w l Hl). cbn [snd localStorage].
  right. do 3 f_equal. unfold record. rewrite filter_absent by assumption.
  change (firstn 5 (toLowerCase word :: l)) with (toLowerCase word :: firstn 4 l).
  f_equal. destruct (Nat.ltb_spec (List.length l) 5).
  - apply firstn_all2. lia.
  - replace 4%nat with (List.length l - 1)%nat by lia.
    apply firstn_removelast. destruct l; [cbn in *; lia | discriminate].
Qed.

Lemma recording_new_word_evicts_the_oldest_witness :
  let w := fresh true (Some (jsq "['a','b','c','d','e']")) in
  holds (localStorage (exec (updateHistory (js "New")) w))
        [js "new"; js "a"; js "b"; js "c"; js "d"].
Proof.
  intros w.
  apply (recording_new_word_evicts_the_oldest
           w [js "a"; js "b"; js "c"; js "d"; js "e"] (js "New")).
  - right; reflexivity.
  - cbn; lia.
  - cbn; intuition discriminate.
Defined.

(** X4.  On a store of strings [renderHistory] completes and leaves the
    store alone.  With no entry it hides the history section and leaves the
    buttons as they were; otherwise it shows the section with one button per
    entry, in order, whatever was shown before.  Nothing else on the page
    changes, and rendering once more changes nothing. *)
Theorem renderHistory_shows_the_store (w : World) (l : list jsstring) :
  holds (localStorage w) l ->
  let w' := exec renderHistory w in
  fst (renderHistory w) = Normal tt
  /\ localStorage w' = localStorage w
  /\ historySection_hidden (dom w') = match l with [] => true | _ :: _ => false end
  /\ historyList (dom w') = match l with
                            | [] => historyList (dom w)
                            | _ :: _ => map JString l
                            end
  /\ same_outside_history w w'
  /\ renderHistory w' = (Normal tt, w').
Proof.
  intros Hl w'.
  assert (Hl' : holds (localStorage w') l).
  { unfold w', exec. rewrite renderHistory_store. exact Hl. }
  pose proof (renderHistory_holds w l Hl) as E.
  pose proof (renderHistory_holds w' l Hl') as E'.
  unfold w', exec in *. rewrite E in *. cbn [fst snd] in *.
  split; [reflexivity|].
  destruct l as [|x r]; destruct w as [[] ? ? ?];
    repeat split; exact E'.
Qed.

Lemma renderHistory_shows_the_store_witness :
  let w := fresh true (Some (jsq "['walk','run']")) in
  holds (localStorage w) [js "walk"; js "run"]
  /\ historySection_hidden (dom (exec renderHistory w)) = false
  /\ historyList (dom (exec renderHistory w)) = [JString (js "walk"); JString (js "run")].
Proof.
  intros w.
  assert (H : holds (localStorage w) [js "walk"; js "run"]) by (right; reflexivity).
  split; [exact H|].
  pose proof (renderHistory_shows_the_store w _ H) as T.
  split; [apply T | apply T].
Defined.

(** *** Whole sessions *)

(** A page as it is first loaded: nothing shown, nothing suspended. *)
Lemma fresh_page_in_order (client : bool) (d : jsstring) :
  in_order {| sys := idle (fresh client None); dailyWordEl_textContent := d |}.
Proof.
  exists []. cbn [sys idle world suspended].
  split; [left; split; reflexivity|]. split; [constructor|].
  split; [constructor|]. split; [cbn; lia|]. split; [intros H; congruence|].
  constructor.
Qed.

(** X5.  Whatever the user does, in whatever order (loading, submitting,
    clicking the word of the day or a history button) and however the
    service calls settle, the page stays in good order, in both versions:
    the store holds at most five distinct entries, each one lower-case,
    without white space at either end and not empty; the history buttons
    show exactly these entries; and every suspended lookup holds a trimmed
    word that is not empty. *)
Theorem history_stays_in_order (sh : Shell) (actions : list Action) :
  in_order sh ->
  in_order (structured_perform sh actions)
  /\ in_order (grounded_perform sh actions).
Proof.
  intros H. split.
  - exact (perform_in_order Structured.submit Structured.resume structured_messages
             structured_submit_contract structured_resume_contract actions sh H).
  - exact (perform_in_order Grounded.submit Grounded.resume grounded_messages
             grounded_submit_contract grounded_resume_contract actions sh H).
Qed.

Lemma history_stays_in_order_witness :
  let sh := {| sys := idle (fresh true None); dailyWordEl_textContent := [] |} in
  let actions :=
    [Loaded 4; DailyWordClick; PageEvent (Settle 0 (reply (js "Rain smell.")));
     PageEvent (Submit (js "  Sonder "));
     HistoryClick (button_for (js "petrichor"));
     PageEvent (Settle 2 Rejected); PageEvent (Settle 1 (reply (js "{}")))] in
  in_order sh
  /\ in_order (structured_perform sh actions)
  /\ in_order (grounded_perform sh actions)
  /\ localStorage (world (sys (grounded_perform sh actions)))
     = Some (jsq "['sonder','petrichor']").
Proof.
  intros sh actions.
  assert (H : in_order sh) by apply fresh_page_in_order.
  split; [exact H|].
  split; [apply (history_stays_in_order sh actions H)|].
  split; [apply (history_stays_in_order sh actions H) | reflexivity].
Defined.

(** X6.  Over any sequence of actions, in both versions, the number of
    requests sent grows by exactly the number of lookups started: a refused
    submit, a click that submits nothing, a settled call or a page load
    sends none, and a started lookup sends one. *)
Theorem one_request_per_lookup_started (sh : Shell) (actions : list Action) :
  (List.length (requests (world (sys (structured_perform sh actions))))
   + calls (sys sh)
   = List.length (requests (world (sys sh)))
     + calls (sys (structured_perform sh actions)))%nat
  /\ (List.length (requests (world (sys (grounded_perform sh actions))))
      + calls (sys sh)
      = List.length (requests (world (sys sh)))
        + calls (sys (grounded_perform sh actions)))%nat.
Proof.
  split.
  - exact (perform_requests Structured.submit Structured.resume structured_messages
             structured_submit_contract structured_resume_contract actions sh).
  - exact (perform_requests Grounded.submit Grounded.resume grounded_messages
             grounded_submit_contract grounded_resume_contract actions sh).
Qed.

(** X7.  When the client cannot be constructed at start-up, the page shows
    the fixed start-up message and keeps no client; from then on, whatever
    the user does, no request is ever sent, no lookup is ever suspended and
    the store is never written: nothing constructs the client again.  In
    both versions. *)
Theorem failed_startup_never_calls_the_service
  (w : World) (d : jsstring) (actions : list Action) :
  (let w0 := exec (startup Structured.showError false) w in
   let final := structured_perform {| sys := idle w0; dailyWordEl_textContent := d |}
                                   actions in
   in_error msg_not_constructed w0
   /\ ai (world (sys final)) = false
   /\ requests (world (sys final)) = requests w
   /\ suspended (sys final) = []
   /\ localStorage (world (sys final)) = localStorage w)
  /\ (let w0 := exec (startup Grounded.showError false) w in
      let final := grounded_perform {| sys := idle w0; dailyWordEl_textContent := d |}
                                    actions in
      in_error msg_not_constructed w0
      /\ ai (world (sys final)) = false
      /\ requests (world (sys final)) = requests w
      /\ suspended (sys final) = []
      /\ localStorage (world (sys final)) = localStorage w).
Proof.
  split; cbv zeta; unfold structured_perform, grounded_perform.
  - set (w0 := exec (startup Structured.showError false) w).
    set (sh := {| sys := idle w0; dailyWordEl_textContent := d |}).
    assert (H0 : idle_without_client sh sh) by (repeat split).
    destruct (perform_without_client Structured.submit Structured.resume
                structured_messages structured_submit_contract actions sh sh H0)
      as (Ha & Hs & Hr & Hl).
    split; [destruct w as [[] ? ? ?]; repeat split|].
    split; [exact Ha|]. split; [rewrite Hr; destruct w as [[] ? ? ?]; reflexivity|].
    split; [exact Hs|]. rewrite Hl. destruct w as [[] ? ? ?]. reflexivity.
  - set (w0 := exec (startup Grounded.showError false) w).
    set (sh := {| sys := idle w0; dailyWordEl_textContent := d |}).
    assert (H0 : idle_without_client sh sh) by (repeat split).
    destruct (perform_without_client Grounded.submit Grounded.resume
                grounded_messages grounded_submit_contract actions sh sh H0)
      as (Ha & Hs & Hr & Hl).
    split; [destruct w as [[] ? ? ?]; repeat split|].
    split; [exact Ha|]. split; [rewrite Hr; destruct w as [[] ? ? ?]; reflexivity|].
    split; [exact Hs|]. rewrite Hl. destruct w as [[] ? ? ?]. reflexivity.
Qed.

(** X8.  Over any sequence of actions, in both versions, the text of the
    banner is the text it had at the start or one of the three fixed
    messages of the version: nothing the service returns and nothing the
    user types is ever written into it. *)
Theorem banner_holds_only_fixed_messages (sh : Shell) (actions : list Action) :
  (errorContainer_text (dom (world (sys (structured_perform sh actions))))
   = errorContainer_text (dom (world (sys sh)))
   \/ In (errorContainer_text (dom (world (sys (structured_perform sh actions)))))
         structured_messages)
  /\ (errorContainer_text (dom (world (sys (grounded_perform sh actions))))
      = errorContainer_text (dom (world (sys sh)))
      \/ In (errorContainer_text (dom (world (sys (grounded_perform sh actions)))))
            grounded_messages).
Proof.
  split.
  - apply (perform_banner Structured.submit Structured.resume structured_messages
             structured_submit_contract structured_resume_contract).
    left. reflexivity.
  - apply (perform_banner Grounded.submit Grounded.resume grounded_messages
             grounded_submit_contract grounded_resume_contract).
    left. reflexivity.
Qed.

(** X9.  A store the page cannot use (a text that is no JSON, or a JSON
    value that is no array) is never repaired.  Every lookup the service
    answers ends in the failure banner with the store as it was, and over
    any sequence of actions the store stays as it is.  In both versions. *)
Theorem unusable_store_fails_every_lookup
  (sh : Shell) (actions : list Action) (word : jsstring) (r : Response) :
  broken_store (world (sys sh)) ->
  (let final := structured_perform sh actions in
   localStorage (world (sys final)) = localStorage (world (sys sh))
   /\ in_error Structured.msg_failed
        (exec (Structured.resume word (Fulfilled r)) (world (sys final)))
   /\ localStorage (exec (Structured.resume word (Fulfilled r)) (world (sys final)))
      = localStorage (world (sys sh)))
  /\ (let final := grounded_perform sh actions in
      localStorage (world (sys final)) = localStorage (world (sys sh))
      /\ in_error Grounded.msg_failed
           (exec (Grounded.resume word (Fulfilled r)) (world (sys final)))
      /\ localStorage (exec (Grounded.resume word (Fulfilled r)) (world (sys final)))
         = localStorage (world (sys sh))).
Proof.
  intros H. split; cbv zeta.
  - assert (E : localStorage (world (sys (structured_perform sh actions)))
                = localStorage (world (sys sh))).
    { apply (perform_broken Structured.submit Structured.resume structured_messages
               structured_submit_contract); [|exact H].
      intros w' s' v Hv. rewrite (structured_resume_broken w' s' v Hv).
      apply structured_failed_in_error. }
    pose proof (broken_store_same _ _ E H) as Hb.
    rewrite (structured_resume_broken word (Fulfilled r) _ Hb).
    split; [exact E|]. split; [apply structured_failed_in_error|].
    rewrite <- E. apply structured_failed_in_error.
  - assert (E : localStorage (world (sys (grounded_perform sh actions)))
                = localStorage (world (sys sh))).
    { apply (perform_broken Grounded.submit Grounded.resume grounded_messages
               grounded_submit_contract); [|exact H].
      intros w' s' v Hv. rewrite (grounded_resume_broken w' s' v Hv).
      apply grounded_failed_in_error. }
    pose proof (broken_store_same _ _ E H) as Hb.
    rewrite (grounded_resume_broken word (Fulfilled r) _ Hb).
    split; [exact E|]. split; [apply grounded_failed_in_error|].
    rewrite <- E. apply grounded_failed_in_error.
Qed.

Lemma unusable_store_fails_every_lookup_witness :
  let sh := {| sys := idle (fresh true (Some (jsq "{'run':1}")));
               dailyWordEl_textContent := [] |} in
  let actions := [Loaded 0; PageEvent (Submit (js "run"));
                  PageEvent (Settle 0 (reply (js "A run.")))] in
  broken_store (world (sys sh))
  /\ localStorage (world (sys (grounded_perform sh actions))) = Some (jsq "{'run':1}")
  /\ in_error Grounded.msg_failed (world (sys (grounded_perform sh actions))).
Proof.
  intros sh actions.
  assert (H : broken_store (world (sys sh))) by exact I.
  split; [exact H|]. split.
  - apply (unusable_store_fails_every_lookup sh actions [] {| text := Some ([]); groundingChunks := None |} H).
  - cbn. repeat split.
Defined.

(** *** The life of a lookup *)

(** X10.  Submitting a query that is not empty once trimmed, on a page with
    a client, starts a lookup: one request is sent, for the trimmed text,
    which has no white space left at either end; the handler is suspended
    holding that text; the loader is shown, the previous result is cleared,
    the banner is hidden and the store is left alone.  [src/index.tsx] also
    hides the word-of-the-day section. *)
Theorem submit_starts_a_lookup (sys : System) (typed : jsstring) :
  ai (world sys) = true ->
  trim typed <> [] ->
  (let sys' := Structured.step sys (Submit typed) in
   suspended sys' = suspended sys ++ [(calls sys, trim typed)]
   /\ requests (world sys') = Structured.request (trim typed) :: requests (world sys)
   /\ trimmed (trim typed)
   /\ loader_hidden (dom (world sys')) = false
   /\ resultsContainer (dom (world sys')) = NoResults
   /\ errorContainer_hidden (dom (world sys')) = true
   /\ wordOfTheDaySection_hidden (dom (world sys')) = true
   /\ localStorage (world sys') = localStorage (world sys))
  /\ (let sys' := Grounded.step sys (Submit typed) in
      suspended sys' = suspended sys ++ [(calls sys, trim typed)]
      /\ requests (world sys') = Grounded.request (trim typed) :: requests (world sys)
      /\ trimmed (trim typed)
      /\ loader_hidden (dom (world sys')) = false
      /\ resultsContainer (dom (world sys')) = NoResults
      /\ errorContainer_hidden (dom (world sys')) = true
      /\ wordOfTheDaySection_hidden (dom (world sys'))
         = wordOfTheDaySection_hidden (dom (world sys))
      /\ localStorage (world sys') = localStorage (world sys)).
Proof.
  intros Hai Ht. pose proof (trimmed_trim typed) as Htr.
  destruct (step_submit_started sys typed Hai Ht)
    as [(S1 & _ & S2 & S3 & S4 & S5 & S6 & S7) (G1 & _ & G2 & G3 & G4 & G5 & G6 & G7)].
  split; repeat split; assumption || apply Htr.
Qed.

Lemma submit_starts_a_lookup_witness :
  let sys := idle (fresh true None) in
  ai (world sys) = true /\ trim (js "  Sonder ") <> []
  /\ suspended (Structured.step sys (Submit (js "  Sonder "))) = [(0%nat, js "Sonder")]
  /\ requests (world (Grounded.step sys (Submit (js "  Sonder "))))
     = [Grounded.request (js "Sonder")].
Proof.
  intros sys. split; [reflexivity|]. split; [discriminate|].
  pose proof (submit_starts_a_lookup sys (js "  Sonder ") eq_refl
                ltac:(discriminate)) as [S G].
  split; [apply S | apply G].
Defined.

(** X11.  With two lookups started one after the other, when the call of
    the first settles the loader is hidden although the second lookup is
    still suspended, awaiting its reply.  In both versions. *)
Theorem loader_hidden_while_a_lookup_is_suspended
  (w : World) (typedA typedB : jsstring) (s : Settlement) :
  ai w = true -> trim typedA <> [] -> trim typedB <> [] ->
  (let mid := Structured.run (idle w) [Submit typedA; Submit typedB; Settle 0 s] in
   suspended mid = [(1%nat, trim typedB)]
   /\ loader_hidden (dom (world mid)) = true)
  /\ (let mid := Grounded.run (idle w) [Submit typedA; Submit typedB; Settle 0 s] in
      suspended mid = [(1%nat, trim typedB)]
      /\ loader_hidden (dom (world mid)) = true).
Proof.
  intros Hai Ha Hb. cbv zeta.
  unfold Structured.run, Grounded.run, run. cbn [fold_left].
  destruct (structured_step_submit (idle w) typedA Hai Ha) as (s1 & E1 & Hai1).
  unfold Structured.step in E1. rewrite E1.
  destruct (structured_step_submit
              {| world := s1; suspended := [(0%nat, trim typedA)]; calls := 1 |}
              typedB Hai1 Hb) as (s2 & E2 & _).
  unfold Structured.step in E2. cbn [idle suspended calls app]. rewrite E2.
  destruct (grounded_step_submit (idle w) typedA Hai Ha) as (g1 & G1 & Hgi1).
  unfold Grounded.step in G1. rewrite G1.
  destruct (grounded_step_submit
              {| world := g1; suspended := [(0%nat, trim typedA)]; calls := 1 |}
              typedB Hgi1 Hb) as (g2 & G2 & _).
  unfold Grounded.step in G2. cbn [idle suspended calls app]. rewrite G2.
  cbn. repeat split; apply resume_hides_loader.
Qed.

Lemma loader_hidden_while_a_lookup_is_suspended_witness :
  let mid := Grounded.run (idle (fresh true None))
               [Submit (js "alpha"); Submit (js "beta"); Settle 0 (reply (js "A"))] in
  ai (fresh true None) = true
  /\ trim (js "alpha") <> [] /\ trim (js "beta") <> []
  /\ suspended mid = [(1%nat, trim (js "beta"))]
  /\ loader_hidden (dom (world mid)) = true.
Proof.
  intros mid. split; [reflexivity|]. split; [discriminate|]. split; [discriminate|].
  apply (loader_hidden_while_a_lookup_is_suspended
           (fresh true None) (js "alpha") (js "beta") (reply (js "A")));
    [reflexivity | discriminate | discriminate].
Defined.

(** X12.  In grounded-text mode, on a store of strings, a lookup the
    service answers with a reply that has text always ends in a result,
    whatever the text and the grounding chunks: the entry is shown under the
    trimmed query, and the banner is hidden.  A reply without text ends in
    the failure banner.  Either way the loader is hidden, the lower-cased
    query is recorded in front of the history, the buttons show the new
    history, and nothing is left suspended. *)
Theorem grounded_lookup_ends_in_result
  (w : World) (l : list jsstring) (typed : jsstring) (r : Response) :
  holds (localStorage w) l ->
  ai w = true ->
  trim typed <> [] ->
  let final := Grounded.run (idle w) [Submit typed; Settle 0 (Fulfilled r)] in
  match text r with
  | Some t =>
      resultsContainer (dom (world final))
      = Grounded {| gv_heading := trim typed;
                    gv_definition := replace_newlines t;
                    gv_sources := Grounded.sources (groundingChunks r) |}
      /\ errorContainer_hidden (dom (world final)) = true
  | None => in_error Grounded.msg_failed (world final)
  end
  /\ loader_hidden (dom (world final)) = true
  /\ holds (localStorage (world final)) (record (trim typed) l)
  /\ historyList (dom (world final)) = map JString (record (trim typed) l)
  /\ historySection_hidden (dom (world final)) = false
  /\ suspended final = [].
Proof.
  intros Hl Hai Ht.
  pose proof (grounded_run_result w l typed r Hl Hai Ht) as T.
  cbv zeta in *. rewrite grounded_render_text in T.
  destruct (text r) as [t|]; exact T.
Qed.

Lemma grounded_lookup_ends_in_result_witness :
  let w := fresh true (Some (jsq "['walk','run']")) in
  let final := Grounded.run (idle w) [Submit (js " Run "); Settle 0 (reply (js "To move fast."))] in
  let failed := Grounded.run (idle w)
                  [Submit (js " Run ");
                   Settle 0 (Fulfilled {| text := None; groundingChunks := None |})] in
  holds (localStorage w) [js "walk"; js "run"]
  /\ ai w = true /\ trim (js " Run ") <> []
  /\ holds (localStorage (world final)) [js "run"; js "walk"]
  /\ heading (world final) = Some (js "Run")
  /\ in_error Grounded.msg_failed (world failed)
  /\ holds (localStorage (world failed)) [js "run"; js "walk"].
Proof.
  intros w final failed.
  assert (H : holds (localStorage w) [js "walk"; js "run"]) by (right; reflexivity).
  assert (Ht : trim (js " Run ") <> []) by discriminate.
  split; [exact H|]. split; [reflexivity|]. split; [exact Ht|].
  pose proof (grounded_lookup_ends_in_result w _ (js " Run ")
                {| text := Some (js "To move fast."); groundingChunks := None |}
                H eq_refl Ht) as T.
  pose proof (grounded_lookup_ends_in_result w _ (js " Run ")
                {| text := None; groundingChunks := None |} H eq_refl Ht) as F.
  cbv zeta in T, F. cbn [text] in T, F.
  split; [apply T|]. split; [reflexivity|]. split; [apply F | apply F].
Defined.

(** *** Replies in structured mode *)

(** X13.  In structured mode, on a store of strings, a reply that parses to
    an object whose fields are typed as the schema says is rendered field by
    field: the texts as they are, a field that is missing as undefined; the
    first example alone in the summary; synonyms, antonyms and the further
    examples in the details, each block left out when its list is missing or
    too short.  The loader is hidden, the banner is left as it was when the
    call settled, and the word is recorded. *)
Theorem conforming_reply_is_rendered_field_by_field
  (w : World) (l : list jsstring) (word : jsstring) (r : Response)
  (data : JSON) (fields : Fields) :
  holds (localStorage w) l ->
  JSON_parse (ToString (text r)) = Some data ->
  has_fields data fields ->
  let w' := exec (Structured.resume word (Fulfilled r)) w in
  resultsContainer (dom w') = Entry (entry_of word fields)
  /\ loader_hidden (dom w') = true
  /\ errorContainer_hidden (dom w') = errorContainer_hidden (dom w)
  /\ holds (localStorage w') (record word l).
Proof.
  intros Hl Hp Hf. cbv zeta.
  rewrite structured_resume_fulfilled, (updateHistory_holds word w l Hl), Hp,
    (render_has_fields word data fields Hf).
  destruct w as [[] ? ? ?]. cbn.
  split; [reflexivity|]. split; [reflexivity|]. split; [reflexivity|].
  right. reflexivity.
Qed.

Lemma conforming_reply_is_rendered_field_by_field_witness :
  let w := fresh true None in
  let r := {| text := Some (jsq "{'definition':'d','synonyms':['s','t'],'exampleSentences':['one']}"); groundingChunks := None |} in
  let fields :=
    {| f_compliment := None; f_pronunciation := None; f_partOfSpeech := None;
       f_definition := Some (js "d");
       f_synonyms := Some [js "s"; js "t"]; f_antonyms := None;
       f_etymology := None; f_exampleSentences := Some [js "one"] |} in
  let data :=
    JObject [(js "definition", JString (js "d"));
             (js "synonyms", strings [js "s"; js "t"]);
             (js "exampleSentences", strings [js "one"])] in
  holds (localStorage w) []
  /\ JSON_parse (ToString (text r)) = Some data
  /\ has_fields data fields
  /\ resultsContainer (dom (exec (Structured.resume (js "Word") (Fulfilled r)) w))
     = Entry (entry_of (js "Word") fields).
Proof.
  intros w r fields data.
  assert (Hl : holds (localStorage w) []) by (left; split; reflexivity).
  assert (Hp : JSON_parse (ToString (text r)) = Some data) by (vm_compute; reflexivity).
  assert (Hf : has_fields data fields).
  { exists [(js "definition", JString (js "d"));
            (js "synonyms", strings [js "s"; js "t"]);
            (js "exampleSentences", strings [js "one"])].
    split; [reflexivity|]. vm_compute. repeat split. }
  split; [exact Hl|]. split; [exact Hp|]. split; [exact Hf|].
  apply (conforming_reply_is_rendered_field_by_field w [] (js "Word") r data fields
           Hl Hp Hf).
Defined.

(** X14.  In structured mode a reply that parses to an object but gives a
    text that is not empty for the synonyms or the antonyms, or a text of
    two units or more for the example sentences, ends in the failure
    banner, whatever its other fields: no entry is shown.  The word was
    recorded in the history all the same. *)
Theorem text_where_a_list_is_expected_fails_the_lookup
  (w : World) (l : list jsstring) (word : jsstring) (r : Response)
  (m : list (jsstring * JSON)) (s : jsstring) :
  holds (localStorage w) l ->
  JSON_parse (ToString (text r)) = Some (JObject m) ->
  (lookup_last (js "synonyms") m = Some (JString s) /\ s <> [])
  \/ (lookup_last (js "antonyms") m = Some (JString s) /\ s <> [])
  \/ (lookup_last (js "exampleSentences") m = Some (JString s)
      /\ (1 < List.length s)%nat) ->
  let w' := exec (Structured.resume word (Fulfilled r)) w in
  in_error Structured.msg_failed w'
  /\ loader_hidden (dom w') = true
  /\ holds (localStorage w') (record word l).
Proof.
  intros Hl Hp Hm. cbv zeta.
  rewrite structured_resume_fulfilled, (updateHistory_holds word w l Hl), Hp,
    (render_text_for_list word m s Hm).
  match goal with
  | |- in_error _ (structured_failed ?w1) /\ _ =>
      destruct (structured_failed_in_error w1) as (Herr & _ & Hload & Hst & _)
  end.
  split; [exact Herr|]. split; [exact Hload|].
  rewrite Hst. right. reflexivity.
Qed.

Lemma text_where_a_list_is_expected_fails_the_lookup_witness :
  let w := fresh true None in
  let r := {| text := Some (jsq "{'definition':'d','synonyms':'quick, fast'}"); groundingChunks := None |} in
  let m := [(js "definition", JString (js "d"));
            (js "synonyms", JString (js "quick, fast"))] in
  holds (localStorage w) []
  /\ JSON_parse (ToString (text r)) = Some (JObject m)
  /\ lookup_last (js "synonyms") m = Some (JString (js "quick, fast"))
  /\ in_error Structured.msg_failed
       (exec (Structured.resume (js "Swift") (Fulfilled r)) w)
  /\ holds (localStorage (exec (Structured.resume (js "Swift") (Fulfilled r)) w))
       [js "swift"].
Proof.
  intros w r m.
  assert (Hl : holds (localStorage w) []) by (left; split; reflexivity).
  assert (Hp : JSON_parse (ToString (text r)) = Some (JObject m)) by (vm_compute; reflexivity).
  assert (Hs : lookup_last (js "synonyms") m = Some (JString (js "quick, fast")))
    by (vm_compute; reflexivity).
  split; [exact Hl|]. split; [exact Hp|]. split; [exact Hs|].
  assert (Hne : js "quick, fast" <> []) by discriminate.
  pose proof (text_where_a_list_is_expected_fails_the_lookup
                w [] (js "Swift") r m (js "quick, fast") Hl Hp
                (or_introl (conj Hs Hne))) as T.
  cbv zeta in T. destruct T as (T1 & _ & T2).
  split; [exact T1 | exact T2].
Defined.

(** *** Clicks that start a lookup *)

(** X15.  Whatever index below ten [setWordOfTheDay] draws, the paragraph
    shows one of the ten words of the day, and no other text of the page
    changes; a click on the paragraph, on a page with a client, then starts
    a lookup of exactly the word shown: one request is sent for it and the
    handler is suspended holding it.  In both versions. *)
Theorem daily_word_click_looks_up_the_word_shown (sh : Shell) (floor : nat) :
  (floor < 10)%nat ->
  ai (world (sys sh)) = true ->
  let drawn := setWordOfTheDay floor sh in
  let word := dailyWordEl_textContent drawn in
  In word dailyWords
  /\ sys drawn = sys sh
  /\ (let sh' := structured_act drawn DailyWordClick in
      dailyWordEl_textContent sh' = word
      /\ suspended (sys sh') = suspended (sys sh) ++ [(calls (sys sh), word)]
      /\ requests (world (sys sh'))
         = Structured.request word :: requests (world (sys sh)))
  /\ (let sh' := grounded_act drawn DailyWordClick in
      dailyWordEl_textContent sh' = word
      /\ suspended (sys sh') = suspended (sys sh) ++ [(calls (sys sh), word)]
      /\ requests (world (sys sh'))
         = Grounded.request word :: requests (world (sys sh))).
Proof.
  intros Hfloor Hai. cbv zeta.
  pose proof (nth_dailyWords floor Hfloor) as Hin.
  pose proof dailyWords_tidy as Ht. rewrite Forall_forall in Ht.
  destruct (Ht _ Hin) as [Hne Etrim].
  unfold structured_act, grounded_act, act, dailyWordEl_click, submit_value,
    setWordOfTheDay.
  cbn [sys dailyWordEl_textContent].
  assert (Hne' : trim (nth floor dailyWords []) <> []) by (rewrite Etrim; exact Hne).
  destruct (step_submit_started (sys sh) (nth floor dailyWords []) Hai Hne')
    as [(S1 & _ & S2 & _) (G1 & _ & G2 & _)].
  unfold Structured.step in S1, S2. unfold Grounded.step in G1, G2.
  rewrite Etrim in S1, S2, G1, G2.
  split; [exact Hin|]. split; [reflexivity|].
  split; (split; [reflexivity|]); split; assumption.
Qed.

Lemma daily_word_click_looks_up_the_word_shown_witness :
  let sh := {| sys := idle (fresh true None); dailyWordEl_textContent := [] |} in
  (6 < 10)%nat /\ ai (world (sys sh)) = true
  /\ requests (world (sys (grounded_act (setWordOfTheDay 6 sh) DailyWordClick)))
     = [Grounded.request (js "Sonder")].
Proof.
  intros sh. split; [lia|]. split; [reflexivity|].
  apply (daily_word_click_looks_up_the_word_shown sh 6 ltac:(lia) eq_refl).
Defined.

(** X16.  A click on the history button of an entry that is not empty,
    trimmed and lower-case, as every entry of a page in good order is,
    starts a lookup of exactly that entry on a page with a client: one
    request is sent for it and the handler is suspended holding it.  A
    click on the list outside a button, or on a button without word, does
    nothing at all.  In both versions. *)
Theorem history_click_looks_up_the_entry (sh : Shell) (word : jsstring) :
  ai (world (sys sh)) = true ->
  tidy word ->
  (let sh' := structured_act sh (HistoryClick (button_for word)) in
   suspended (sys sh') = suspended (sys sh) ++ [(calls (sys sh), word)]
   /\ requests (world (sys sh'))
      = Structured.request word :: requests (world (sys sh)))
  /\ (let sh' := grounded_act sh (HistoryClick (button_for word)) in
      suspended (sys sh') = suspended (sys sh) ++ [(calls (sys sh), word)]
      /\ requests (world (sys sh'))
         = Grounded.request word :: requests (world (sys sh)))
  /\ (forall target,
         tagName target <> js "BUTTON"
         \/ dataset_word target = None \/ dataset_word target = Some [] ->
         structured_act sh (HistoryClick target) = sh
         /\ grounded_act sh (HistoryClick target) = sh).
Proof.
  intros Hai (Hne & Htr & _). cbv zeta.
  pose proof (trim_trimmed word Htr) as Etrim.
  assert (Hne' : trim word <> []) by (rewrite Etrim; exact Hne).
  destruct (step_submit_started (sys sh) word Hai Hne')
    as [(S1 & _ & S2 & _) (G1 & _ & G2 & _)].
  unfold Structured.step in S1, S2. unfold Grounded.step in G1, G2.
  rewrite Etrim in S1, S2, G1, G2.
  unfold structured_act, grounded_act, act, historyList_click, button_for.
  cbn [tagName dataset_word].
  replace (str_eqb (js "BUTTON") (js "BUTTON")) with true by reflexivity.
  destruct word as [|c word]; [congruence|].
  unfold submit_value. cbn [sys].
  split; [split; assumption|]. split; [split; assumption|].
  intros target [Htag | [Hw | Hw]].
  - replace (str_eqb (tagName target) (js "BUTTON")) with false
      by (symmetry; apply str_eqb_neq; exact Htag).
    split; reflexivity.
  - rewrite Hw. destruct (str_eqb (tagName target) (js "BUTTON")); split; reflexivity.
  - rewrite Hw. destruct (str_eqb (tagName target) (js "BUTTON")); split; reflexivity.
Qed.

Lemma history_click_looks_up_the_entry_witness :
  let sh := {| sys := idle (fresh true (Some (jsq "['walk','run']")));
               dailyWordEl_textContent := js "Sonder" |} in
  ai (world (sys sh)) = true /\ tidy (js "run")
  /\ requests (world (sys (structured_act sh (HistoryClick (button_for (js "run"))))))
     = [Structured.request (js "run")].
Proof.
  intros sh.
  assert (Ht : tidy (js "run")).
  { split; [discriminate|]. split; [split; reflexivity | reflexivity]. }
  split; [reflexivity|]. split; [exact Ht|].
  apply (history_click_looks_up_the_entry sh (js "run") eq_refl Ht).
Defined.

(** X17.  In grounded-text mode, on an idle page with a client whose store
    holds at most five distinct strings, take an entry that is as the page
    records them: not empty, trimmed and lower-case.  A click on its history
    button, once the service answers, moves that entry to the front of the
    history: the other entries keep their order, the length stays and the
    buttons show the new order.  The entry is shown under that word when
    the reply has text; a reply without text ends in the failure banner.
    Nothing is left suspended. *)
Theorem history_click_moves_the_entry_to_the_front
  (w : World) (d : jsstring) (l : list jsstring) (word : jsstring) (r : Response) :
  holds (localStorage w) l ->
  NoDup l -> (List.length l <= 5)%nat ->
  In word l -> tidy word ->
  ai w = true ->
  let l' := word :: filter (fun item => negb (str_eqb item word)) l in
  let final := grounded_perform {| sys := idle w; dailyWordEl_textContent := d |}
                 [HistoryClick (button_for word);
                  PageEvent (Settle 0 (Fulfilled r))] in
  holds (localStorage (world (sys final))) l'
  /\ List.length l' = List.length l
  /\ historyList (dom (world (sys final))) = map JString l'
  /\ match text r with
     | Some _ => heading (world (sys final)) = Some word
     | None => in_error Grounded.msg_failed (world (sys final))
     end
  /\ suspended (sys final) = [].
Proof.
  intros Hl Hn Hlen Hin (Hne & Htr & Hlow) Hai l' final.
  pose proof (trim_trimmed word Htr) as Etrim.
  assert (Hne' : trim word <> []) by (rewrite Etrim; exact Hne).
  assert (Elen : List.length l' = List.length l).
  { unfold l'. cbn [List.length]. apply filter_present_length; assumption. }
  assert (Er : record word l = l').
  { unfold record. rewrite Hlow. fold l'. apply firstn_all2. lia. }
  assert (Ef : sys final
               = Grounded.run (idle w) [Submit word; Settle 0 (Fulfilled r)]).
  { unfold final, grounded_perform, perform, act, historyList_click, button_for.
    cbn [fold_left tagName dataset_word].
    replace (str_eqb (js "BUTTON") (js "BUTTON")) with true by reflexivity.
    destruct word as [|c word]; [congruence|]. reflexivity. }
  pose proof (grounded_run_result w l word r Hl Hai Hne') as R.
  cbv zeta in R. rewrite grounded_render_text, Etrim, Er in R.
  destruct R as (R1 & _ & R2 & R3 & _ & R4). rewrite Ef.
  split; [exact R2|]. split; [exact Elen|]. split; [exact R3|].
  split; [|exact R4].
  destruct (text r) as [t|]; cbn [option_map] in R1; [|exact R1].
  destruct R1 as [R1 _]. unfold heading. rewrite R1. reflexivity.
Qed.

Lemma history_click_moves_the_entry_to_the_front_witness :
  let w := fresh true (Some (jsq "['walk','run','swim']")) in
  let final := grounded_perform {| sys := idle w; dailyWordEl_textContent := [] |}
                 [HistoryClick (button_for (js "swim"));
                  PageEvent (Settle 0 (reply (js "To move through water.")))] in
  holds (localStorage w) [js "walk"; js "run"; js "swim"]
  /\ tidy (js "swim")
  /\ holds (localStorage (world (sys final))) [js "swim"; js "walk"; js "run"]
  /\ heading (world (sys final)) = Some (js "swim").
Proof.
  intros w final.
  assert (Hl : holds (localStorage w) [js "walk"; js "run"; js "swim"])
    by (right; reflexivity).
  assert (Ht : tidy (js "swim")).
  { split; [discriminate|]. split; [split; reflexivity | reflexivity]. }
  assert (Hn : NoDup [js "walk"; js "run"; js "swim"])
    by (repeat constructor; cbn; intuition discriminate).
  assert (Hlen : (List.length [js "walk"; js "run"; js "swim"] <= 5)%nat)
    by (cbn; lia).
  assert (Hin : In (js "swim") [js "walk"; js "run"; js "swim"]) by (cbn; tauto).
  split; [exact Hl|]. split; [exact Ht|].
  pose proof (history_click_moves_the_entry_to_the_front
                w [] [js "walk"; js "run"; js "swim"] (js "swim")
                {| text := Some (js "To move through water.");
                   groundingChunks := None |} Hl Hn Hlen Hin Ht eq_refl) as T.
  cbv zeta in T. cbn [text] in T. destruct T as (T1 & _ & _ & T2 & _).
  split; [exact T1 | exact T2].
Defined.

(** *** The details of an entry *)

(** X18.  However often the toggle button is clicked, the details are
    hidden after an even number of clicks and shown after an odd number;
    the label reads Show More exactly when they are hidden, Show Less
    otherwise; the icon carries exactly one of the two chevron classes, the
    downward one exactly when the details are hidden; and every other class
    of the details stays as the template wrote it. *)
Theorem details_toggle_alternates (n : nat) :
  let w := clicked n in
  Details.contains (js "hidden") (Details.detailedView_classList w) = Nat.even n
  /\ Details.text_textContent w
     = (if Nat.even n then js "Show More" else js "Show Less")
  /\ Details.contains (js "fa-chevron-down") (Details.icon_classList w) = Nat.even n
  /\ Details.contains (js "fa-chevron-up") (Details.icon_classList w)
     = negb (Nat.even n)
  /\ (forall c, c <> js "hidden" ->
                Details.contains c (Details.detailedView_classList w)
                = Details.contains c (Details.detailedView_classList Details.template)).
Proof.
  cbv zeta.
  assert (Hc : forall c, c <> js "hidden" ->
               Details.contains c (Details.detailedView_classList odd_state)
               = Details.contains c (Details.detailedView_classList Details.template)
               /\ Details.contains c (Details.detailedView_classList even_state)
                  = Details.contains c (Details.detailedView_classList Details.template)).
  { intros c Hne. unfold Details.contains, odd_state, even_state, Details.template.
    cbn [Details.detailedView_classList existsb].
    replace (str_eqb c (js "hidden")) with false
      by (symmetry; apply str_eqb_neq; exact Hne).
    rewrite !orb_false_r. split; reflexivity. }
  destruct n as [|n].
  - repeat split; reflexivity.
  - rewrite clicked_parity, Nat.even_succ, <- Nat.negb_even.
    destruct (Nat.even n); cbn [negb];
      (split; [reflexivity|]); (split; [reflexivity|]); (split; [reflexivity|]);
      (split; [reflexivity|]); intros c Hne; apply (Hc c Hne).
Qed.

(** X19.  In structured mode, on a store of strings, a reply that parses
    to something that is no object is not turned away as such: [null] ends
    in the failure banner, because reading a field of it throws, while a
    number, a boolean, a text or an array is rendered as an entry all of
    whose fields are undefined.  The word is recorded either way. *)
Theorem reply_that_is_no_object
  (w : World) (l : list jsstring) (word : jsstring) (r : Response) (data : JSON) :
  holds (localStorage w) l ->
  JSON_parse (ToString (text r)) = Some data ->
  (forall m, data <> JObject m) ->
  let w' := exec (Structured.resume word (Fulfilled r)) w in
  match data with
  | JNull => in_error Structured.msg_failed w'
  | _ => resultsContainer (dom w') = Entry (entry_of word no_fields)
  end
  /\ holds (localStorage w') (record word l).
Proof.
  intros Hl Hp Hno. cbv zeta.
  rewrite structured_resume_fulfilled, (updateHistory_holds word w l Hl), Hp.
  destruct data as [| b | x | s | items | m];
    try (destruct w as [[] ? ? ?]; split; [reflexivity | right; reflexivity]).
  - change (Structured.render word JNull) with (@None EntryView). cbv iota.
    match goal with
    | |- in_error _ (structured_failed ?w1) /\ _ =>
        destruct (structured_failed_in_error w1) as (Herr & _ & _ & Hst & _)
    end.
    split; [exact Herr|]. rewrite Hst. right. reflexivity.
  - exfalso. apply (Hno m). reflexivity.
Qed.

Lemma reply_that_is_no_object_witness :
  let w := fresh true None in
  let r := {| text := Some (js "42"); groundingChunks := None |} in
  holds (localStorage w) []
  /\ JSON_parse (ToString (text r)) = Some (JNumber (js "42"))
  /\ (forall m, JNumber (js "42") <> JObject m)
  /\ resultsContainer (dom (exec (Structured.resume (js "Answer") (Fulfilled r)) w))
     = Entry (entry_of (js "Answer") no_fields).
Proof.
  intros w r.
  assert (Hl : holds (localStorage w) []) by (left; split; reflexivity).
  assert (Hp : JSON_parse (ToString (text r)) = Some (JNumber (js "42")))
    by (vm_compute; reflexivity).
  assert (Hno : forall m, JNumber (js "42") <> JObject m) by discriminate.
  split; [exact Hl|]. split; [exact Hp|]. split; [exact Hno|].
  pose proof (reply_that_is_no_object w [] (js "Answer") r (JNumber (js "42"))
                Hl Hp Hno) as T.
  cbv zeta in T. destruct T as [T _]. exact T.
Defined.
